(** * devicehive.gateway.binary: framing, packet buffer, binary formatter

    A shallow embedding of [devicehive/gateway/binary.py], which is Python 2
    code: a [str] is a byte string, a [unicode] a text.  Python integers
    are [Z] (bit operators are [Z.land], [Z.lor], [Z.shiftl], [Z.shiftr]),
    byte sequences and lists of integers are [list Z], exceptions are the
    constructors of [exn], and a method of a stateful object is a function
    from the object's state to an outcome carrying the new state.

    The first part translates the module, class by class, with what it uses
    of [struct] and [uuid]; the second names what the properties speak
    about; the third states and proves the properties, the unit tests of
    the module among them. *)

From Stdlib Require Import ZArith List Bool Lia.
From Stdlib Require String.
Import String.StringSyntax.
Delimit Scope string_scope with string.
Bind Scope string_scope with String.string.
From Equations Require Import Equations.
From Equations.Prop Require Import Logic.
Import ListNotations.

Local Open Scope Z_scope.
Set Warnings "-register-all".

(** * The module *)

(** ** Exceptions *)

Inductive exn : Type :=
| IncompletePacketError
| InvalidPacketLengthError
| InvalidSignatureError
| InvalidCRCError
| BinarySerializationError
| BinaryDeserializationError
| NameError (name : String.string)
| ValueError
| TypeError
| OverflowError
| struct_error
| UnicodeDecodeError
| AttributeError
| KeyError
| AlreadyCalledError
| NotImplementedError.

(** What evaluating an expression gives: its value, or the exception raised. *)
Inductive result (A : Type) : Type :=
| Ok (a : A)
| Raise (e : exn).
Arguments Ok {A} a.
Arguments Raise {A} e.

Definition bind {A B} (r : result A) (k : A -> result B) : result B :=
  match r with
  | Ok a => k a
  | Raise e => Raise e
  end.

Notation "x <- r ;; k" := (bind r (fun x => k))
  (at level 61, r at next level, right associativity).

(** What a method of a stateful object does: it returns a value or raises,
    and either way leaves the object in a state. *)
Inductive outcome (S A : Type) : Type :=
| Returns (a : A) (s : S)
| Raises (e : exn) (s : S).
Arguments Returns {S A} a s.
Arguments Raises {S A} e s.

Definition state_of {S A} (o : outcome S A) : S :=
  match o with
  | Returns _ s => s
  | Raises _ s => s
  end.

(** ** Python built-ins on lists *)

(** [len(l)] *)
Definition len {A} (l : list A) : Z := Z.of_nat (List.length l).

(** [l[i]] for an index the caller has checked to be in range. *)
Definition item (l : list Z) (i : Z) : Z := nth (Z.to_nat i) l 0.

(** [l[lo:hi]] for non-negative bounds (a slice is clipped, never raises). *)
Definition slice {A} (l : list A) (lo hi : Z) : list A :=
  firstn (Z.to_nat (hi - lo)) (skipn (Z.to_nat lo) l).

(** [del l[:k]] for a non-negative [k]. *)
Definition del_prefix {A} (k : Z) (l : list A) : list A := skipn (Z.to_nat k) l.

(** [sum(l)] *)
Definition sum (l : list Z) : Z := fold_left Z.add l 0.

(** [l.index(x)]: position of the first element equal to [x];
    [None] stands for the [ValueError] raised when there is none. *)
Fixpoint index (x : Z) (l : list Z) : option Z :=
  match l with
  | [] => None
  | y :: l' => if y =? x then Some 0
               else match index x l' with
                    | Some i => Some (i + 1)
                    | None => None
                    end
  end.

Definition is_byte (b : Z) : bool := (0 <=? b) && (b <? 256).

(** [bytearray(l)] of a list of integers: [ValueError] unless every element
    is in [range(256)]. *)
Definition bytearray (l : list Z) : result (list Z) :=
  if forallb is_byte l then Ok l else Raise ValueError.

(** ** Wire constants *)

Definition PACKET_SIGNATURE : Z := 0xc5c3.
Definition PACKET_SIGNATURE_HI : Z := 0xc5.
Definition PACKET_SIGNATURE_LO : Z := 0xc3.

Definition PACKET_OFFSET_SIGN_MSB : Z := 0.
Definition PACKET_OFFSET_SIGN_LSB : Z := 1.
Definition PACKET_OFFSET_VERSION : Z := 2.
Definition PACKET_OFFSET_FLAGS : Z := 3.
Definition PACKET_OFFSET_LEN_LSB : Z := 4.
Definition PACKET_OFFSET_LEN_MSB : Z := 5.
Definition PACKET_OFFSET_INTENT_LSB : Z := 6.
Definition PACKET_OFFSET_INTENT_MSB : Z := 7.
Definition PACKET_OFFSET_DATA : Z := 8.

Definition EMPTY_PACKET_LENGTH : Z := 9.

(** ** class BinaryMessage(AbstractBinaryMessage) *)

Module BinaryMessage.

Record t : Type := make {
  signature : Z;
  version : Z;
  flags : Z;
  intent : Z;
  data : list Z
}.

(** [length = property(fget = lambda self : len(self.data))] *)
Definition length (self : t) : Z := len (data self).

(** The [checksum] property. *)
Definition checksum (self : t) : Z :=
  let s := Z.shiftr (Z.land (signature self) 0xff00) 8
           + signature self
           + version self
           + flags self
           + Z.shiftr (Z.land (length self) 0xff00) 8
           + length self
           + Z.shiftr (Z.land (intent self) 0xff00) 8
           + intent self in
  let s := s + sum (data self) in
  Z.land (0xff - Z.land s 0xff) 0xff.

Definition to_binary (self : t) : result (list Z) :=
  let _len := length self in
  let _data := data self in
  let _intent := intent self in
  bytearray ([ Z.land (Z.shiftr (Z.land (signature self) 0xff00) 8) 0xff;
               Z.land (signature self) 0xff;
               Z.land (version self) 0xff;
               Z.land (flags self) 0xff;
               Z.land _len 0xff; Z.shiftr (Z.land _len 0xff00) 8;
               Z.land _intent 0xff; Z.shiftr (Z.land _intent 0xff00) 8 ]
             ++ _data ++ [ checksum self ]).

Definition from_binary (binstr : list Z) : result t :=
  let binstr_len := len binstr in
  if binstr_len <? EMPTY_PACKET_LENGTH then Raise IncompletePacketError else
  let signature := Z.lor (Z.shiftl (Z.land (item binstr PACKET_OFFSET_SIGN_MSB) 0xff) 8)
                         (Z.land (item binstr PACKET_OFFSET_SIGN_LSB) 0xff) in
  if negb (signature =? PACKET_SIGNATURE) then Raise InvalidSignatureError else
  let version := item binstr PACKET_OFFSET_VERSION in
  let flags := item binstr PACKET_OFFSET_FLAGS in
  let payload_len := Z.lor (Z.shiftl (Z.land (item binstr PACKET_OFFSET_LEN_MSB) 0xff) 8)
                           (Z.land (item binstr PACKET_OFFSET_LEN_LSB) 0xff) in
  if binstr_len <? EMPTY_PACKET_LENGTH + payload_len then Raise InvalidPacketLengthError else
  let intent := Z.lor (Z.shiftl (Z.land (item binstr PACKET_OFFSET_INTENT_MSB) 0xff) 8)
                      (Z.land (item binstr PACKET_OFFSET_INTENT_LSB) 0xff) in
  frame_data <- bytearray (slice binstr PACKET_OFFSET_DATA (PACKET_OFFSET_DATA + payload_len)) ;;
  if negb (0xff =? Z.land (sum (slice binstr 0 (PACKET_OFFSET_DATA + payload_len + 1))) 0xff)
  then Raise InvalidCRCError
  else Ok (make signature version flags intent frame_data).

(** The frames of the data model: the constant signature, 8-bit version
    and flags, 16-bit intent, and at most 65535 payload bytes. *)
Definition wellformed (f : t) : Prop :=
  signature f = PACKET_SIGNATURE /\
  0 <= version f <= 255 /\
  0 <= flags f <= 255 /\
  0 <= intent f <= 65535 /\
  length f <= 65535 /\
  Forall (fun b => 0 <= b < 256) (data f).

End BinaryMessage.

(** ** class SystemIntents(Values) *)

Module SystemIntents.

(** A [ValueConstant] of the container: its name and its value. *)
Record ValueConstant : Type := make { name : String.string; value : Z }.

Definition constants : list ValueConstant :=
  [ make "RequestRegistration" 0; make "Register" 1; make "NotifyCommandResult" 2 ].

(** The attribute reference [SystemIntents.<attr>]: [AttributeError] when
    the container has no constant of this name. *)
Definition getattr (attr : String.string) : result ValueConstant :=
  match find (fun c => String.eqb attr (name c)) constants with
  | Some c => Ok c
  | None => Raise AttributeError
  end.

End SystemIntents.

(** ** class AbstractBinaryMessage *)

Module AbstractBinaryMessage.

(** What a header property of a message is: an integer, or a constant of
    a [Values] container, which supports none of [&], [>>] and [+]. *)
Inductive field : Type :=
| Int (n : Z)
| Constant (c : SystemIntents.ValueConstant).

Definition int_of_field (x : field) : result Z :=
  match x with
  | Int n => Ok n
  | Constant _ => Raise TypeError
  end.

(** A message class, by what its property getters return; [length] is
    not overridden by any class of the module. *)
Record t : Type := make {
  signature : result field;
  version : result field;
  flags : result field;
  intent : result field;
  data : result (list Z)
}.

(** The class itself: every header property is 0, the data empty. *)
Definition defaults : t :=
  make (Ok (Int 0)) (Ok (Int 0)) (Ok (Int 0)) (Ok (Int 0)) (Ok []).

(** [length = property(fget = lambda self : len(self.data))] *)
Definition length (self : t) : result Z := d <- data self ;; Ok (len d).

(** [(x & 0xff00) >> 8] and [x & 0xff] of a property just read. *)
Definition high (x : result field) : result Z :=
  x <- x ;; n <- int_of_field x ;; Ok (Z.shiftr (Z.land n 0xff00) 8).

Definition low (x : result field) : result Z :=
  x <- x ;; n <- int_of_field x ;; Ok (Z.land n 0xff).

(** [s + x] for a property just read. *)
Definition plus (s : Z) (x : result field) : result Z :=
  x <- x ;; n <- int_of_field x ;; Ok (s + n).

(** The [checksum] property, its operands evaluated from left to right. *)
Definition checksum (self : t) : result Z :=
  s <- high (signature self) ;;
  s <- plus s (signature self) ;;
  s <- plus s (version self) ;;
  s <- plus s (flags self) ;;
  n <- length self ;;
  let s := s + Z.shiftr (Z.land n 0xff00) 8 in
  n <- length self ;;
  let s := s + n in
  h <- high (intent self) ;;
  let s := s + h in
  s <- plus s (intent self) ;;
  d <- data self ;;
  let s := s + sum d in
  Ok (Z.land (0xff - Z.land s 0xff) 0xff).

Definition to_binary (self : t) : result (list Z) :=
  _len <- length self ;;
  _data <- data self ;;
  _intent <- intent self ;;
  b0 <- high (signature self) ;;
  b1 <- low (signature self) ;;
  b2 <- low (version self) ;;
  b3 <- low (flags self) ;;
  b6 <- low (Ok _intent) ;;
  b7 <- high (Ok _intent) ;;
  c <- checksum self ;;
  bytearray ([ Z.land b0 0xff; b1; b2; b3;
               Z.land _len 0xff; Z.shiftr (Z.land _len 0xff00) 8;
               b6; b7 ]
             ++ _data ++ [ c ]).

(** An instance of [BinaryMessage], seen through its getters. *)
Definition of_BinaryMessage (m : BinaryMessage.t) : t :=
  make (Ok (Int (BinaryMessage.signature m))) (Ok (Int (BinaryMessage.version m)))
       (Ok (Int (BinaryMessage.flags m))) (Ok (Int (BinaryMessage.intent m)))
       (Ok (BinaryMessage.data m)).

End AbstractBinaryMessage.

(** ** class RegistrationRequest(AbstractBinaryMessage) *)

Module RegistrationRequest.

(** [intent = property(fget = lambda self : SystemIntents.RegistrationRequest)] *)
Definition getters : AbstractBinaryMessage.t :=
  AbstractBinaryMessage.make
    (Ok (AbstractBinaryMessage.Int PACKET_SIGNATURE))
    (Ok (AbstractBinaryMessage.Int 1))
    (Ok (AbstractBinaryMessage.Int 0))
    (c <- SystemIntents.getattr "RegistrationRequest" ;;
     Ok (AbstractBinaryMessage.Constant c))
    (Ok []).

End RegistrationRequest.

(** ** class BinaryPacketBuffer *)

Module BinaryPacketBuffer.

(** One pass through the body of [_skip_to_next_packet]: either the method
    returns with the buffer [Done], or it calls itself on the buffer
    [Again]. *)
Inductive pass : Type :=
| Done (data : list Z)
| Again (data : list Z).

Definition skip_pass (data : list Z) : pass :=
  let data_len := len data in
  if 1 <? data_len then
    if (item data 0 =? PACKET_SIGNATURE_HI) && (item data 1 =? PACKET_SIGNATURE_LO)
    then Done data
    else match index PACKET_SIGNATURE_HI data with
         | Some idx =>
             if idx =? data_len - 1 then Done (del_prefix idx data)
             else if idx <? data_len - 2 then
               if item data (idx + 1) =? PACKET_SIGNATURE_LO
               then Done (del_prefix idx data)
               else Again (del_prefix (idx + 1) data)
             else Done data
         | None => Done []
         end
  else if (data_len =? 1) && negb (item data 0 =? PACKET_SIGNATURE_HI)
  then Done []
  else Done data.

Lemma index_nonneg x l i : index x l = Some i -> 0 <= i.
Proof.
  revert i; induction l as [|y l IH]; simpl; intros i H; [discriminate|].
  destruct (y =? x); [injection H as <-; lia|].
  destruct (index x l) as [j|]; [|discriminate].
  injection H as <-. specialize (IH j eq_refl). lia.
Qed.

(** The buffer handed to the recursive call is strictly shorter. *)
Lemma skip_pass_shrinks data data' :
  skip_pass data = Again data' -> (List.length data' < List.length data)%nat.
Proof.
  unfold skip_pass, len, del_prefix.
  destruct (1 <? _) eqn:Hlen.
  2:{ destruct (_ && _); discriminate. }
  destruct (_ && _); [discriminate|].
  destruct (index _ data) as [idx|] eqn:Hidx; [|discriminate].
  apply index_nonneg in Hidx.
  destruct (idx =? _); [discriminate|].
  destruct (idx <? _); [|discriminate].
  destruct (item _ _ =? _); [discriminate|].
  intros [= <-]. rewrite length_skipn.
  apply Z.ltb_lt in Hlen. lia.
Qed.

Equations _skip_to_next_packet (data : list Z) : list Z
  by wf (List.length data) lt :=
  _skip_to_next_packet data with inspect (skip_pass data) := {
    | exist _ (Done d) _ => d
    | exist _ (Again d) H => _skip_to_next_packet d }.
Next Obligation. now apply skip_pass_shrinks. Qed.

(** The method's body, as an equation. *)
Lemma skip_unfold data :
  _skip_to_next_packet data =
  match skip_pass data with
  | Done d => d
  | Again d => _skip_to_next_packet d
  end.
Proof.
  funelim (_skip_to_next_packet data);
    match goal with E : skip_pass _ = _ |- _ => now rewrite E end.
Qed.

Lemma skip_pass_done_length data d :
  skip_pass data = Done d -> (List.length d <= List.length data)%nat.
Proof.
  unfold skip_pass, del_prefix.
  repeat match goal with
  | |- context [if ?b then _ else _] => destruct b
  | |- context [match ?o with Some _ => _ | None => _ end] => destruct o
  end; intros [= <-]; rewrite ?length_skipn; simpl; lia.
Qed.

Lemma skip_length_le data :
  (List.length (_skip_to_next_packet data) <= List.length data)%nat.
Proof.
  remember (List.length data) as n eqn:Hn.
  revert data Hn. induction n as [n IH] using lt_wf_ind. intros data ->.
  rewrite skip_unfold. destruct (skip_pass data) as [d|d] eqn:E.
  - now apply skip_pass_done_length.
  - apply skip_pass_shrinks in E.
    specialize (IH _ E d eq_refl). lia.
Qed.

(** The methods; the state is [self._data]. *)

Definition append (value : list Z) (data : list Z) : outcome (list Z) unit :=
  Returns tt (_skip_to_next_packet (data ++ value)).

Definition has_packet (data : list Z) : bool :=
  let data_len := len data in
  if data_len <? EMPTY_PACKET_LENGTH then false else
  let payload_len :=
    Z.lor (Z.land (Z.shiftl (item data PACKET_OFFSET_LEN_MSB) 8) 0xff00)
          (Z.land (item data PACKET_OFFSET_LEN_LSB) 0xff) in
  if data_len <? payload_len + EMPTY_PACKET_LENGTH then false else true.

Definition clear (data : list Z) : outcome (list Z) unit := Returns tt [].

Definition pop_packet (data : list Z) : outcome (list Z) (option BinaryMessage.t) :=
  if negb (has_packet data) then Returns None data else
  match BinaryMessage.from_binary data with
  | Raise e => Raises e data
  | Ok msg =>
      Returns (Some msg)
        (_skip_to_next_packet
           (del_prefix
              (PACKET_OFFSET_DATA + 1
               + Z.lor (Z.land (Z.shiftl (item data PACKET_OFFSET_LEN_MSB) 8) 0xff00)
                       (Z.land (item data PACKET_OFFSET_LEN_LSB) 0xff))
              data))
  end.

(** A successful [pop_packet] on a buffer that has a packet leaves a
    strictly shorter buffer. *)
Lemma pop_packet_shrinks data msg data' :
  has_packet data = true ->
  pop_packet data = Returns (Some msg) data' ->
  (List.length data' < List.length data)%nat.
Proof.
  intros Hhas. unfold pop_packet. rewrite Hhas. cbn [negb].
  revert Hhas. unfold has_packet, len.
  remember (Z.lor _ _) as pl eqn:Hpl.
  assert (0 <= pl).
  { subst pl. apply Z.lor_nonneg; split; apply Z.land_nonneg; right; lia. }
  destruct (_ <? EMPTY_PACKET_LENGTH) eqn:H9; [discriminate|]. intros _.
  apply Z.ltb_ge in H9.
  destruct (BinaryMessage.from_binary data); [|discriminate].
  intros Heq. apply (f_equal state_of) in Heq. cbn [state_of] in Heq. subst data'.
  pose proof (skip_length_le (del_prefix (PACKET_OFFSET_DATA + 1 + pl) data)) as Hle.
  unfold del_prefix in *. rewrite length_skipn in Hle.
  unfold EMPTY_PACKET_LENGTH, PACKET_OFFSET_DATA in *. lia.
Qed.

(** [n] appends in a row, as the unit tests do them. *)
Definition appends (values : list (list Z)) (data : list Z) : list Z :=
  fold_left (fun d value => state_of (append value d)) values data.

(** Running the body of [_skip_to_next_packet] with at most [n] nested
    self-calls; [None] when the [n]-th nested call would call again. *)
Fixpoint passes (n : nat) (data : list Z) : option (list Z) :=
  match skip_pass data with
  | Done d => Some d
  | Again d => match n with
               | O => None
               | S n' => passes n' d
               end
  end.

(** The buffer invariant of the data model: the buffer is empty, or the
    single byte [0xC5], or starts with [0xC5 0xC3]. *)
Definition invariant (data : list Z) : Prop :=
  match data with
  | [] => True
  | [b] => b = PACKET_SIGNATURE_HI
  | b0 :: b1 :: _ => b0 = PACKET_SIGNATURE_HI /\ b1 = PACKET_SIGNATURE_LO
  end.

End BinaryPacketBuffer.

(** ** class BinaryProtocol(Protocol) *)

Module BinaryProtocol.

(** The part of [self.factory] that [dataReceived] touches: the packet
    buffer, and the packets handed so far to [factory.packet_received],
    oldest first.  [packet_received] is represented by this record of
    its arguments; its body (decoding a registration when the intent is
    [SystemIntents.Register]) is not part of this model. *)
Record factory : Type := make {
  packet_buffer : list Z;
  received : list BinaryMessage.t
}.

(** The loop [while self.factory.packet_buffer.has_packet() :
    self.factory.packet_received(self.factory.packet_buffer.pop_packet())]. *)
Equations receive_loop (data : list Z) (got : list BinaryMessage.t)
  : outcome factory unit by wf (List.length data) lt :=
  receive_loop data got with inspect (BinaryPacketBuffer.has_packet data) := {
    | exist _ false _ => Returns tt (make data got)
    | exist _ true Hhas with inspect (BinaryPacketBuffer.pop_packet data) := {
      | exist _ (Raises e data') _ => Raises e (make data' got)
      | exist _ (Returns None data') _ => Raises AttributeError (make data' got)
      | exist _ (Returns (Some msg) data') Hpop =>
          receive_loop data' (got ++ [msg]) } }.
Next Obligation. eapply BinaryPacketBuffer.pop_packet_shrinks; eauto. Qed.

Definition dataReceived (data : list Z) (self : factory) : outcome factory unit :=
  match BinaryPacketBuffer.append data (packet_buffer self) with
  | Returns _ buf => receive_loop buf (received self)
  | Raises e buf => Raises e (make buf (received self))
  end.

(** Chunks arriving one after the other; the first exception ends the
    delivery. *)
Fixpoint feed (chunks : list (list Z)) (self : factory) : outcome factory unit :=
  match chunks with
  | [] => Returns tt self
  | chunk :: chunks' =>
      match dataReceived chunk self with
      | Returns _ self' => feed chunks' self'
      | Raises e self' => Raises e self'
      end
  end.

(** The byte stream of a sequence of frames: their encodings, concatenated. *)
Fixpoint to_binary_all (frames : list BinaryMessage.t) : result (list Z) :=
  match frames with
  | [] => Ok []
  | f :: frames' =>
      bs <- BinaryMessage.to_binary f ;;
      rest <- to_binary_all frames' ;;
      Ok (bs ++ rest)
  end.

(** [connectionMade]: [pkt = RegistrationRequest()], then
    [self.transport.write(pkt.to_binary())]; the state is what has been
    written to the transport, oldest first. *)
Definition connectionMade (transport : list (list Z)) : outcome (list (list Z)) unit :=
  match AbstractBinaryMessage.to_binary RegistrationRequest.getters with
  | Ok bs => Returns tt (transport ++ [bs])
  | Raise e => Raises e transport
  end.

End BinaryProtocol.

(** ** class DataTypes(Values) *)

Module DataTypes.

Inductive t : Type :=
| Null | Byte | Word | Dword | Qword
| SignedByte | SignedWord | SignedDword | SignedQword
| Single | Double | Boolean | Guid | String | Binary | Array.

(** The [ValueConstant] of each name. *)
Definition value (c : t) : Z :=
  match c with
  | Null => 0 | Byte => 1 | Word => 2 | Dword => 3 | Qword => 4
  | SignedByte => 5 | SignedWord => 6 | SignedDword => 7 | SignedQword => 8
  | Single => 9 | Double => 10 | Boolean => 11 | Guid => 12 | String => 13
  | Binary => 14 | Array => 15
  end.

Definition eqb (a b : t) : bool := value a =? value b.

End DataTypes.

(** ** Property descriptors, classes and Python values *)

(** A member of a [__binary_struct__]: [binary_property(type, ...)] or
    [array_binary_property(element_type, ...)], whose [type] is
    [DataTypes.Array] and whose [element_type] is a class.  Of a class the
    formatter uses the [__binary_struct__] and, in [_deserialize], the call
    without arguments: [required] is the number of parameters of [__init__],
    [self] apart, that have no default (three for [Equipment] and for
    [Notification], none for the other classes of the module).  An
    [__init__] that is given its arguments is taken to return, as those of
    the module do. *)
Inductive prop : Type :=
| binary_property (type : DataTypes.t)
| array_binary_property (element_type : class)
with class : Type :=
| new_class (required : nat) (binary_struct : list prop).

Definition required (type : class) : nat :=
  match type with
  | new_class required _ => required
  end.

Definition __binary_struct__ (type : class) : list prop :=
  match type with
  | new_class _ binary_struct => binary_struct
  end.

Definition prop_type (p : prop) : DataTypes.t :=
  match p with
  | binary_property type => type
  | array_binary_property _ => DataTypes.Array
  end.

(** [type()]: [TypeError] when [__init__] has a parameter without default. *)
Definition instantiate (type : class) : result unit :=
  match required type with
  | O => Ok tt
  | S _ => Raise TypeError
  end.

(** What the model takes from the interpreter as given: floats ([float(n)],
    [bool(x)], and their [struct] formats ['f'] and ['d']), whether a byte
    string decodes as UTF-8, and the number of characters of the text it
    decodes to. *)
Class Builtins : Type := {
  float : Type;
  float_of_int : Z -> float;
  float_nonzero : float -> bool;
  pack_f : float -> result (list Z);
  unpack_f : list Z -> float;
  pack_d : float -> result (list Z);
  unpack_d : list Z -> float;
  utf8_valid : list Z -> bool;
  unicode_len : list Z -> Z
}.

Section Values.

Context {builtins : Builtins}.

(** The values the formatter meets.  [VBytes] is a byte string or a
    sequence of small integers ([str], [bytearray], [array('B')]).  [VText]
    is a [unicode] text, what [decode('utf-8')] returns: it is represented
    by the bytes it was decoded from.  [VObject] is an instance of a class
    with a [__binary_struct__]: its properties, each with what its getter
    returns. *)
Inductive value : Type :=
| VNone
| VInt (n : Z)
| VBool (b : bool)
| VFloat (x : float)
| VUuid (int : Z)
| VBytes (bs : list Z)
| VText (utf8 : list Z)
| VList (items : list value)
| VObject (members : list (prop * value)).

(** [bool(v)] *)
Definition truth (v : value) : bool :=
  match v with
  | VNone => false
  | VInt n => negb (n =? 0)
  | VBool b => b
  | VFloat x => float_nonzero x
  | VUuid _ => true
  | VBytes bs => match bs with [] => false | _ => true end
  | VText utf8 => match utf8 with [] => false | _ => true end
  | VList items => match items with [] => false | _ => true end
  | VObject _ => true
  end.

(** An [int] or a [bool] used as an integer. *)
Definition int_of (v : value) : option Z :=
  match v with
  | VInt n => Some n
  | VBool b => Some (Z.b2z b)
  | _ => None
  end.

(** The integers of a sequence ([TypeError] when [v] is not one: the
    items of a text are its characters, not integers). *)
Definition ints_of (v : value) : result (list Z) :=
  match v with
  | VBytes bs => Ok bs
  | VText utf8 => match utf8 with [] => Ok [] | _ => Raise TypeError end
  | VList items =>
      fold_right (fun it acc =>
                    match int_of it with
                    | Some n => ns <- acc ;; Ok (n :: ns)
                    | None => Raise TypeError
                    end) (Ok []) items
  | _ => Raise TypeError
  end.

(** [len(v)] *)
Definition len_of (v : value) : result Z :=
  match v with
  | VBytes bs => Ok (len bs)
  | VText utf8 => Ok (match utf8 with [] => 0 | _ => unicode_len utf8 end)
  | VList items => Ok (len items)
  | _ => Raise TypeError
  end.

(** [array.array('B', v)] *)
Definition array_B (v : value) : result (list Z) :=
  ns <- ints_of v ;;
  if forallb is_byte ns then Ok ns else Raise OverflowError.

(** [result.extend(v)] on a [bytearray]: the bytes added. *)
Definition extend_with (v : value) : result (list Z) :=
  ns <- ints_of v ;;
  if forallb is_byte ns then Ok ns else Raise ValueError.

End Values.

(** ** The struct module *)

Module struct.

Inductive format : Type :=
| fmt_B | fmt_H | fmt_I | fmt_Q
| fmt_b | fmt_h | fmt_i | fmt_q
| fmt_f | fmt_d | fmt_bool.

Definition calcsize (fmt : format) : Z :=
  match fmt with
  | fmt_B | fmt_b | fmt_bool => 1
  | fmt_H | fmt_h => 2
  | fmt_I | fmt_i | fmt_f => 4
  | fmt_Q | fmt_q | fmt_d => 8
  end.

(** Little-endian bytes of an integer (two's complement for a negative
    one) and back. *)
Fixpoint le_bytes (size : nat) (n : Z) : list Z :=
  match size with
  | O => []
  | S size' => n mod 256 :: le_bytes size' (n / 256)
  end.

Fixpoint le_value (bs : list Z) : Z :=
  match bs with
  | [] => 0
  | b :: bs' => b + 256 * le_value bs'
  end.

Section WithBuiltins.

Context {builtins : Builtins}.

Definition pack_int (signed : bool) (size : Z) (v : value) : result (list Z) :=
  match int_of v with
  | Some n =>
      let lo := if signed then - 2 ^ (8 * size - 1) else 0 in
      let hi := if signed then 2 ^ (8 * size - 1) else 2 ^ (8 * size) in
      if (lo <=? n) && (n <? hi) then Ok (le_bytes (Z.to_nat size) n)
      else Raise struct_error
  | None => Raise struct_error
  end.

Definition pack_float (single : bool) (v : value) : result (list Z) :=
  let pack_x := if single then pack_f else pack_d in
  match v with
  | VFloat x => pack_x x
  | VInt n => pack_x (float_of_int n)
  | VBool b => pack_x (float_of_int (Z.b2z b))
  | _ => Raise struct_error
  end.

(** [struct.pack(fmt, v)] for the one-item formats of the formatter. *)
Definition pack (fmt : format) (v : value) : result (list Z) :=
  match fmt with
  | fmt_B | fmt_H | fmt_I | fmt_Q => pack_int false (calcsize fmt) v
  | fmt_b | fmt_h | fmt_i | fmt_q => pack_int true (calcsize fmt) v
  | fmt_f => pack_float true v
  | fmt_d => pack_float false v
  | fmt_bool => Ok [Z.b2z (truth v)]
  end.

Definition unpack_int (signed : bool) (size : Z) (bs : list Z) : value :=
  let u := le_value bs in
  if signed && (2 ^ (8 * size - 1) <=? u) then VInt (u - 2 ^ (8 * size)) else VInt u.

(** [struct.unpack_from(fmt, data, offset)[0]]: [struct.error] when fewer
    than [calcsize(fmt)] bytes follow [offset]. *)
Definition unpack_from (fmt : format) (data : list Z) (offset : Z) : result value :=
  let size := calcsize fmt in
  if len data - offset <? size then Raise struct_error else
  let bs := slice data offset (offset + size) in
  Ok match fmt with
     | fmt_B | fmt_H | fmt_I | fmt_Q => unpack_int false size bs
     | fmt_b | fmt_h | fmt_i | fmt_q => unpack_int true size bs
     | fmt_f => VFloat (unpack_f bs)
     | fmt_d => VFloat (unpack_d bs)
     | fmt_bool => VBool (negb (item bs 0 =? 0))
     end.

(** [struct.unpack_from('B' * n, data, offset)] *)
Definition unpack_bytes_from (n : Z) (data : list Z) (offset : Z) : result (list Z) :=
  if len data - offset <? n then Raise struct_error
  else Ok (slice data offset (offset + n)).

End WithBuiltins.

End struct.

(** ** The uuid module *)

Module uuid.

(** [UUID(fields=(time_low, time_mid, time_hi_version, clock_seq_hi_variant,
    clock_seq_low, node)).int] *)
Definition UUID_fields
  (time_low time_mid time_hi_version clock_seq_hi_variant clock_seq_low node : Z)
  : result Z :=
  if negb ((0 <=? time_low) && (time_low <? Z.shiftl 1 32)) then Raise ValueError else
  if negb ((0 <=? time_mid) && (time_mid <? Z.shiftl 1 16)) then Raise ValueError else
  if negb ((0 <=? time_hi_version) && (time_hi_version <? Z.shiftl 1 16))
  then Raise ValueError else
  if negb ((0 <=? clock_seq_hi_variant) && (clock_seq_hi_variant <? Z.shiftl 1 8))
  then Raise ValueError else
  if negb ((0 <=? clock_seq_low) && (clock_seq_low <? Z.shiftl 1 8))
  then Raise ValueError else
  if negb ((0 <=? node) && (node <? Z.shiftl 1 48)) then Raise ValueError else
  let clock_seq := Z.lor (Z.shiftl clock_seq_hi_variant 8) clock_seq_low in
  Ok (Z.lor (Z.lor (Z.lor (Z.lor (Z.shiftl time_low 96) (Z.shiftl time_mid 80))
                          (Z.shiftl time_hi_version 64))
                   (Z.shiftl clock_seq 48))
            node).

(** [UUID(bytes=bs).int]: the bytes read as one big-endian number. *)
Definition UUID_bytes (bs : list Z) : Z :=
  fold_left (fun acc b => acc * 256 + b) bs 0.

(** The [bytes] property: [for shift in range(0, 128, 8): bytes =
    chr((self.int >> shift) & 0xff) + bytes]. *)
Definition bytes (int : Z) : list Z :=
  fold_left (fun bytes shift => Z.land (Z.shiftr int shift) 0xff :: bytes)
            (map (fun i => 8 * Z.of_nat i) (seq 0 16)) [].

End uuid.

(** ** Names and exception classes of the module *)

(** The names bound at module level in [binary.py] (imports, constants,
    classes and functions). *)
Definition module_names : list String.string :=
  [ "unittest"; "struct"; "array"; "uuid"; "Interface"; "implements"; "Attribute";
    "interfaces"; "defer"; "twisted"; "ServerFactory"; "Protocol"; "Values";
    "ValueConstant";
    "BinaryMessageError"; "IncompletePacketError"; "InvalidPacketLengthError";
    "InvalidSignatureError"; "InvalidCRCError"; "SystemIntents";
    "PACKET_SIGNATURE"; "PACKET_SIGNATURE_HI"; "PACKET_SIGNATURE_LO";
    "PACKET_OFFSET_SIGN_MSB"; "PACKET_OFFSET_SIGN_LSB"; "PACKET_OFFSET_VERSION";
    "PACKET_OFFSET_FLAGS"; "PACKET_OFFSET_LEN_LSB"; "PACKET_OFFSET_LEN_MSB";
    "PACKET_OFFSET_INTENT_LSB"; "PACKET_OFFSET_INTENT_MSB"; "PACKET_OFFSET_DATA";
    "EMPTY_PACKET_LENGTH"; "DataTypes"; "AbstractBinaryMessage"; "BinaryMessage";
    "RegistrationRequest"; "BinaryPacketBuffer"; "AbstractBinaryProperty";
    "binary_property"; "array_binary_property"; "BinaryFormatterError";
    "BinarySerializationError"; "BinaryDeserializationError"; "BinaryFormatter";
    "define_accessors"; "Parameters"; "Equipment"; "Notification"; "Command";
    "DeviceRegistration"; "BinaryProtocol"; "AutoClassFactory";
    "autoclass_update_properties"; "BinaryFactory"; "SerialPortAddress";
    "SerialPortEndpoint"; "TestBinaryMessage"; "BinaryPacketBufferTest";
    "_SubObject"; "_TestObject"; "BinaryFormatterTest"; "AutoClassFactoryTest" ]%string.

(** Evaluating a global name: [NameError] when the module does not bind it. *)
Definition global (name : String.string) : result unit :=
  if existsb (String.eqb name) module_names then Ok tt else Raise (NameError name).

(** [BinaryFormatterError.__init__]:
    [super(BinarySerializerError, self).__init__(msg)]. *)
Definition BinaryFormatterError__init__ : result unit :=
  global "BinarySerializerError"%string.

(** [BinarySerializationError.__init__]:
    [super(BinarySerializationError, self).__init__(...)], which runs
    [BinaryFormatterError.__init__]. *)
Definition BinarySerializationError__init__ : result unit :=
  _ <- global "BinarySerializationError"%string ;;
  BinaryFormatterError__init__.

(** The expression [BinarySerializationError(reason)]. *)
Definition new_BinarySerializationError : result exn :=
  _ <- global "BinarySerializationError"%string ;;
  _ <- BinarySerializationError__init__ ;;
  Ok BinarySerializationError.

(** The expression [BinarySerializerError(reason)] of the deserializer
    (were the name bound, an error of the deserializer). *)
Definition new_BinarySerializerError : result exn :=
  _ <- global "BinarySerializerError"%string ;;
  Ok BinaryDeserializationError.

(** [raise e] where [e] is an expression that builds the exception. *)
Definition raise_new {A} (e : result exn) : result A :=
  match e with
  | Ok e => Raise e
  | Raise e' => Raise e'
  end.

(** ** class BinaryFormatter *)

Module BinaryFormatter.

Section WithBuiltins.

Context {builtins : Builtins}.

Definition __basic_type_map__ (type : DataTypes.t) : option (struct.format * Z) :=
  match type with
  | DataTypes.Byte => Some (struct.fmt_B, 1)
  | DataTypes.Word => Some (struct.fmt_H, 2)
  | DataTypes.Dword => Some (struct.fmt_I, 4)
  | DataTypes.Qword => Some (struct.fmt_Q, 8)
  | DataTypes.SignedByte => Some (struct.fmt_b, 1)
  | DataTypes.SignedWord => Some (struct.fmt_h, 2)
  | DataTypes.SignedDword => Some (struct.fmt_i, 4)
  | DataTypes.SignedQword => Some (struct.fmt_q, 8)
  | DataTypes.Single => Some (struct.fmt_f, 4)
  | DataTypes.Double => Some (struct.fmt_d, 8)
  | DataTypes.Boolean => Some (struct.fmt_bool, 1)
  | _ => None
  end.

(** The body of [for prop in obj.__binary_struct__] in [serialize]: the
    bytes one property adds to [result]; [x] is [prop.__get__(obj)] and
    [serialize] the recursive call. *)
Definition serialize_property
  (serialize : value -> result (list Z)) (p : prop) (x : value) : result (list Z) :=
  let type := prop_type p in
  if DataTypes.eqb type DataTypes.Null then Ok []
  else match __basic_type_map__ type with
  | Some (packstr, _) => struct.pack packstr x
  | None =>
  if DataTypes.eqb type DataTypes.Guid then
    guid <- match x with
            | VUuid int => Ok (VBytes (uuid.bytes int))
            | _ => n <- len_of x ;;
                   if negb (n =? 16) then raise_new new_BinarySerializationError
                   else Ok x
            end ;;
    extend_with guid
  else if DataTypes.eqb type DataTypes.String then
    bstr <- array_B x ;;
    let bstr_len := len bstr in
    hdr <- struct.pack struct.fmt_H (VInt bstr_len) ;;
    Ok (hdr ++ bstr)
  else if DataTypes.eqb type DataTypes.Binary then
    str_len <- len_of x ;;
    hdr <- struct.pack struct.fmt_H (VInt str_len) ;;
    body <- extend_with x ;;
    Ok (hdr ++ body)
  else if DataTypes.eqb type DataTypes.Array then
    serialize x
  else
    _ <- new_BinarySerializationError ;; Ok []
  end.

(** [for ... in ...: result.extend(...)]: the bytes added, in order. *)
Definition extend_all {A} (f : A -> result (list Z)) : list A -> result (list Z) :=
  fix go (l : list A) : result (list Z) :=
    match l with
    | [] => Ok []
    | a :: l' => bs <- f a ;; rest <- go l' ;; Ok (bs ++ rest)
    end.

Fixpoint serialize (obj : value) : result (list Z) :=
  match obj with
  | VList items =>
      let array_len := len items in
      hdr <- struct.pack struct.fmt_H (VInt array_len) ;;
      body <- extend_all serialize items ;;
      Ok (hdr ++ body)
  | VObject members =>
      extend_all (fun m => serialize_property serialize (fst m) (snd m)) members
  | _ => raise_new new_BinarySerializationError
  end.

(** Reading a sequence of things one after the other, threading [offset]. *)
Definition read_all {A B} (f : A -> Z -> result (B * Z))
  : list A -> Z -> result (list B * Z) :=
  fix go (l : list A) (offset : Z) : result (list B * Z) :=
    match l with
    | [] => Ok ([], offset)
    | a :: l' =>
        r <- f a offset ;;
        rs <- go l' (snd r) ;;
        Ok (fst r :: fst rs, snd rs)
    end.

(** [for i in range(0, n): subobj, offset = ...; value.append(subobj)] *)
Definition read_times {B} (f : Z -> result (B * Z))
  : nat -> Z -> result (list B * Z) :=
  fix go (n : nat) (offset : Z) : result (list B * Z) :=
    match n with
    | O => Ok ([], offset)
    | S n' =>
        r <- f offset ;;
        rs <- go n' (snd r) ;;
        Ok (fst r :: fst rs, snd rs)
    end.

(** The body of [for prop in obj.__binary_struct__] in [_deserialize]: the
    value handed to [prop.__set__] ([VNone] when the setter is not called)
    and the new [offset].  For an array the inner [_deserialize] is written
    out: it calls the element class, then reads its properties. *)
Fixpoint deserialize_property (data : list Z) (p : prop) (offset : Z)
  : result (value * Z) :=
  match p with
  | binary_property type =>
      if DataTypes.eqb type DataTypes.Null then Ok (VNone, offset)
      else match __basic_type_map__ type with
      | Some (packstr, datalen) =>
          value <- struct.unpack_from packstr data offset ;;
          Ok (value, offset + datalen)
      | None =>
      if DataTypes.eqb type DataTypes.Guid then
        value <- struct.unpack_bytes_from 16 data offset ;;
        let v := item value in
        int <- uuid.UUID_fields
                 (Z.lor (Z.lor (Z.lor (Z.shiftl (v 0) 24) (Z.shiftl (v 1) 16))
                               (Z.shiftl (v 2) 8)) (v 3))
                 (Z.lor (Z.shiftl (v 4) 8) (v 5))
                 (Z.lor (Z.shiftl (v 6) 8) (v 7))
                 (v 8) (v 9)
                 (Z.lor (Z.lor (Z.lor (Z.lor (Z.lor (Z.shiftl (v 10) 40)
                                                    (Z.shiftl (v 11) 32))
                                             (Z.shiftl (v 12) 24))
                                      (Z.shiftl (v 13) 16))
                               (Z.shiftl (v 14) 8)) (v 15)) ;;
        Ok (VUuid int, offset + 16)
      else if DataTypes.eqb type DataTypes.String then
        strlen <- struct.unpack_from struct.fmt_H data offset ;;
        let strlen := match strlen with VInt n => n | _ => 0 end in
        let offset := offset + 2 in
        let bstr := slice data offset (offset + strlen) in
        let offset := offset + strlen in
        if utf8_valid bstr then Ok (VText bstr, offset) else Raise UnicodeDecodeError
      else if DataTypes.eqb type DataTypes.Binary then
        binlen <- struct.unpack_from struct.fmt_H data offset ;;
        let binlen := match binlen with VInt n => n | _ => 0 end in
        let offset := offset + 2 in
        let bin := slice data offset (offset + binlen) in
        let offset := offset + binlen in
        Ok (VBytes bin, offset)
      else
        raise_new new_BinarySerializerError
      end
  | array_binary_property element_type =>
      arrlen <- struct.unpack_from struct.fmt_H data offset ;;
      let arrlen := match arrlen with VInt n => n | _ => 0 end in
      let offset := offset + 2 in
      r <- read_times
             (fun offset =>
                _ <- instantiate element_type ;;
                r <- read_all (fun q offset =>
                                 r <- deserialize_property data q offset ;;
                                 Ok ((q, fst r), snd r))
                              (__binary_struct__ element_type) offset ;;
                Ok (VObject (fst r), snd r))
             (Z.to_nat arrlen) offset ;;
      Ok (VList (fst r), snd r)
  end.

(** The inner [_deserialize(data, type, offset)]: [obj = type()], then the
    properties of [obj.__binary_struct__]; the object and the offset behind
    it. *)
Definition _deserialize (data : list Z) (type : class) (offset : Z)
  : result (value * Z) :=
  _ <- instantiate type ;;
  r <- read_all (fun q offset =>
                   r <- deserialize_property data q offset ;;
                   Ok ((q, fst r), snd r))
                (__binary_struct__ type) offset ;;
  Ok (VObject (fst r), snd r).

Definition deserialize (data : value) (type : class) : result value :=
  data <- array_B data ;;
  r <- _deserialize data type 0 ;;
  Ok (fst r).

End WithBuiltins.

End BinaryFormatter.

(** ** The registration payload *)

(** Each class is given as the record of its attributes and, as [cls], as
    the formatter sees it: the arity of [__init__] and the
    [__binary_struct__].  A name is a [str], or a [unicode] text of ASCII
    characters, which compares, hashes and formats like that [str]. *)

Module Parameters.

(** What the attribute [type] holds: a constant of [DataTypes], as in
    [AutoClassFactoryTest], or an integer, as [deserialize] sets it from
    the byte it reads for this [Byte] property. *)
Inductive type_attr : Type :=
| type_constant (c : DataTypes.t)
| type_int (n : Z).

Record t : Type := make { type : type_attr; name : String.string }.

(** [x == c] for a constant [c] of [DataTypes]: a [ValueConstant] is equal
    to itself only, no integer is equal to one. *)
Definition type_eq (x : type_attr) (c : DataTypes.t) : bool :=
  match x with
  | type_constant c' => DataTypes.eqb c' c
  | type_int _ => false
  end.

(** [__init__(self, type = DataTypes.Null, name = '')] *)
Definition cls : class :=
  new_class 0 [binary_property DataTypes.Byte; binary_property DataTypes.String].

End Parameters.

Module Equipment.

Record t : Type := make {
  name : String.string; code : String.string; typename : String.string }.

(** [__init__(self, name, code, typename)] *)
Definition cls : class :=
  new_class 3 [ binary_property DataTypes.String; binary_property DataTypes.String;
                binary_property DataTypes.String ].

End Equipment.

Module Notification.

Record t : Type := make {
  intent : Z; name : String.string; parameters : list Parameters.t }.

(** [__init__(self, intent, name, parameters)] *)
Definition cls : class :=
  new_class 3 [ binary_property DataTypes.Word; binary_property DataTypes.String;
                array_binary_property Parameters.cls ].

End Notification.

Module Command.

Record t : Type := make {
  intent : Z; name : String.string; parameters : list Parameters.t }.

(** [__init__(self, intent = 0, name = '', parameters = [])] *)
Definition cls : class :=
  new_class 0 [ binary_property DataTypes.Word; binary_property DataTypes.String;
                array_binary_property Parameters.cls ].

End Command.

Module DeviceRegistration.

Record t : Type := make {
  device_id : Z;
  device_key : String.string;
  device_name : String.string;
  device_class_name : String.string;
  device_class_version : String.string;
  equipment : list Equipment.t;
  notification : list Notification.t;
  commands : list Command.t
}.

(** [__init__(self)] *)
Definition cls : class :=
  new_class 0 [ binary_property DataTypes.Guid; binary_property DataTypes.String;
                binary_property DataTypes.String; binary_property DataTypes.String;
                binary_property DataTypes.String;
                array_binary_property Equipment.cls;
                array_binary_property Notification.cls;
                array_binary_property Command.cls ].

End DeviceRegistration.

(** ** class AutoClassFactory *)

Module AutoClassFactory.

(** [binary_property(paramtype, fget = getter, fset = setter)], whose
    accessors read and write the attribute [fieldname]. *)
Record property : Type := make_property {
  type : Parameters.type_attr;
  fieldname : String.string
}.

(** What the dictionary [members] holds under a name. *)
Inductive member : Type :=
| member_None
| member_property (p : property)
| member_list (props : list property).

(** [members[name]] *)
Definition getitem (name : String.string) (members : list (String.string * member))
  : option member :=
  match find (fun kv => String.eqb name (fst kv)) members with
  | Some kv => Some (snd kv)
  | None => None
  end.

(** [members[name] = x], on a dictionary kept in the order its keys were
    first set. *)
Definition setitem (name : String.string) (x : member)
  (members : list (String.string * member)) : list (String.string * member) :=
  if existsb (fun kv => String.eqb name (fst kv)) members
  then map (fun kv => if String.eqb name (fst kv) then (fst kv, x) else kv) members
  else members ++ [(name, x)].

(** A class made by [type(name, (object,), members)]: its name and its
    dictionary. *)
Record autoclass : Type := make {
  __name__ : String.string;
  __dict__ : list (String.string * member)
}.

Definition __binary_struct__ (cls : autoclass) : option member :=
  getitem "__binary_struct__" (__dict__ cls).

(** [type(name, (object,), members)]: [TypeError] when [members] binds
    [__slots__], which must be a sequence of names and is here [None] or a
    property. *)
Definition type_call (name : String.string) (members : list (String.string * member))
  : result autoclass :=
  match getitem "__slots__" members with
  | Some _ => Raise TypeError
  | None => Ok (make name members)
  end.

(** [self._generate_binary_property(paramtype, fieldname)] *)
Definition _generate_binary_property
  (paramtype : Parameters.type_attr) (fieldname : String.string) : property :=
  make_property paramtype fieldname.

(** The loop [for param in command.parameters] of [generate], from the
    [members] built so far.  [members['__binary_struct__'].append(prop)]
    needs the list to be there still: a parameter name may have put a
    property or [None] in its place. *)
Fixpoint generate_members (parameters : list Parameters.t)
  (members : list (String.string * member))
  : result (list (String.string * member)) :=
  match parameters with
  | [] => Ok members
  | param :: parameters' =>
      let fieldname := String.append "_" (Parameters.name param) in
      let paramtype := Parameters.type param in
      if Parameters.type_eq paramtype DataTypes.Array then Raise NotImplementedError
      else
        let members := setitem fieldname member_None members in
        let prop := _generate_binary_property (Parameters.type param) fieldname in
        let members := setitem (Parameters.name param) (member_property prop) members in
        match getitem "__binary_struct__" members with
        | Some (member_list props) =>
            generate_members parameters'
              (setitem "__binary_struct__" (member_list (props ++ [prop])) members)
        | Some _ => Raise AttributeError
        | None => Raise KeyError
        end
  end.

Definition generate (command : Command.t) : result autoclass :=
  members <- generate_members (Command.parameters command)
               [("__binary_struct__"%string, member_list [])] ;;
  type_call (String.append (Command.name command) "Class") members.

End AutoClassFactory.

(** ** class BinaryFactory(ServerFactory) *)

Module BinaryFactory.

(** [self.command_map], a dict in insertion order, and whether the
    [_registration_request] deferred has been called back. *)
Record t : Type := make {
  command_map : list (String.string * AutoClassFactory.autoclass);
  registration_called : bool
}.

(** [__init__]: [self.packet_buffer = BinaryPacketBuffer()],
    [self.command_map = dict()], [self._registration_request = Deferred()];
    the module imports [defer], not [Deferred]. *)
Definition __init__ : result (list Z * t) :=
  _ <- global "BinaryPacketBuffer"%string ;;
  _ <- global "Deferred"%string ;;
  Ok ([], make [] false).

(** [name in self.command_map] *)
Definition contains (name : String.string)
  (command_map : list (String.string * AutoClassFactory.autoclass)) : bool :=
  existsb (fun kv => String.eqb name (fst kv)) command_map.

(** [self.command_map[name] = cls] *)
Definition setitem (name : String.string) (cls : AutoClassFactory.autoclass)
  (command_map : list (String.string * AutoClassFactory.autoclass))
  : list (String.string * AutoClassFactory.autoclass) :=
  if contains name command_map
  then map (fun kv => if String.eqb name (fst kv) then (fst kv, cls) else kv) command_map
  else command_map ++ [(name, cls)].

Definition register_command_map (command_name : String.string)
  (binary_class : AutoClassFactory.autoclass) (self : t) : outcome t unit :=
  Returns tt (make (setitem command_name binary_class (command_map self))
                   (registration_called self)).

(** The loop [for command in reg.commands] of [handle_registration_request]. *)
Fixpoint register_commands (commands : list Command.t) (self : t) : outcome t unit :=
  match commands with
  | [] => Returns tt self
  | command :: commands' =>
      if negb (contains (Command.name command) (command_map self)) then
        match AutoClassFactory.generate command with
        | Ok cls =>
            register_commands commands'
              (make (setitem (Command.name command) cls (command_map self))
                    (registration_called self))
        | Raise e => Raises e self
        end
      else register_commands commands' self
  end.

Definition handle_registration_request (reg : DeviceRegistration.t) (self : t)
  : outcome t unit :=
  match register_commands (DeviceRegistration.commands reg) self with
  | Returns _ self' =>
      (* self._registration_request.callback(None) *)
      if registration_called self' then Raises AlreadyCalledError self'
      else Returns tt (make (command_map self') true)
  | Raises e self' => Raises e self'
  end.

End BinaryFactory.

(** * Vocabulary of the properties *)

(** A sequence of integers in [range(256)]. *)
Abbreviation bytes := (Forall (fun b : Z => 0 <= b < 256)).

(** ** Frames and streams *)

(** The list [to_binary] hands to [bytearray]. *)
Definition wire (f : BinaryMessage.t) : list Z :=
  [ Z.land (Z.shiftr (Z.land (BinaryMessage.signature f) 0xff00) 8) 0xff;
    Z.land (BinaryMessage.signature f) 0xff;
    Z.land (BinaryMessage.version f) 0xff;
    Z.land (BinaryMessage.flags f) 0xff;
    Z.land (BinaryMessage.length f) 0xff; Z.shiftr (Z.land (BinaryMessage.length f) 0xff00) 8;
    Z.land (BinaryMessage.intent f) 0xff; Z.shiftr (Z.land (BinaryMessage.intent f) 0xff00) 8 ]
  ++ BinaryMessage.data f ++ [ BinaryMessage.checksum f ].

(** The stream of a sequence of frames. *)
Definition wires (fs : list BinaryMessage.t) : list Z := List.concat (map wire fs).

(** [partial p fs]: the buffer [p] stops inside the first frame of [fs]
    (it is empty when there is no frame left). *)
Definition partial (p : list Z) (fs : list BinaryMessage.t) : Prop :=
  match fs with
  | [] => p = []
  | f :: _ => len p < len (wire f)
  end.

(** The frame of the unit tests:
    [BinaryMessage(PACKET_SIGNATURE, 2, 3, 4, bytearray('123'))]. *)
Definition binmsg : BinaryMessage.t :=
  BinaryMessage.make PACKET_SIGNATURE 2 3 4 [0x31; 0x32; 0x33].

(** The frame with every header field reduced to its width on the wire. *)
Definition masked (f : BinaryMessage.t) : BinaryMessage.t :=
  BinaryMessage.make (Z.land (BinaryMessage.signature f) 0xffff)
                     (Z.land (BinaryMessage.version f) 0xff)
                     (Z.land (BinaryMessage.flags f) 0xff)
                     (Z.land (BinaryMessage.intent f) 0xffff)
                     (BinaryMessage.data f).

(** Whether the two signature bytes occur next to each other in [l]. *)
Fixpoint has_signature (l : list Z) : bool :=
  match l with
  | [] => false
  | a :: l' =>
      match l' with
      | b :: _ => (a =? PACKET_SIGNATURE_HI) && (b =? PACKET_SIGNATURE_LO) || has_signature l'
      | [] => false
      end
  end.

(** [carves data frames rest]: taking [frames] off [data] leaves [rest].
    Each frame is taken, as its wire form, from the head of what
    resynchronisation leaves of the data still there, and [rest] is what
    resynchronisation leaves of the data behind the last frame: no byte is
    dropped but by [_skip_to_next_packet]. *)
Inductive carves : list Z -> list BinaryMessage.t -> list Z -> Prop :=
| carves_rest data : carves data [] (BinaryPacketBuffer._skip_to_next_packet data)
| carves_frame f data data' frames rest :
    BinaryMessage.wellformed f ->
    BinaryPacketBuffer._skip_to_next_packet data = wire f ++ data' ->
    carves data' frames rest -> carves data (f :: frames) rest.

(** ** Instances conformant to a class *)

Section Conformance.

Context {builtins : Builtins}.

(** The integers of a [struct] integer format. *)
Definition int_in (signed : bool) (size : Z) (n : Z) : Prop :=
  if signed then - 2 ^ (8 * size - 1) <= n < 2 ^ (8 * size - 1)
  else 0 <= n < 2 ^ (8 * size).

(** The values of a property of type [type] declared with
    [binary_property]: an integer in the range of the type, any float, a
    boolean, a Guid as a [uuid.UUID] or as a sequence of sixteen bytes, a
    String as a byte string of at most 65535 bytes that is valid UTF-8, a
    Binary as at most 65535 bytes.  A Null property, which the formatter
    neither reads nor writes, holds [None]. *)
Definition conforms_scalar (type : DataTypes.t) (x : value) : Prop :=
  match type with
  | DataTypes.Null => x = VNone
  | DataTypes.Byte => exists n, x = VInt n /\ int_in false 1 n
  | DataTypes.Word => exists n, x = VInt n /\ int_in false 2 n
  | DataTypes.Dword => exists n, x = VInt n /\ int_in false 4 n
  | DataTypes.Qword => exists n, x = VInt n /\ int_in false 8 n
  | DataTypes.SignedByte => exists n, x = VInt n /\ int_in true 1 n
  | DataTypes.SignedWord => exists n, x = VInt n /\ int_in true 2 n
  | DataTypes.SignedDword => exists n, x = VInt n /\ int_in true 4 n
  | DataTypes.SignedQword => exists n, x = VInt n /\ int_in true 8 n
  | DataTypes.Single => exists f, x = VFloat f
  | DataTypes.Double => exists f, x = VFloat f
  | DataTypes.Boolean => exists b, x = VBool b
  | DataTypes.Guid =>
      (exists n, x = VUuid n /\ 0 <= n < 2 ^ 128) \/
      (exists bs, x = VBytes bs /\ len bs = 16 /\ bytes bs)
  | DataTypes.String =>
      exists bs, x = VBytes bs /\ len bs <= 65535 /\ bytes bs /\ utf8_valid bs = true
  | DataTypes.Binary => exists bs, x = VBytes bs /\ len bs <= 65535 /\ bytes bs
  | DataTypes.Array => False
  end.

(** [conforms S v]: [v] is an instance of the class [S], every property
    holding a value of its type; an array holds at most 65535 instances of
    its element class. *)
Inductive conforms_prop : prop -> value -> Prop :=
| conforms_binary type x :
    conforms_scalar type x ->
    conforms_prop (binary_property type) x
| conforms_array element_type items :
    len items <= 65535 ->
    conforms_items element_type items ->
    conforms_prop (array_binary_property element_type) (VList items)
with conforms_items : class -> list value -> Prop :=
| conforms_items_nil element_type : conforms_items element_type []
| conforms_items_cons element_type it items :
    conforms element_type it ->
    conforms_items element_type items ->
    conforms_items element_type (it :: items)
with conforms : class -> value -> Prop :=
| conforms_object required members :
    conforms_members members ->
    conforms (new_class required (map fst members)) (VObject members)
with conforms_members : list (prop * value) -> Prop :=
| conforms_members_nil : conforms_members []
| conforms_members_cons p x members :
    conforms_prop p x ->
    conforms_members members ->
    conforms_members ((p, x) :: members).

Scheme conforms_prop_min := Minimality for conforms_prop Sort Prop
  with conforms_items_min := Minimality for conforms_items Sort Prop
  with conforms_min := Minimality for conforms Sort Prop
  with conforms_members_min := Minimality for conforms_members Sort Prop.

Combined Scheme conforms_mutual
  from conforms_prop_min, conforms_items_min, conforms_min, conforms_members_min.

(** A Guid as the deserializer returns it: the [uuid.UUID] of the sixteen
    bytes. *)
Definition as_uuid (x : value) : value :=
  match x with
  | VBytes bs => VUuid (uuid.UUID_bytes bs)
  | _ => x
  end.

(** A String as the deserializer returns it: the text the bytes encode. *)
Definition as_text (x : value) : value :=
  match x with
  | VBytes bs => VText bs
  | _ => x
  end.

(** [v] as the deserializer returns it: every Guid that is given as
    sixteen bytes replaced by the [uuid.UUID] of these bytes, and every
    String by the text its bytes encode. *)
Fixpoint decoded_form (v : value) : value :=
  match v with
  | VList items => VList (map decoded_form items)
  | VObject members =>
      VObject (map (fun m =>
                      (fst m,
                       if DataTypes.eqb (prop_type (fst m)) DataTypes.Guid
                       then as_uuid (snd m)
                       else if DataTypes.eqb (prop_type (fst m)) DataTypes.String
                       then as_text (snd m)
                       else decoded_form (snd m)))
                   members)
  | _ => v
  end.

Definition member_form (m : prop * value) : prop * value :=
  (fst m,
   if DataTypes.eqb (prop_type (fst m)) DataTypes.Guid
   then as_uuid (snd m)
   else if DataTypes.eqb (prop_type (fst m)) DataTypes.String
   then as_text (snd m)
   else decoded_form (snd m)).

(** How [_deserialize] reads the properties of a class, one after the
    other. *)
Definition read_member (data : list Z) (q : prop) (offset : Z)
  : result ((prop * value) * Z) :=
  r <- BinaryFormatter.deserialize_property data q offset ;; Ok ((q, fst r), snd r).

(** [reads_back p x bs]: wherever the bytes [bs] lie in the data, the
    deserializer reads the property [p] from them as [x] (a Guid as a
    [uuid.UUID], a String as a text) and stops right behind them. *)
Definition reads_back (p : prop) (x : value) (bs : list Z) : Prop :=
  forall pre post,
    BinaryFormatter.deserialize_property (pre ++ bs ++ post) p (len pre)
    = Ok (snd (member_form (p, x)), len pre + len bs).

End Conformance.

(** A property that is not, and whose element class at no depth has, a
    [Single] or a [Double]. *)
Fixpoint float_free (p : prop) : bool :=
  match p with
  | binary_property type =>
      negb (DataTypes.eqb type DataTypes.Single || DataTypes.eqb type DataTypes.Double)
  | array_binary_property element_type =>
      forallb float_free (__binary_struct__ element_type)
  end.

(** A class without [Single] and [Double] properties, at any depth. *)
Definition without_floats (type : class) : bool :=
  forallb float_free (__binary_struct__ type).

(** A property whose element class, if it is an array, and the element
    classes below it can be called without arguments. *)
Fixpoint default_init (p : prop) : bool :=
  match p with
  | binary_property _ => true
  | array_binary_property element_type =>
      (required element_type =? 0)%nat
      && forallb default_init (__binary_struct__ element_type)
  end.

(** A class that [_deserialize] can instantiate, as it can the element
    classes of its arrays at any depth. *)
Definition callable (type : class) : bool :=
  (required type =? 0)%nat && forallb default_init (__binary_struct__ type).

(** Induction on a property and, for an array, on the properties of its
    element class. *)
Section PropInduction.

Variable P : prop -> Prop.
Hypothesis Hscalar : forall type, P (binary_property type).
Hypothesis Harray :
  forall element_type,
    Forall P (__binary_struct__ element_type) -> P (array_binary_property element_type).

Fixpoint prop_nested_ind (p : prop) : P p :=
  match p with
  | binary_property type => Hscalar type
  | array_binary_property element_type =>
      Harray element_type
        ((fix all (l : list prop) : Forall P l :=
            match l with
            | [] => Forall_nil P
            | q :: l' => Forall_cons q (prop_nested_ind q) (all l')
            end) (__binary_struct__ element_type))
  end.

End PropInduction.

Section Readers.

Context {builtins : Builtins}.

(** [decodes_well p]: whatever the deserializer reads for the property [p]
    from a sequence of bytes is the decoded form of a value of [p], and it
    only moves forward. *)
Definition decodes_well (p : prop) : Prop :=
  forall data offset x offset',
    bytes data -> 0 <= offset ->
    BinaryFormatter.deserialize_property data p offset = Ok (x, offset') ->
    (exists w, conforms_prop p w /\ snd (member_form (p, w)) = x) /\ offset <= offset'.

End Readers.

(** ** A registration read from its bytes *)

Section Attributes.

Context {builtins : Builtins}.

(** The attributes of a deserialized payload, as the handler of a
    registration reads them: a name is the text of a String property, here
    of ASCII characters; the [type] of a parameter is the integer of its
    Byte property. *)
Definition str_of (v : value) : option String.string :=
  match v with
  | VText utf8 =>
      if forallb (fun b => (0 <=? b) && (b <? 128)) utf8
      then Some (String.string_of_list_ascii
                   (map (fun b => Ascii.ascii_of_N (Z.to_N b)) utf8))
      else None
  | _ => None
  end.

Definition all_of {A} (f : value -> option A) (v : value) : option (list A) :=
  match v with
  | VList items =>
      fold_right (fun it acc =>
                    match f it, acc with
                    | Some a, Some l => Some (a :: l)
                    | _, _ => None
                    end) (Some []) items
  | _ => None
  end.

Definition Parameters_of (v : value) : option Parameters.t :=
  match v with
  | VObject [(_, VInt type); (_, name)] =>
      match str_of name with
      | Some name => Some (Parameters.make (Parameters.type_int type) name)
      | None => None
      end
  | _ => None
  end.

Definition Equipment_of (v : value) : option Equipment.t :=
  match v with
  | VObject [(_, name); (_, code); (_, typename)] =>
      match str_of name, str_of code, str_of typename with
      | Some name, Some code, Some typename => Some (Equipment.make name code typename)
      | _, _, _ => None
      end
  | _ => None
  end.

Definition Notification_of (v : value) : option Notification.t :=
  match v with
  | VObject [(_, VInt intent); (_, name); (_, parameters)] =>
      match str_of name, all_of Parameters_of parameters with
      | Some name, Some parameters => Some (Notification.make intent name parameters)
      | _, _ => None
      end
  | _ => None
  end.

Definition Command_of (v : value) : option Command.t :=
  match v with
  | VObject [(_, VInt intent); (_, name); (_, parameters)] =>
      match str_of name, all_of Parameters_of parameters with
      | Some name, Some parameters => Some (Command.make intent name parameters)
      | _, _ => None
      end
  | _ => None
  end.

Definition DeviceRegistration_of (v : value) : option DeviceRegistration.t :=
  match v with
  | VObject [ (_, VUuid device_id); (_, device_key); (_, device_name);
              (_, device_class_name); (_, device_class_version);
              (_, equipment); (_, notification); (_, commands) ] =>
      match str_of device_key, str_of device_name, str_of device_class_name,
            str_of device_class_version, all_of Equipment_of equipment,
            all_of Notification_of notification, all_of Command_of commands with
      | Some device_key, Some device_name, Some device_class_name,
        Some device_class_version, Some equipment, Some notification, Some commands =>
          Some (DeviceRegistration.make device_id device_key device_name device_class_name
                                        device_class_version equipment notification commands)
      | _, _, _, _, _, _, _ => None
      end
  | _ => None
  end.

End Attributes.

(** ** Commands *)

(** The parameter names [generate] cannot take: such a name, or the field
    name made from it, replaces the list [members['__binary_struct__']] or
    binds [__slots__]. *)
Definition reserved_names : list String.string :=
  [ "__binary_struct__"; "_binary_struct__"; "__slots__"; "_slots__" ]%string.

(** The property [generate] makes for a parameter. *)
Definition property_of (param : Parameters.t) : AutoClassFactory.property :=
  AutoClassFactory._generate_binary_property
    (Parameters.type param) (String.append "_" (Parameters.name param)).

(** The class the command map holds for a name: [command_map.get(name)]. *)
Definition mapped_class (name : String.string)
  (command_map : list (String.string * AutoClassFactory.autoclass))
  : option AutoClassFactory.autoclass :=
  match find (fun kv => String.eqb name (fst kv)) command_map with
  | Some kv => Some (snd kv)
  | None => None
  end.

(** ** Fixtures of the unit tests *)

(** The packet of [BinaryPacketBufferTest] and the junk some of its tests
    put before it. *)
Definition pkt : list Z :=
  [0xc5; 0xc3; 0x02; 0x03; 0x03; 0x00; 0x04; 0x00; 0x31; 0x32; 0x33; 0xd5].

Definition junk : list Z := [99; 98; 97; 0xc5; 96; 0xc3; 94; 93].

(** An interpreter for running the unit tests, which use neither floats
    nor non-ASCII text: its only float is [0.0], and every ASCII string
    decodes, to a text of as many characters. *)
Definition test_builtins : Builtins := {|
  float := unit;
  float_of_int := fun _ => tt;
  float_nonzero := fun _ => false;
  pack_f := fun _ => Ok [0; 0; 0; 0];
  unpack_f := fun _ => tt;
  pack_d := fun _ => Ok [0; 0; 0; 0; 0; 0; 0; 0];
  unpack_d := fun _ => tt;
  utf8_valid := forallb (fun b => (0 <=? b) && (b <? 128));
  unicode_len := fun utf8 => len utf8
|}.

(** [Equipment('T', 'C', 'K')] *)
Definition equipment_TCK {builtins : Builtins} : value :=
  VObject [ (binary_property DataTypes.String, VBytes [84]);
            (binary_property DataTypes.String, VBytes [67]);
            (binary_property DataTypes.String, VBytes [75]) ].

Section Fixtures.

#[local] Existing Instance test_builtins.

(** The test classes [_SubObject], with [__init__(self, val = 0)], and
    [_TestObject], with [__init__(self)]. *)
Definition _SubObject : class := new_class 0 [binary_property DataTypes.SignedWord].

Definition _TestObject : class :=
  new_class 0
    [ binary_property DataTypes.Byte; binary_property DataTypes.Word;
      binary_property DataTypes.Dword; binary_property DataTypes.Boolean;
      binary_property DataTypes.Boolean; binary_property DataTypes.String;
      array_binary_property _SubObject; binary_property DataTypes.Guid;
      binary_property DataTypes.Guid ].

(** [uuid.UUID('fa8a9d6e-6555-11e2-89b8-e0cb4eb92129').int] *)
Definition test_guid : Z := 0xfa8a9d6e655511e289b8e0cb4eb92129.

(** [_SubObject(val)] *)
Definition sub_object (val : Z) : value :=
  VObject [(binary_property DataTypes.SignedWord, VInt val)].

(** The object of [_create_default_test_object], with [str] as its
    [str_prop] and [aguid] as its [aguid_prop]. *)
Definition test_object (str aguid : value) : value :=
  VObject (combine (__binary_struct__ _TestObject)
    [ VInt 0xab; VInt 0xabcd; VInt 0x12345678; VBool true; VBool false;
      str; VList [sub_object (-1024); sub_object (-8192)];
      VUuid test_guid; aguid ]).

(** [self.binary] of [BinaryFormatterTest.setUp]. *)
Definition test_binary : list Z :=
  [ 0xab; 0xcd; 0xab; 0x78; 0x56; 0x34; 0x12; 0x01; 0x00;
    0x03; 0x00; 97; 98; 99;
    0x02; 0x00; 0x00; 0xfc; 0x00; 0xe0;
    0xfa; 0x8a; 0x9d; 0x6e; 0x65; 0x55; 0x11; 0xe2; 0x89; 0xb8; 0xe0; 0xcb; 0x4e;
    0xb9; 0x21; 0x29;
    0xfa; 0x8a; 0x9d; 0x6e; 0x65; 0x55; 0x11; 0xe2; 0x89; 0xb8; 0xe0; 0xcb; 0x4e;
    0xb9; 0x21; 0x29 ].

End Fixtures.

(** * Properties *)

(** ** Bytes and 16-bit words *)

Section Bits.

Lemma land_255 x : Z.land x 0xff = x mod 256.
Proof. change 0xff with (Z.ones 8). now rewrite Z.land_ones by lia. Qed.

Lemma high_byte x : Z.shiftr (Z.land x 0xff00) 8 = (x / 256) mod 256.
Proof.
  rewrite Z.shiftr_land. change (Z.shiftr 0xff00 8) with (Z.ones 8).
  rewrite Z.land_ones, Z.shiftr_div_pow2 by lia. reflexivity.
Qed.

Lemma land_shiftl_low hi lo k :
  0 <= k -> 0 <= lo < 2 ^ k -> Z.land (Z.shiftl hi k) lo = 0.
Proof.
  intros Hk Hlo. apply Z.bits_inj'. intros i Hi.
  rewrite Z.land_spec, Z.bits_0.
  destruct (Z.ltb_spec i k) as [Hik|Hik].
  - now rewrite Z.shiftl_spec_low.
  - assert (Z.testbit lo i = false) as ->; [|apply Bool.andb_false_r].
    apply Z.testbit_false; [lia|].
    rewrite Z.div_small; [reflexivity|].
    split; [lia|]. apply Z.lt_le_trans with (2 ^ k); [lia|].
    apply Z.pow_le_mono_r; lia.
Qed.

(** Gluing a high part to a [k]-bit low part with [|] is addition. *)
Lemma lor_shiftl hi lo k :
  0 <= k -> 0 <= lo < 2 ^ k -> Z.lor (Z.shiftl hi k) lo = hi * 2 ^ k + lo.
Proof.
  intros Hk Hlo.
  pose proof (Z.add_lor_land (Z.shiftl hi k) lo) as H.
  rewrite land_shiftl_low in H by lia.
  rewrite <- (Z.shiftl_mul_pow2 hi k) by lia. lia.
Qed.

(** The two bytes the encoder emits for a 16-bit field are read back to
    the field by the decoder's [((msb & 0xff) << 8) | (lsb & 0xff)]. *)
Lemma word_roundtrip x :
  0 <= x <= 65535 ->
  Z.lor (Z.shiftl (Z.land (Z.shiftr (Z.land x 0xff00) 8) 0xff) 8)
        (Z.land (Z.land x 0xff) 0xff) = x.
Proof.
  intros Hx. rewrite high_byte, !land_255, lor_shiftl by (try apply Z.mod_pos_bound; lia).
  change (2 ^ 8) with 256. rewrite !Z.mod_mod by lia.
  rewrite (Z.mod_small (x / 256)) by (split; [apply Z.div_pos|apply Z.div_lt_upper_bound]; lia).
  pose proof (Z.div_mod x 256). lia.
Qed.

(** The length expression of [has_packet] and [pop_packet] reads the same
    number as the one of [from_binary]. *)
Lemma shiftl_land_swap x :
  Z.land (Z.shiftl x 8) 0xff00 = Z.shiftl (Z.land x 0xff) 8.
Proof. now rewrite Z.shiftl_land. Qed.

Lemma is_byte_spec b : is_byte b = true <-> 0 <= b < 256.
Proof. unfold is_byte. rewrite Bool.andb_true_iff, Z.leb_le, Z.ltb_lt. tauto. Qed.

Lemma is_byte_land x : is_byte (Z.land x 0xff) = true.
Proof. apply is_byte_spec. rewrite land_255. apply Z.mod_pos_bound. lia. Qed.

Lemma is_byte_high x : is_byte (Z.shiftr (Z.land x 0xff00) 8) = true.
Proof. apply is_byte_spec. rewrite high_byte. apply Z.mod_pos_bound. lia. Qed.

End Bits.

(** ** Lists *)

Section Lists.

Lemma fold_add_shift l a : fold_left Z.add l a = a + fold_left Z.add l 0.
Proof.
  revert a. induction l as [|x l IH]; intros a; simpl; [lia|].
  rewrite (IH (a + x)), (IH x). lia.
Qed.

Lemma sum_cons x l : sum (x :: l) = x + sum l.
Proof. unfold sum. simpl. now rewrite fold_add_shift. Qed.

Lemma sum_app l1 l2 : sum (l1 ++ l2) = sum l1 + sum l2.
Proof.
  induction l1 as [|x l1 IH]; [reflexivity|].
  rewrite <- app_comm_cons, !sum_cons, IH. lia.
Qed.

Lemma forallb_is_byte l :
  forallb is_byte l = true <-> Forall (fun b => 0 <= b < 256) l.
Proof.
  rewrite forallb_forall, Forall_forall.
  split; intros H b Hb; apply is_byte_spec; auto.
Qed.

End Lists.

(** ** Frames: checksum law and round trip *)

Section Frames.

Import BinaryMessage.

Lemma to_binary_wire f : to_binary f = bytearray (wire f).
Proof. reflexivity. Qed.

Lemma checksum_byte f : is_byte (checksum f) = true.
Proof. apply is_byte_land. Qed.

Lemma wire_bytes f :
  Forall (fun b => 0 <= b < 256) (data f) -> forallb is_byte (wire f) = true.
Proof.
  intros Hd. unfold wire.
  rewrite !forallb_app. cbn [forallb].
  rewrite !is_byte_land, !is_byte_high, checksum_byte.
  apply forallb_is_byte in Hd. now rewrite Hd.
Qed.

Lemma to_binary_ok f :
  Forall (fun b => 0 <= b < 256) (data f) -> to_binary f = Ok (wire f).
Proof.
  intros Hd. rewrite to_binary_wire. unfold bytearray. now rewrite wire_bytes.
Qed.

Lemma wire_length f : len (wire f) = 9 + length f.
Proof.
  unfold wire, len, length, len. rewrite !length_app. cbn [List.length]. lia.
Qed.

(** The bytes of the wire form add up to [0xff] modulo 256, whatever the
    field values are. *)
Lemma wire_sum f : Z.land (sum (wire f)) 0xff = 0xff.
Proof.
  unfold wire. rewrite !sum_app. rewrite !sum_cons. change (sum []) with 0.
  unfold checksum. rewrite !high_byte, !land_255.
  generalize (sum (data f)) (signature f) (version f) (flags f) (length f) (intent f).
  intros d sg v fl n it. Z.div_mod_to_equations. lia.
Qed.

Lemma slice_frame f rest :
  slice (wire f ++ rest) 0 (PACKET_OFFSET_DATA + length f + 1) = wire f.
Proof.
  unfold slice. change (Z.to_nat 0) with 0%nat. cbn [skipn].
  pose proof (wire_length f) as Hl. unfold len in Hl.
  replace (Z.to_nat (PACKET_OFFSET_DATA + length f + 1 - 0))
    with (List.length (wire f) + 0)%nat
    by (unfold PACKET_OFFSET_DATA; lia).
  rewrite firstn_app_2. cbn [firstn]. apply app_nil_r.
Qed.

Lemma slice_payload f rest :
  slice (wire f ++ rest) PACKET_OFFSET_DATA (PACKET_OFFSET_DATA + length f) = data f.
Proof.
  unfold slice, wire. change (Z.to_nat PACKET_OFFSET_DATA) with 8%nat.
  cbn [app skipn]. rewrite <- app_assoc.
  replace (Z.to_nat (PACKET_OFFSET_DATA + length f - PACKET_OFFSET_DATA))
    with (List.length (data f) + 0)%nat by (unfold length, len; lia).
  rewrite firstn_app_2. cbn [firstn]. apply app_nil_r.
Qed.

Lemma byte_field x : 0 <= x <= 255 -> Z.land x 0xff = x.
Proof. intros Hx. rewrite land_255. apply Z.mod_small. lia. Qed.

(** Decoding a buffer that starts with the wire form of a well-formed
    frame gives the frame back, whatever follows it. *)
Lemma from_binary_wire f rest :
  wellformed f -> from_binary (wire f ++ rest) = Ok f.
Proof.
  intros (Hs & Hv & Hfl & Hit & Hn & Hd).
  assert (0 <= length f) as Hn0 by (unfold length, len; lia).
  unfold from_binary.
  replace (len (wire f ++ rest)) with (9 + length f + len rest)
    by (unfold len in *; rewrite length_app; pose proof (wire_length f); unfold len in *; lia).
  assert (0 <= len rest) by (unfold len; lia).
  change (item (wire f ++ rest) PACKET_OFFSET_SIGN_MSB)
    with (Z.land (Z.shiftr (Z.land (signature f) 0xff00) 8) 0xff).
  change (item (wire f ++ rest) PACKET_OFFSET_SIGN_LSB) with (Z.land (signature f) 0xff).
  change (item (wire f ++ rest) PACKET_OFFSET_VERSION) with (Z.land (version f) 0xff).
  change (item (wire f ++ rest) PACKET_OFFSET_FLAGS) with (Z.land (flags f) 0xff).
  change (item (wire f ++ rest) PACKET_OFFSET_LEN_MSB)
    with (Z.shiftr (Z.land (length f) 0xff00) 8).
  change (item (wire f ++ rest) PACKET_OFFSET_LEN_LSB) with (Z.land (length f) 0xff).
  change (item (wire f ++ rest) PACKET_OFFSET_INTENT_MSB)
    with (Z.shiftr (Z.land (intent f) 0xff00) 8).
  change (item (wire f ++ rest) PACKET_OFFSET_INTENT_LSB) with (Z.land (intent f) 0xff).
  rewrite (word_roundtrip (length f)), (word_roundtrip (intent f)) by lia.
  rewrite Hs.
  change (Z.lor (Z.shiftl (Z.land (Z.land (Z.shiftr (Z.land PACKET_SIGNATURE 0xff00) 8) 0xff) 0xff) 8)
                (Z.land (Z.land PACKET_SIGNATURE 0xff) 0xff)) with PACKET_SIGNATURE.
  rewrite Z.eqb_refl. cbn [negb].
  unfold EMPTY_PACKET_LENGTH.
  destruct (Z.ltb_spec (9 + length f + len rest) 9); [lia|].
  destruct (Z.ltb_spec (9 + length f + len rest) (9 + length f)); [lia|].
  rewrite slice_payload, slice_frame, wire_sum.
  rewrite (byte_field (version f)), (byte_field (flags f)) by lia.
  unfold bytearray. apply forallb_is_byte in Hd. rewrite Hd.
  cbn [bind Z.eqb Pos.eqb negb]. rewrite <- Hs. now destruct f.
Qed.

End Frames.

(** C4: the bytes of every encoded well-formed frame (header, payload and
    checksum byte) add up to [0xFF] modulo 256. *)
Theorem checksum_law (f : BinaryMessage.t) :
  BinaryMessage.wellformed f ->
  exists bs, BinaryMessage.to_binary f = Ok bs /\ sum bs mod 256 = 0xff.
Proof.
  intros (_ & _ & _ & _ & _ & Hd). exists (wire f). split.
  - now apply to_binary_ok.
  - rewrite <- land_255. apply wire_sum.
Qed.

(** C3: decoding the encoding of a well-formed frame succeeds and returns
    the frame: same signature, version, flags, intent and payload. *)
Theorem frame_roundtrip (f : BinaryMessage.t) :
  BinaryMessage.wellformed f ->
  exists bs, BinaryMessage.to_binary f = Ok bs /\ BinaryMessage.from_binary bs = Ok f.
Proof.
  intros Hf. exists (wire f). split.
  - apply to_binary_ok. apply Hf.
  - rewrite <- (app_nil_r (wire f)). now apply from_binary_wire.
Qed.

Lemma binmsg_wellformed : BinaryMessage.wellformed binmsg.
Proof.
  unfold BinaryMessage.wellformed, binmsg, BinaryMessage.length, len; cbn.
  repeat split; try lia; repeat constructor; lia.
Defined.

Lemma checksum_law_witness :
  BinaryMessage.wellformed binmsg /\
  exists bs, BinaryMessage.to_binary binmsg = Ok bs /\ sum bs mod 256 = 0xff.
Proof. exact (conj binmsg_wellformed (checksum_law binmsg binmsg_wellformed)). Defined.

Lemma frame_roundtrip_witness :
  BinaryMessage.wellformed binmsg /\
  exists bs, BinaryMessage.to_binary binmsg = Ok bs /\ BinaryMessage.from_binary bs = Ok binmsg.
Proof. exact (conj binmsg_wellformed (frame_roundtrip binmsg binmsg_wellformed)). Defined.

(** *** TestBinaryMessage *)

Example test_checksum : BinaryMessage.checksum binmsg = 0xd5.
Proof. reflexivity. Qed.

Example test_to_binary :
  BinaryMessage.to_binary binmsg
  = Ok [0xc5; 0xc3; 0x02; 0x03; 0x03; 0x00; 0x04; 0x00; 0x31; 0x32; 0x33; 0xd5].
Proof. reflexivity. Qed.

Example test_from_binary :
  bs <- BinaryMessage.to_binary binmsg ;; BinaryMessage.from_binary bs = Ok binmsg.
Proof. reflexivity. Qed.

Example test_crc_error :
  BinaryMessage.from_binary
    [0xc5; 0xc3; 0x02; 0x03; 0x03; 0x00; 0x04; 0x00; 0x31; 0x32; 0x33; 0xba]
  = Raise InvalidCRCError.
Proof. reflexivity. Qed.

Example test_incomplete_packet :
  BinaryMessage.from_binary [0; 1; 2; 3] = Raise IncompletePacketError.
Proof. reflexivity. Qed.

Example test_invalid_packet_length :
  BinaryMessage.from_binary
    [0xc5; 0xc3; 0x02; 0x03; 0x00; 0x03; 0x04; 0x00; 0x31; 0x32; 0x33; 0xd5]
  = Raise InvalidPacketLengthError.
Proof. reflexivity. Qed.

Example test_raise_invalid_signature :
  BinaryMessage.from_binary
    [0xba; 0xd1; 0x02; 0x03; 0x03; 0x00; 0x04; 0x00; 0x31; 0x32; 0x33; 0xd5]
  = Raise InvalidSignatureError.
Proof. reflexivity. Qed.

(** ** The packet buffer *)

Section Buffer.

Import BinaryPacketBuffer.

(** *** BinaryPacketBufferTest *)

Example test_adding_normal_packet :
  appends [pkt] [] = pkt /\ has_packet (appends [pkt] []) = true.
Proof. split; reflexivity. Qed.

Example test_adding_partial_packet :
  appends [firstn 4 pkt; skipn 4 pkt] [] = pkt.
Proof. reflexivity. Qed.

Example test_add_packet_prefixed_with_junk :
  appends [[0xba; 0xdb; 0xad; 0xc5; 0xc3; 0x02]; skipn 3 pkt] [] = pkt.
Proof. reflexivity. Qed.

Example test_onechar_junk_add :
  appends [[0]; [1]; [2]] [] = [] /\ has_packet [] = false.
Proof. split; reflexivity. Qed.

Example test_invalid_signature : appends [junk ++ pkt] [] = pkt.
Proof. reflexivity. Qed.

Example test_inv_sign_last_signhi : appends [junk ++ [0xc5]] [] = [0xc5].
Proof. reflexivity. Qed.

Example test_signature_byteatatime :
  appends (map (fun b => [b]) (junk ++ pkt)) [] = pkt.
Proof. reflexivity. Qed.

(** *** Resynchronisation *)

Lemma len_cons {A} (x : A) l : len (x :: l) = 1 + len l.
Proof. unfold len. cbn [List.length]. lia. Qed.

Lemma len_nonneg {A} (l : list A) : 0 <= len l.
Proof. unfold len. lia. Qed.

Lemma skip_signed rest :
  _skip_to_next_packet (PACKET_SIGNATURE_HI :: PACKET_SIGNATURE_LO :: rest)
  = PACKET_SIGNATURE_HI :: PACKET_SIGNATURE_LO :: rest.
Proof.
  rewrite skip_unfold. unfold skip_pass. rewrite !len_cons.
  pose proof (len_nonneg rest).
  destruct (Z.ltb_spec 1 (1 + (1 + len rest))); [|lia].
  reflexivity.
Qed.

Lemma passes_total data :
  exists n, (n <= List.length data)%nat /\ passes n data = Some (_skip_to_next_packet data).
Proof.
  remember (List.length data) as m eqn:Hm.
  revert data Hm. induction m as [m IH] using lt_wf_ind. intros data ->.
  rewrite skip_unfold. destruct (skip_pass data) as [d|d] eqn:E.
  - exists 0%nat. split; [lia|]. cbn [passes]. now rewrite E.
  - pose proof (skip_pass_shrinks _ _ E) as Hlt.
    destruct (IH _ Hlt d eq_refl) as (n & Hn & Hrun).
    exists (S n). split; [lia|]. cbn [passes]. now rewrite E.
Qed.

Lemma index_lt x l i : index x l = Some i -> i < len l.
Proof.
  revert i. induction l as [|y l IH]; cbn [index]; intros i H; [discriminate|].
  rewrite len_cons. pose proof (len_nonneg l).
  destruct (y =? x); [injection H as <-; lia|].
  destruct (index x l) as [j|]; [|discriminate].
  injection H as <-. specialize (IH j eq_refl). lia.
Qed.

Lemma skipn_item l k :
  0 <= k < len l ->
  skipn (Z.to_nat k) l = item l k :: skipn (Z.to_nat (k + 1)) l.
Proof.
  intros Hk. unfold item, len in *.
  replace (Z.to_nat (k + 1)) with (S (Z.to_nat k)) by lia.
  assert (Z.to_nat k < List.length l)%nat as Hlt by lia.
  revert Hlt. generalize (Z.to_nat k). clear Hk k.
  induction l as [|y l IH]; intros n Hn; cbn [List.length] in Hn; [lia|].
  destruct n; [reflexivity|]. cbn [skipn nth]. apply IH. lia.
Qed.

Lemma index_item x l i : index x l = Some i -> item l i = x.
Proof.
  revert i. induction l as [|y l IH]; cbn [index]; intros i H; [discriminate|].
  destruct (Z.eqb_spec y x) as [->|Hne]; [now injection H as <-|].
  destruct (index x l) as [j|] eqn:Hj; [|discriminate].
  injection H as <-. pose proof (index_nonneg _ _ _ Hj).
  unfold item. replace (Z.to_nat (j + 1)) with (S (Z.to_nat j)) by lia.
  cbn [nth]. now apply IH.
Qed.

(** What one pass returns satisfies the invariant, unless the first [0xC5]
    of the buffer is its last but one byte. *)
Lemma skip_pass_done data d :
  skip_pass data = Done d ->
  invariant d \/ index PACKET_SIGNATURE_HI d = Some (len d - 2).
Proof.
  unfold skip_pass.
  destruct (Z.ltb_spec 1 (len data)) as [Hlen|Hlen].
  - destruct (_ && _) eqn:Hsig.
    + intros [= <-]. left.
      apply andb_true_iff in Hsig as [H0 H1].
      apply Z.eqb_eq in H0, H1.
      destruct data as [|b0 [|b1 rest]]; try (rewrite ?len_cons in Hlen; cbn in Hlen; lia).
      now split.
    + destruct (index PACKET_SIGNATURE_HI data) as [idx|] eqn:Hidx;
        [|intros [= <-]; now left].
      pose proof (index_nonneg _ _ _ Hidx). pose proof (index_lt _ _ _ Hidx).
      pose proof (index_item _ _ _ Hidx) as Hitem.
      destruct (Z.eqb_spec idx (len data - 1)) as [Hlast|Hlast].
      * intros [= <-]. left. unfold del_prefix.
        rewrite skipn_item, Hitem by lia.
        rewrite skipn_all2 by (unfold len in *; lia). reflexivity.
      * destruct (Z.ltb_spec idx (len data - 2)) as [Hin|Hin].
        -- destruct (Z.eqb_spec (item data (idx + 1)) PACKET_SIGNATURE_LO) as [Hlo|Hlo];
             [|discriminate].
           intros [= <-]. left. unfold del_prefix.
           rewrite skipn_item, Hitem by lia.
           rewrite (skipn_item data (idx + 1)), Hlo by lia. now split.
        -- intros [= <-]. right. rewrite Hidx. f_equal. lia.
  - destruct (_ && _) eqn:Hone; intros [= <-]; [now left|]. left.
    destruct data as [|b [|b' rest]]; [exact I| |rewrite !len_cons in Hlen;
      pose proof (len_nonneg rest); lia].
    cbn in Hone. cbn. now destruct (Z.eqb_spec b PACKET_SIGNATURE_HI).
Qed.

End Buffer.

(** Resynchronisation re-establishes the buffer invariant except in one
    case: when it stops at a buffer whose first [0xC5] is the last but one
    byte, which it leaves as it is. *)
Theorem skip_result (data : list Z) :
  BinaryPacketBuffer.invariant (BinaryPacketBuffer._skip_to_next_packet data) \/
  index PACKET_SIGNATURE_HI (BinaryPacketBuffer._skip_to_next_packet data)
  = Some (len (BinaryPacketBuffer._skip_to_next_packet data) - 2).
Proof.
  remember (List.length data) as n eqn:Hn.
  revert data Hn. induction n as [n IH] using lt_wf_ind. intros data ->.
  rewrite BinaryPacketBuffer.skip_unfold.
  destruct (BinaryPacketBuffer.skip_pass data) as [d|d] eqn:E.
  - now apply skip_pass_done in E.
  - apply BinaryPacketBuffer.skip_pass_shrinks in E. exact (IH _ E d eq_refl).
Qed.

(** C10: [_skip_to_next_packet] terminates on every buffer: a nested
    self-call always receives a strictly shorter buffer, and the method
    returns its result after at most [len(data)] nested calls. *)
Theorem skip_terminates (data : list Z) :
  (forall data', BinaryPacketBuffer.skip_pass data = BinaryPacketBuffer.Again data' ->
                 (List.length data' < List.length data)%nat) /\
  exists n, (n <= List.length data)%nat /\
            BinaryPacketBuffer.passes n data
            = Some (BinaryPacketBuffer._skip_to_next_packet data).
Proof.
  split.
  - intros data'. apply BinaryPacketBuffer.skip_pass_shrinks.
  - apply passes_total.
Qed.

Lemma skip_terminates_witness :
  BinaryPacketBuffer.skip_pass [0xc5; 96; 0xc3] = BinaryPacketBuffer.Again [96; 0xc3] /\
  (List.length [96; 0xc3] < List.length [0xc5; 96; 0xc3])%nat.
Proof.
  split; [reflexivity|].
  exact (proj1 (skip_terminates [0xc5; 96; 0xc3]) [96; 0xc3] eq_refl).
Defined.

(** C1 (fails on the code): appending to the empty buffer can leave a buffer
    that starts with junk.  When the first [0xC5] sits at the last but one
    position, neither [idx == data_len - 1] nor [idx < data_len - 2] holds
    and [_skip_to_next_packet] leaves the buffer as it is. *)
Theorem append_keeps_junk :
  BinaryPacketBuffer.append [0x00; 0xc5; 0xc3] [] = Returns tt [0x00; 0xc5; 0xc3] /\
  ~ BinaryPacketBuffer.invariant [0x00; 0xc5; 0xc3] /\
  BinaryPacketBuffer.append [0xc5; 0x60] [] = Returns tt [0xc5; 0x60] /\
  ~ BinaryPacketBuffer.invariant [0xc5; 0x60].
Proof.
  repeat split; try reflexivity; cbn; unfold PACKET_SIGNATURE_HI, PACKET_SIGNATURE_LO;
    intros H; try destruct H; discriminate.
Qed.

(** C9 (fails on the code): no ceiling makes [append] clear the buffer and
    raise. *)
Lemma append_has_no_ceiling :
  ~ exists ceiling : nat, forall data value : list Z,
      (ceiling < List.length (data ++ value))%nat ->
      exists e, BinaryPacketBuffer.append value data = Raises e [].
Proof.
  intros [ceiling H].
  destruct (H [] (PACKET_SIGNATURE_HI :: PACKET_SIGNATURE_LO :: repeat 0 ceiling))
    as [e He].
  - cbn [app List.length]. rewrite repeat_length. lia.
  - discriminate He.
Qed.

(** C9, amended: the buffer has no size ceiling.  Whenever the buffer
    extended by the appended bytes starts with [0xC5 0xC3], [append] returns
    normally and retains every byte, whatever the size; so for every ceiling
    there are a buffer and appended bytes that grow the buffer beyond the
    ceiling and are all retained. *)
Theorem append_retains (ceiling : nat) :
  (forall data value rest : list Z,
      data ++ value = PACKET_SIGNATURE_HI :: PACKET_SIGNATURE_LO :: rest ->
      BinaryPacketBuffer.append value data = Returns tt (data ++ value)) /\
  exists data value : list Z,
    (ceiling < List.length (data ++ value))%nat /\
    BinaryPacketBuffer.append value data = Returns tt (data ++ value).
Proof.
  assert (forall data value rest : list Z,
             data ++ value = PACKET_SIGNATURE_HI :: PACKET_SIGNATURE_LO :: rest ->
             BinaryPacketBuffer.append value data = Returns tt (data ++ value)) as Hkeep.
  { intros data value rest H. unfold BinaryPacketBuffer.append. now rewrite H, skip_signed. }
  split; [exact Hkeep|].
  exists [], (PACKET_SIGNATURE_HI :: PACKET_SIGNATURE_LO :: repeat 0 ceiling).
  split.
  - cbn [app List.length]. rewrite repeat_length. lia.
  - now apply (Hkeep _ _ (repeat 0 ceiling)).
Qed.

Lemma append_retains_witness :
  [0xc5] ++ [0xc3; 1; 2] = PACKET_SIGNATURE_HI :: PACKET_SIGNATURE_LO :: [1; 2] /\
  BinaryPacketBuffer.append [0xc3; 1; 2] [0xc5] = Returns tt ([0xc5] ++ [0xc3; 1; 2]).
Proof.
  split; [reflexivity|].
  exact (proj1 (append_retains 3) [0xc5] [0xc3; 1; 2] [1; 2] eq_refl).
Defined.

(** C6 (fails on the code): on a complete frame with a wrong checksum
    [pop_packet] raises [InvalidCRCError] before it deletes anything; the
    frame stays at the head of the buffer, and a valid frame behind it is
    never reached. *)
Theorem pop_packet_keeps_bad_frame :
  let bad := [0xc5; 0xc3; 0x02; 0x03; 0x03; 0x00; 0x04; 0x00; 0x31; 0x32; 0x33; 0xba] in
  let good := [0xc5; 0xc3; 0x02; 0x03; 0x03; 0x00; 0x04; 0x00; 0x31; 0x32; 0x33; 0xd5] in
  BinaryPacketBuffer.has_packet bad = true /\
  BinaryPacketBuffer.pop_packet bad = Raises InvalidCRCError bad /\
  BinaryProtocol.dataReceived good (BinaryProtocol.make bad [])
  = Raises InvalidCRCError (BinaryProtocol.make (bad ++ good) []).
Proof. repeat split; reflexivity. Qed.

(** ** Chunking independence *)

Section Chunking.

Import BinaryMessage BinaryPacketBuffer BinaryProtocol.

(** The loop of [dataReceived], as an equation. *)
Lemma receive_loop_unfold data got :
  receive_loop data got =
  if has_packet data then
    match pop_packet data with
    | Raises e data' => Raises e (BinaryProtocol.make data' got)
    | Returns None data' => Raises AttributeError (BinaryProtocol.make data' got)
    | Returns (Some msg) data' => receive_loop data' (got ++ [msg])
    end
  else Returns tt (BinaryProtocol.make data got).
Proof.
  funelim (receive_loop data got);
    repeat match goal with
           | E : has_packet _ = _ |- _ => rewrite E
           | E : pop_packet _ = _ |- _ => rewrite E
           end; reflexivity.
Qed.

Lemma to_binary_all_wires fs :
  Forall wellformed fs -> to_binary_all fs = Ok (wires fs).
Proof.
  induction 1 as [|f fs Hf _ IH]; [reflexivity|].
  cbn [to_binary_all]. rewrite to_binary_ok by apply Hf.
  cbn [bind]. rewrite IH. reflexivity.
Qed.

Lemma wire_signed f :
  wellformed f -> exists body, wire f = PACKET_SIGNATURE_HI :: PACKET_SIGNATURE_LO :: body.
Proof.
  intros (Hs & _). unfold wire. rewrite Hs. cbn [app]. eexists. reflexivity.
Qed.

(** A prefix of a stream of frames is empty, the lone first signature byte,
    or starts with the signature. *)
Lemma stream_prefix_shape b q fs :
  Forall wellformed fs -> b ++ q = wires fs ->
  b = [] \/ b = [PACKET_SIGNATURE_HI]
  \/ exists rest, b = PACKET_SIGNATURE_HI :: PACKET_SIGNATURE_LO :: rest.
Proof.
  intros Hfs Hb. destruct b as [|b0 [|b1 b]]; auto.
  - right; left. destruct Hfs as [|f fs Hf _]; [discriminate|].
    destruct (wire_signed f Hf) as [body Hw].
    unfold wires in Hb. cbn [map List.concat] in Hb. rewrite Hw in Hb.
    now injection Hb as ->.
  - right; right. destruct Hfs as [|f fs Hf _]; [discriminate|].
    destruct (wire_signed f Hf) as [body Hw].
    unfold wires in Hb. cbn [map List.concat] in Hb. rewrite Hw in Hb.
    cbn [app] in Hb. injection Hb as -> -> _. eauto.
Qed.

Lemma skip_stream_prefix b q fs :
  Forall wellformed fs -> b ++ q = wires fs -> _skip_to_next_packet b = b.
Proof.
  intros Hfs Hb.
  destruct (stream_prefix_shape b q fs Hfs Hb) as [-> | [-> | [rest ->]]];
    [reflexivity | reflexivity | apply skip_signed].
Qed.

Lemma item_prefix p q w i :
  p ++ q = w -> 0 <= i < len p -> item p i = item w i.
Proof.
  intros <- Hi. unfold item, len in *. rewrite app_nth1; [reflexivity|lia].
Qed.

Lemma skipn_exact {A} (l1 l2 : list A) : skipn (List.length l1) (l1 ++ l2) = l2.
Proof. induction l1; [reflexivity|assumption]. Qed.

(** What [has_packet] and [pop_packet] read as the payload length of a
    buffer whose first nine bytes are those of the wire form of [f]. *)
Lemma buffer_payload_len buf q f x :
  wellformed f -> buf ++ q = wire f ++ x -> 9 <= len buf ->
  Z.lor (Z.land (Z.shiftl (item buf PACKET_OFFSET_LEN_MSB) 8) 0xff00)
        (Z.land (item buf PACKET_OFFSET_LEN_LSB) 0xff) = length f.
Proof.
  intros (_ & _ & _ & _ & Hn & _) Hd H9.
  rewrite (item_prefix buf q _ PACKET_OFFSET_LEN_MSB Hd),
          (item_prefix buf q _ PACKET_OFFSET_LEN_LSB Hd)
    by (unfold PACKET_OFFSET_LEN_MSB, PACKET_OFFSET_LEN_LSB; lia).
  change (item (wire f ++ x) PACKET_OFFSET_LEN_MSB)
    with (Z.shiftr (Z.land (length f) 0xff00) 8).
  change (item (wire f ++ x) PACKET_OFFSET_LEN_LSB) with (Z.land (length f) 0xff).
  rewrite shiftl_land_swap. apply word_roundtrip.
  pose proof (len_nonneg (data f)). unfold length in *. lia.
Qed.

Lemma has_packet_frame f rest :
  wellformed f -> has_packet (wire f ++ rest) = true.
Proof.
  intros Hf. unfold has_packet.
  assert (len (wire f ++ rest) = 9 + length f + len rest) as Hl
    by (pose proof (wire_length f); unfold len in *; rewrite length_app; lia).
  pose proof (len_nonneg rest). pose proof (len_nonneg (data f)). unfold length in *.
  rewrite (buffer_payload_len (wire f ++ rest) [] f rest Hf)
    by (rewrite ?app_nil_r; unfold length; try reflexivity; lia).
  rewrite Hl. unfold EMPTY_PACKET_LENGTH, length.
  destruct (Z.ltb_spec (9 + len (data f) + len rest) 9); [lia|].
  destruct (Z.ltb_spec (9 + len (data f) + len rest) (len (data f) + 9)); [lia|].
  reflexivity.
Qed.

(** A buffer that stops inside the first frame of a stream has no packet. *)
Lemma has_packet_partial p q f x :
  wellformed f -> p ++ q = wire f ++ x -> len p < len (wire f) ->
  has_packet p = false.
Proof.
  intros Hf Hp Hlt. unfold has_packet, EMPTY_PACKET_LENGTH.
  destruct (Z.ltb_spec (len p) 9) as [|H9]; [reflexivity|].
  rewrite (buffer_payload_len p q f x Hf Hp H9).
  rewrite wire_length in Hlt.
  destruct (Z.ltb_spec (len p) (length f + 9)); [reflexivity|lia].
Qed.

Lemma pop_packet_frame f rest :
  wellformed f -> _skip_to_next_packet rest = rest ->
  pop_packet (wire f ++ rest) = Returns (Some f) rest.
Proof.
  intros Hf Hrest. unfold pop_packet.
  rewrite has_packet_frame, from_binary_wire by assumption. cbn [negb].
  assert (9 <= len (wire f ++ rest)) as H9.
  { pose proof (wire_length f). pose proof (len_nonneg rest).
    pose proof (len_nonneg (data f)).
    unfold length, len in *. rewrite length_app. lia. }
  rewrite (buffer_payload_len (wire f ++ rest) [] f rest Hf)
    by (rewrite ?app_nil_r; auto).
  unfold del_prefix.
  replace (Z.to_nat (PACKET_OFFSET_DATA + 1 + length f)) with (List.length (wire f))
    by (pose proof (wire_length f); unfold len, PACKET_OFFSET_DATA in *; lia).
  now rewrite skipn_exact, Hrest.
Qed.

Lemma wires_app fs1 fs2 : wires (fs1 ++ fs2) = wires fs1 ++ wires fs2.
Proof. unfold wires. now rewrite map_app, concat_app. Qed.

Lemma has_packet_stopped p q fs :
  Forall wellformed fs -> p ++ q = wires fs -> partial p fs -> has_packet p = false.
Proof.
  intros Hfs Hp Hpart. destruct Hfs as [|f fs Hf _].
  - cbn in Hpart. now subst p.
  - apply (has_packet_partial p q f (wires fs) Hf Hp Hpart).
Qed.

(** The loop pops every frame that is completely in the buffer and stops
    at the first incomplete one. *)
Lemma receive_loop_frames fs1 :
  forall p q fs2 got,
    Forall wellformed fs1 -> Forall wellformed fs2 ->
    p ++ q = wires fs2 -> partial p fs2 ->
    receive_loop (wires fs1 ++ p) got
    = Returns tt (BinaryProtocol.make p (got ++ fs1)).
Proof.
  induction fs1 as [|f fs1 IH]; intros p q fs2 got H1 H2 Hp Hpart.
  - cbn [wires map List.concat app]. rewrite receive_loop_unfold.
    rewrite (has_packet_stopped p q fs2) by assumption.
    now rewrite app_nil_r.
  - inversion H1 as [|? ? Hf H1']; subst.
    unfold wires. cbn [map List.concat]. fold (wires fs1). rewrite <- app_assoc.
    rewrite receive_loop_unfold, has_packet_frame by assumption.
    rewrite pop_packet_frame; [|assumption|].
    + rewrite (IH p q fs2) by assumption. now rewrite <- app_assoc.
    + apply (skip_stream_prefix _ q (fs1 ++ fs2)).
      * now apply Forall_app.
      * now rewrite wires_app, <- app_assoc, Hp.
Qed.

(** A prefix of a stream is a number of whole frames followed by a piece
    of the next one. *)
Lemma stream_split fs :
  forall b q,
    Forall wellformed fs -> b ++ q = wires fs ->
    exists fs1 fs2 p,
      fs = fs1 ++ fs2 /\ b = wires fs1 ++ p /\ p ++ q = wires fs2 /\ partial p fs2.
Proof.
  induction fs as [|f fs IH]; intros b q Hfs Hb.
  - apply app_eq_nil in Hb as [-> ->]. now exists [], [], [].
  - inversion Hfs as [|? ? Hf Hfs']; subst.
    destruct (Z.ltb_spec (len b) (len (wire f))) as [Hlt|Hge].
    + now exists [], (f :: fs), b.
    + unfold wires in Hb. cbn [map List.concat] in Hb. fold (wires fs) in Hb.
      apply app_eq_app in Hb as [m [[-> Hm] | [Hw Hq]]].
      * destruct (IH m q Hfs' (eq_sym Hm)) as (fs1 & fs2 & p & -> & -> & Hp & Hpart).
        exists (f :: fs1), fs2, p. repeat split; try assumption.
        unfold wires. cbn [map List.concat]. now rewrite app_assoc.
      * assert (m = []) as ->.
        { apply (f_equal (@List.length Z)) in Hw. rewrite length_app in Hw.
          unfold len in Hge. destruct m; [reflexivity|]. cbn [List.length] in Hw. lia. }
        rewrite app_nil_r in Hw. subst b. cbn [app] in Hq. subst q.
        destruct (IH [] (wires fs) Hfs' eq_refl) as (fs1 & fs2 & p & -> & Hnil & Hp & Hpart).
        exists (f :: fs1), fs2, p. repeat split; try assumption.
        unfold wires. cbn [map List.concat]. fold (wires fs1).
        now rewrite <- app_assoc, <- Hnil, app_nil_r.
Qed.

Lemma feed_stream chunks :
  forall fs p got,
    Forall wellformed fs -> p ++ List.concat chunks = wires fs -> partial p fs ->
    feed chunks (BinaryProtocol.make p got)
    = Returns tt (BinaryProtocol.make [] (got ++ fs)).
Proof.
  induction chunks as [|c cs IH]; intros fs p got Hfs Hp Hpart.
  - cbn [List.concat] in Hp. rewrite app_nil_r in Hp. cbn [feed].
    destruct fs as [|f fs].
    + cbn in Hpart. subst p. now rewrite app_nil_r.
    + exfalso. unfold partial in Hpart. subst p. unfold wires, len in Hpart.
      cbn [map List.concat] in Hpart. rewrite length_app in Hpart. lia.
  - cbn [List.concat] in Hp. rewrite app_assoc in Hp.
    cbn [feed]. unfold dataReceived, append. cbn [packet_buffer received].
    rewrite (skip_stream_prefix _ _ fs Hfs Hp).
    destruct (stream_split fs _ _ Hfs Hp) as (fs1 & fs2 & p' & -> & Hb & Hp' & Hpart').
    apply Forall_app in Hfs as [Hfs1 Hfs2].
    rewrite Hb, (receive_loop_frames fs1 p' (List.concat cs) fs2) by assumption.
    rewrite (IH fs2 p') by assumption. now rewrite <- app_assoc.
Qed.

End Chunking.

(** C2: whichever way the stream of a sequence of well-formed frames is cut
    into chunks, delivering the chunks one by one to a fresh buffer, each
    followed by popping all available frames, hands over the same frames as
    delivering the stream as one chunk: the encoded frames, in order. *)
Theorem chunking_independence
    (frames : list BinaryMessage.t) (chunks : list (list Z)) (stream : list Z) :
  Forall BinaryMessage.wellformed frames ->
  BinaryProtocol.to_binary_all frames = Ok stream ->
  List.concat chunks = stream ->
  BinaryProtocol.feed chunks (BinaryProtocol.make [] [])
  = BinaryProtocol.feed [stream] (BinaryProtocol.make [] []) /\
  BinaryProtocol.feed [stream] (BinaryProtocol.make [] [])
  = Returns tt (BinaryProtocol.make [] frames).
Proof.
  intros Hfs Henc Hcat.
  rewrite to_binary_all_wires in Henc by assumption. injection Henc as <-.
  assert (forall cs, List.concat cs = wires frames ->
                     BinaryProtocol.feed cs (BinaryProtocol.make [] [])
                     = Returns tt (BinaryProtocol.make [] frames)) as Hall.
  { intros cs Hcs. apply (feed_stream cs frames [] []); try assumption.
    destruct frames as [|f fs]; [reflexivity|].
    unfold partial. rewrite wire_length. pose proof (len_nonneg (BinaryMessage.data f)).
    change (len []) with 0.
    unfold BinaryMessage.length. lia. }
  rewrite (Hall chunks Hcat), (Hall [wires frames]); [auto|].
  cbn [List.concat]. apply app_nil_r.
Qed.

Lemma chunking_independence_witness :
  let stream := wire binmsg ++ wire binmsg in
  let chunks := [firstn 5 stream; []; firstn 10 (skipn 5 stream); skipn 15 stream] in
  BinaryProtocol.feed chunks (BinaryProtocol.make [] [])
  = BinaryProtocol.feed [stream] (BinaryProtocol.make [] []) /\
  BinaryProtocol.feed [stream] (BinaryProtocol.make [] [])
  = Returns tt (BinaryProtocol.make [] [binmsg; binmsg]).
Proof.
  intros stream chunks.
  apply (chunking_independence [binmsg; binmsg] chunks stream).
  - repeat constructor; apply binmsg_wellformed.
  - reflexivity.
  - reflexivity.
Defined.

(** A frame followed by the first byte of the next one. *)
Example receive_frame_and_tail :
  BinaryProtocol.dataReceived [0xc5; 0xc3; 2; 3; 3; 0; 4; 0; 0x31; 0x32; 0x33; 0xd5; 0xc5] (BinaryProtocol.make [] [])
 = Returns tt (BinaryProtocol.make [0xc5] [BinaryMessage.make 0xc5c3 2 3 4 [0x31; 0x32; 0x33]]).
Proof. vm_compute. reflexivity. Qed.

(** ** The formatter *)

Section FormatterTests.

#[local] Existing Instance test_builtins.

(** *** BinaryFormatterTest *)

Example test_serialize_byte :
  BinaryFormatter.serialize
    (test_object (VBytes [97; 98; 99]) (VBytes (uuid.bytes test_guid)))
  = Ok test_binary.
Proof. vm_compute. reflexivity. Qed.

(** [res.str_prop] is the text [u'abc'], which the test compares with the
    byte string ['abc']. *)
Example test_deserializer :
  BinaryFormatter.deserialize (VBytes test_binary) _TestObject
  = Ok (test_object (VText [97; 98; 99]) (VUuid test_guid)).
Proof. vm_compute. reflexivity. Qed.

End FormatterTests.

Section Numbers.

Lemma le_bytes_length size n : List.length (struct.le_bytes size n) = size.
Proof. revert n. induction size; intros n; cbn; [reflexivity|now rewrite IHsize]. Qed.

Lemma le_bytes_are_bytes size n :
  Forall (fun b => 0 <= b < 256) (struct.le_bytes size n).
Proof.
  revert n. induction size; intros n; cbn [struct.le_bytes]; constructor; auto.
  apply Z.mod_pos_bound. lia.
Qed.

Lemma le_value_bytes size n :
  struct.le_value (struct.le_bytes size n) = n mod 256 ^ Z.of_nat size.
Proof.
  revert n. induction size as [|size IH]; intros n.
  - cbn. now rewrite Z.mod_1_r.
  - cbn [struct.le_bytes struct.le_value]. rewrite IH.
    rewrite Nat2Z.inj_succ, Z.pow_succ_r by lia.
    rewrite Z.rem_mul_r by (try apply Z.pow_pos_nonneg; lia). reflexivity.
Qed.

(** Left-nested [|] of parts that do not overlap is addition. *)
Lemma lor_disjoint x lo k :
  0 <= k -> x mod 2 ^ k = 0 -> 0 <= lo < 2 ^ k -> Z.lor x lo = x + lo.
Proof.
  intros Hk Hx Hlo.
  assert (x = Z.shiftl (x / 2 ^ k) k) as ->.
  { rewrite Z.shiftl_mul_pow2 by lia.
    pose proof (Z.div_mod x (2 ^ k)). nia. }
  rewrite lor_shiftl by lia. now rewrite Z.shiftl_mul_pow2 by lia.
Qed.

Lemma in_range a hi : 0 <= a < hi -> negb ((0 <=? a) && (a <? hi)) = false.
Proof.
  intros H. destruct (Z.leb_spec 0 a); [|lia]. destruct (Z.ltb_spec a hi); [|lia].
  reflexivity.
Qed.

Ltac lor_side := first [ lia | Z.div_mod_to_equations; lia ].

Ltac lor_to_add :=
  repeat match goal with
         | |- context [Z.lor ?x ?y] =>
             first [ rewrite (lor_disjoint x y 8) by lor_side
                   | rewrite (lor_disjoint x y 16) by lor_side
                   | rewrite (lor_disjoint x y 24) by lor_side
                   | rewrite (lor_disjoint x y 32) by lor_side
                   | rewrite (lor_disjoint x y 40) by lor_side
                   | rewrite (lor_disjoint x y 48) by lor_side
                   | rewrite (lor_disjoint x y 64) by lor_side
                   | rewrite (lor_disjoint x y 80) by lor_side
                   | rewrite (lor_disjoint x y 96) by lor_side ]
         end.

(** The decoder's field arithmetic on sixteen bytes builds the UUID whose
    bytes they are. *)
Lemma UUID_fields_of_bytes b0 b1 b2 b3 b4 b5 b6 b7 b8 b9 b10 b11 b12 b13 b14 b15 :
  Forall (fun b => 0 <= b < 256)
         [b0; b1; b2; b3; b4; b5; b6; b7; b8; b9; b10; b11; b12; b13; b14; b15] ->
  uuid.UUID_fields
    (Z.lor (Z.lor (Z.lor (Z.shiftl b0 24) (Z.shiftl b1 16)) (Z.shiftl b2 8)) b3)
    (Z.lor (Z.shiftl b4 8) b5)
    (Z.lor (Z.shiftl b6 8) b7)
    b8 b9
    (Z.lor (Z.lor (Z.lor (Z.lor (Z.lor (Z.shiftl b10 40) (Z.shiftl b11 32))
                                (Z.shiftl b12 24))
                         (Z.shiftl b13 16))
                  (Z.shiftl b14 8)) b15)
  = Ok (uuid.UUID_bytes
          [b0; b1; b2; b3; b4; b5; b6; b7; b8; b9; b10; b11; b12; b13; b14; b15]).
Proof.
  intros H.
  repeat match goal with
         | H : Forall _ (_ :: _) |- _ => inversion H; clear H; subst
         | H : Forall _ [] |- _ => clear H
         end.
  unfold uuid.UUID_fields. rewrite !Z.shiftl_mul_pow2 by lia.
  lor_to_add.
  rewrite !in_range by lia.
  cbv zeta. rewrite ?Z.shiftl_mul_pow2 by lia.
  lor_to_add.
  f_equal. unfold uuid.UUID_bytes. cbn [fold_left]. lia.
Qed.

Lemma uuid_bytes_explicit n :
  uuid.bytes n =
  map (fun shift => Z.land (Z.shiftr n shift) 0xff)
      [120; 112; 104; 96; 88; 80; 72; 64; 56; 48; 40; 32; 24; 16; 8; 0].
Proof. reflexivity. Qed.

Lemma uuid_bytes_length n : len (uuid.bytes n) = 16.
Proof. reflexivity. Qed.

Lemma uuid_bytes_are_bytes n : Forall (fun b => 0 <= b < 256) (uuid.bytes n).
Proof.
  rewrite uuid_bytes_explicit. apply Forall_map, Forall_forall. intros shift _.
  rewrite land_255. apply Z.mod_pos_bound. lia.
Qed.

Lemma div_step n s :
  0 <= s -> n / 2 ^ s = 256 * (n / 2 ^ (s + 8)) + (n / 2 ^ s) mod 256.
Proof.
  intros Hs. rewrite Z.pow_add_r by lia. change (2 ^ 8) with 256.
  rewrite <- Z.div_div by (try apply Z.pow_nonzero; lia).
  apply Z.div_mod. lia.
Qed.

(** The sixteen bytes of a UUID, read as a big-endian number, are its
    [int]. *)
Lemma UUID_bytes_of_bytes n :
  0 <= n < 2 ^ 128 -> uuid.UUID_bytes (uuid.bytes n) = n.
Proof.
  intros Hn. rewrite uuid_bytes_explicit. cbn [map].
  rewrite !land_255, !Z.shiftr_div_pow2 by lia.
  unfold uuid.UUID_bytes. cbn [fold_left].
  assert (n / 2 ^ 128 = 0) as H128 by (apply Z.div_small; lia).
  pose proof (div_step n 120 ltac:(lia)) as H120.
  pose proof (div_step n 112 ltac:(lia)) as H112.
  pose proof (div_step n 104 ltac:(lia)) as H104.
  pose proof (div_step n 96 ltac:(lia)) as H96.
  pose proof (div_step n 88 ltac:(lia)) as H88.
  pose proof (div_step n 80 ltac:(lia)) as H80.
  pose proof (div_step n 72 ltac:(lia)) as H72.
  pose proof (div_step n 64 ltac:(lia)) as H64.
  pose proof (div_step n 56 ltac:(lia)) as H56.
  pose proof (div_step n 48 ltac:(lia)) as H48.
  pose proof (div_step n 40 ltac:(lia)) as H40.
  pose proof (div_step n 32 ltac:(lia)) as H32.
  pose proof (div_step n 24 ltac:(lia)) as H24.
  pose proof (div_step n 16 ltac:(lia)) as H16.
  pose proof (div_step n 8 ltac:(lia)) as H8.
  pose proof (div_step n 0 ltac:(lia)) as H0.
  cbn [Z.add Pos.add Pos.succ Pos.add_carry] in *.
  change (2 ^ 0) with 1 in *. rewrite Z.div_1_r in *.
  lia.
Qed.

End Numbers.

(** ** Round trip of the formatter *)

Section Codec.

Context {builtins : Builtins}.

Import BinaryFormatter.

(** *** Reading back what [struct] packed *)

Lemma len_app {A} (l1 l2 : list A) : len (l1 ++ l2) = len l1 + len l2.
Proof. unfold len. rewrite length_app. lia. Qed.

Lemma slice_middle {A} (pre bs post : list A) n :
  n = len bs -> slice (pre ++ bs ++ post) (len pre) (len pre + n) = bs.
Proof.
  intros ->. unfold slice, len. rewrite Nat2Z.id.
  replace (Z.to_nat (Z.of_nat (List.length pre) + Z.of_nat (List.length bs)
                     - Z.of_nat (List.length pre)))
    with (List.length bs + 0)%nat by lia.
  rewrite skipn_exact, firstn_app_2. cbn [firstn]. apply app_nil_r.
Qed.

Lemma enough_data {A} (pre bs post : list A) size :
  len bs = size -> (len (pre ++ bs ++ post) - len pre <? size) = false.
Proof.
  intros <-. rewrite !len_app. pose proof (len_nonneg post).
  apply Z.ltb_ge. lia.
Qed.

Lemma pow_256 size : 0 <= size -> 256 ^ size = 2 ^ (8 * size).
Proof. intros H. now rewrite Z.pow_mul_r by lia. Qed.

Lemma pack_int_ok signed size n :
  int_in signed size n ->
  struct.pack_int signed size (VInt n) = Ok (struct.le_bytes (Z.to_nat size) n).
Proof.
  unfold int_in, struct.pack_int. cbn [int_of]. intros H.
  destruct signed.
  - destruct (Z.leb_spec (- 2 ^ (8 * size - 1)) n); [|lia].
    destruct (Z.ltb_spec n (2 ^ (8 * size - 1))); [|lia]. reflexivity.
  - destruct (Z.leb_spec 0 n); [|lia].
    destruct (Z.ltb_spec n (2 ^ (8 * size))); [|lia]. reflexivity.
Qed.

Lemma unpack_int_ok signed size n :
  0 < size -> int_in signed size n ->
  struct.unpack_int signed size (struct.le_bytes (Z.to_nat size) n) = VInt n.
Proof.
  intros Hsize H. unfold struct.unpack_int.
  rewrite le_value_bytes, Z2Nat.id, pow_256 by lia.
  assert (2 ^ (8 * size) = 2 * 2 ^ (8 * size - 1)) as Hpow.
  { rewrite <- Z.pow_succ_r by lia. f_equal. lia. }
  assert (0 < 2 ^ (8 * size - 1)) by (apply Z.pow_pos_nonneg; lia).
  unfold int_in in H. destruct signed; cbn [andb].
  - destruct (Z_lt_le_dec n 0) as [Hneg|Hpos].
    + rewrite <- (Z_mod_plus_full n 1), Z.mod_small by lia.
      destruct (Z.leb_spec (2 ^ (8 * size - 1)) (n + 1 * 2 ^ (8 * size))); [|lia].
      f_equal. lia.
    + rewrite Z.mod_small by lia.
      destruct (Z.leb_spec (2 ^ (8 * size - 1)) n); [lia|]. reflexivity.
  - now rewrite Z.mod_small by lia.
Qed.

Lemma le_bytes_len size n : 0 <= size -> len (struct.le_bytes (Z.to_nat size) n) = size.
Proof. intros H. unfold len. rewrite le_bytes_length. lia. Qed.

(** Reading a 16-bit count or length back. *)
Lemma unpack_H pre n rest :
  0 <= n <= 65535 ->
  struct.unpack_from struct.fmt_H (pre ++ struct.le_bytes 2 n ++ rest) (len pre)
  = Ok (VInt n).
Proof.
  intros Hn. unfold struct.unpack_from.
  rewrite enough_data by reflexivity.
  rewrite slice_middle by reflexivity.
  cbn [struct.calcsize]. f_equal.
  apply (unpack_int_ok false 2 n); [lia|]. unfold int_in. cbn. lia.
Qed.

Lemma pack_H n :
  0 <= n <= 65535 -> struct.pack struct.fmt_H (VInt n) = Ok (struct.le_bytes 2 n).
Proof.
  intros Hn. unfold struct.pack. cbn [struct.calcsize].
  apply (pack_int_ok false 2 n). unfold int_in. cbn. lia.
Qed.

(** A value of a basic type that is not a float is packed in the size of
    its format and unpacked to itself, wherever the bytes lie in the data. *)
Lemma basic_roundtrip type fmt size x :
  __basic_type_map__ type = Some (fmt, size) ->
  float_free (binary_property type) = true ->
  conforms_scalar type x ->
  exists bs,
    struct.pack fmt x = Ok bs /\ len bs = size /\ bytes bs /\
    forall pre post, struct.unpack_from fmt (pre ++ bs ++ post) (len pre) = Ok x.
Proof.
  intros Hmap Hff Hc.
  destruct type; cbn [__basic_type_map__] in Hmap; try discriminate;
    try discriminate Hff;
    injection Hmap as <- <-; cbn [conforms_scalar] in Hc.
  1-8: destruct Hc as (n & -> & Hn);
    match type of Hn with
    | int_in ?sg ?k _ =>
        exists (struct.le_bytes (Z.to_nat k) n); split; [|split; [|split]];
        [ apply (pack_int_ok sg k n Hn)
        | apply le_bytes_len; lia
        | apply le_bytes_are_bytes
        | intros pre post; unfold struct.unpack_from; cbn [struct.calcsize];
          rewrite enough_data by (apply le_bytes_len; lia);
          rewrite slice_middle by (symmetry; apply le_bytes_len; lia);
          f_equal; apply (unpack_int_ok sg k n); [lia | exact Hn] ]
    end.
  destruct Hc as (b & ->). exists [Z.b2z b]. split; [|split; [|split]]; try reflexivity.
  - repeat constructor; destruct b; cbn; lia.
  - intros pre post. unfold struct.unpack_from. cbn [struct.calcsize].
    rewrite enough_data, slice_middle by reflexivity.
    now destruct b.
Qed.

(** *** One property *)

Lemma serialize_basic f type fmt size x :
  __basic_type_map__ type = Some (fmt, size) ->
  serialize_property f (binary_property type) x = struct.pack fmt x.
Proof. destruct type; try discriminate; intros [= <- <-]; reflexivity. Qed.

Lemma deserialize_basic data type fmt size offset :
  __basic_type_map__ type = Some (fmt, size) ->
  deserialize_property data (binary_property type) offset
  = (value <- struct.unpack_from fmt data offset ;; Ok (value, offset + size)).
Proof. destruct type; try discriminate; intros [= <- <-]; reflexivity. Qed.

Lemma decoded_form_scalar type x :
  conforms_scalar type x -> type <> DataTypes.Guid -> type <> DataTypes.String ->
  decoded_form x = x.
Proof.
  destruct type; cbn [conforms_scalar]; intros Hc Hne Hne'; try contradiction;
    try (destruct Hc as (? & -> & _); reflexivity);
    try (destruct Hc as (? & ->); reflexivity).
  now subst x.
Qed.

Lemma sixteen (bs : list Z) :
  len bs = 16 ->
  exists b0 b1 b2 b3 b4 b5 b6 b7 b8 b9 b10 b11 b12 b13 b14 b15,
    bs = [b0; b1; b2; b3; b4; b5; b6; b7; b8; b9; b10; b11; b12; b13; b14; b15].
Proof.
  unfold len. intros H.
  do 16 (destruct bs as [|? bs]; [cbn [List.length] in H; lia|]).
  destruct bs; [|cbn [List.length] in H; lia].
  repeat eexists.
Qed.

(** The Guid case: sixteen bytes in the data are read as the UUID with
    these bytes. *)
Lemma guid_decode bs pre post :
  len bs = 16 -> bytes bs ->
  deserialize_property (pre ++ bs ++ post) (binary_property DataTypes.Guid) (len pre)
  = Ok (VUuid (uuid.UUID_bytes bs), len pre + 16).
Proof.
  intros Hlen Hbytes.
  change (deserialize_property (pre ++ bs ++ post) (binary_property DataTypes.Guid)
                               (len pre))
    with (value <- struct.unpack_bytes_from 16 (pre ++ bs ++ post) (len pre) ;;
          let v := item value in
          int <- uuid.UUID_fields
                   (Z.lor (Z.lor (Z.lor (Z.shiftl (v 0) 24) (Z.shiftl (v 1) 16))
                                 (Z.shiftl (v 2) 8)) (v 3))
                   (Z.lor (Z.shiftl (v 4) 8) (v 5))
                   (Z.lor (Z.shiftl (v 6) 8) (v 7))
                   (v 8) (v 9)
                   (Z.lor (Z.lor (Z.lor (Z.lor (Z.lor (Z.shiftl (v 10) 40)
                                                      (Z.shiftl (v 11) 32))
                                               (Z.shiftl (v 12) 24))
                                        (Z.shiftl (v 13) 16))
                                 (Z.shiftl (v 14) 8)) (v 15)) ;;
          Ok (VUuid int, len pre + 16)).
  unfold struct.unpack_bytes_from.
  rewrite enough_data, slice_middle by first [assumption | symmetry; assumption].
  cbn [bind].
  destruct (sixteen bs Hlen)
    as (b0 & b1 & b2 & b3 & b4 & b5 & b6 & b7 & b8 & b9 & b10 & b11 & b12 & b13 & b14
        & b15 & ->).
  cbv zeta. unfold item.
  cbn [Z.to_nat Pos.to_nat Pos.iter_op Init.Nat.add nth].
  now rewrite UUID_fields_of_bytes.
Qed.

(** The bytes [serialize] emits for a [uuid.UUID] are read back, by the
    decoder's field arithmetic, as the same UUID. *)
Lemma guid_roundtrip n pre post :
  0 <= n < 2 ^ 128 ->
  deserialize_property (pre ++ uuid.bytes n ++ post) (binary_property DataTypes.Guid)
                       (len pre)
  = Ok (VUuid n, len pre + 16).
Proof.
  intros Hn. rewrite guid_decode by (try apply uuid_bytes_are_bytes; reflexivity).
  now rewrite UUID_bytes_of_bytes.
Qed.

Lemma deserialize_string data offset :
  deserialize_property data (binary_property DataTypes.String) offset
  = (strlen <- struct.unpack_from struct.fmt_H data offset ;;
     let strlen := match strlen with VInt n => n | _ => 0 end in
     let offset := offset + 2 in
     let bstr := slice data offset (offset + strlen) in
     let offset := offset + strlen in
     if utf8_valid bstr then Ok (VText bstr, offset) else Raise UnicodeDecodeError).
Proof. reflexivity. Qed.

Lemma deserialize_binary data offset :
  deserialize_property data (binary_property DataTypes.Binary) offset
  = (binlen <- struct.unpack_from struct.fmt_H data offset ;;
     let binlen := match binlen with VInt n => n | _ => 0 end in
     let offset := offset + 2 in
     let bin := slice data offset (offset + binlen) in
     let offset := offset + binlen in
     Ok (VBytes bin, offset)).
Proof. reflexivity. Qed.

(** Reading a length-prefixed byte sequence. *)
Lemma prefixed_slice pre (bs post : list Z) :
  0 <= len bs <= 65535 ->
  struct.unpack_from struct.fmt_H
    (pre ++ (struct.le_bytes 2 (len bs) ++ bs) ++ post) (len pre)
  = Ok (VInt (len bs)) /\
  slice (pre ++ (struct.le_bytes 2 (len bs) ++ bs) ++ post)
        (len pre + 2) (len pre + 2 + len bs) = bs.
Proof.
  intros Hl. rewrite <- app_assoc. split.
  - now apply unpack_H.
  - rewrite (app_assoc pre).
    change (len pre + 2) with (len pre + len (struct.le_bytes 2 (len bs))).
    rewrite <- len_app. now apply slice_middle.
Qed.

Lemma scalar_roundtrip f type x :
  conforms_scalar type x ->
  float_free (binary_property type) = true ->
  exists bs,
    serialize_property f (binary_property type) x = Ok bs /\ bytes bs /\
    reads_back (binary_property type) x bs.
Proof.
  intros Hc Hff. destruct (__basic_type_map__ type) as [[fmt size]|] eqn:Hmap.
  - destruct (basic_roundtrip type fmt size x Hmap Hff Hc)
      as (bs & Hp & Hl & Hb & Hu).
    exists bs. rewrite (serialize_basic f type fmt size x Hmap).
    split; [assumption|]. split; [assumption|].
    intros pre post. rewrite (deserialize_basic _ type fmt size _ Hmap), Hu.
    cbn [bind]. unfold member_form. cbn [fst snd prop_type].
    assert (type <> DataTypes.Guid) as Hne by (intros ->; discriminate Hmap).
    assert (type <> DataTypes.String) as Hne' by (intros ->; discriminate Hmap).
    rewrite (decoded_form_scalar type x Hc Hne Hne').
    replace (DataTypes.eqb type DataTypes.Guid) with false
      by (destruct type; try reflexivity; contradiction).
    replace (DataTypes.eqb type DataTypes.String) with false
      by (destruct type; try reflexivity; contradiction).
    now rewrite Hl.
  - destruct type; try discriminate Hmap; cbn [conforms_scalar] in Hc.
    + (* Null *)
      subst x. exists []. split; [reflexivity|]. split; [constructor|].
      intros pre post. change (len []) with 0. now rewrite Z.add_0_r.
    + (* Guid *)
      destruct Hc as [(n & -> & Hn) | (bs & -> & Hl & Hb)].
      * exists (uuid.bytes n).
        assert (forallb is_byte (uuid.bytes n) = true) as Hbytes
          by apply forallb_is_byte, uuid_bytes_are_bytes.
        split; [|split; [apply uuid_bytes_are_bytes|]].
        -- change (serialize_property f (binary_property DataTypes.Guid) (VUuid n))
             with (extend_with (VBytes (uuid.bytes n))).
           unfold extend_with. cbn [ints_of bind]. now rewrite Hbytes.
        -- intros pre post. now rewrite guid_roundtrip.
      * exists bs. apply forallb_is_byte in Hb as Hbytes.
        split; [|split; [assumption|]].
        -- change (serialize_property f (binary_property DataTypes.Guid) (VBytes bs))
             with (guid <- (n <- Ok (len bs) ;;
                            if negb (n =? 16) then raise_new new_BinarySerializationError
                            else Ok (VBytes bs)) ;;
                   extend_with guid).
           cbn [bind]. rewrite Hl. cbn [Z.eqb Pos.eqb negb bind].
           unfold extend_with. cbn [ints_of bind]. now rewrite Hbytes.
        -- intros pre post. rewrite guid_decode by assumption. now rewrite Hl.
    + (* String *)
      destruct Hc as (bs & -> & Hl & Hb & Hu). pose proof (len_nonneg bs).
      exists (struct.le_bytes 2 (len bs) ++ bs).
      apply forallb_is_byte in Hb as Hbytes.
      split; [|split].
      * change (serialize_property f (binary_property DataTypes.String) (VBytes bs))
          with (bstr <- array_B (VBytes bs) ;;
                hdr <- struct.pack struct.fmt_H (VInt (len bstr)) ;;
                Ok (hdr ++ bstr)).
        unfold array_B. cbn [ints_of bind]. rewrite Hbytes. cbn [bind].
        now rewrite pack_H by lia.
      * apply Forall_app. split; [apply le_bytes_are_bytes|assumption].
      * intros pre post. rewrite deserialize_string.
        destruct (prefixed_slice pre bs post) as [-> Hs]; [lia|].
        cbn [bind]. cbv zeta. rewrite Hs, Hu.
        rewrite len_app. change (len (struct.le_bytes 2 (len bs))) with 2.
        change (snd (member_form (binary_property DataTypes.String, VBytes bs)))
          with (VText bs).
        now rewrite Z.add_assoc.
    + (* Binary *)
      destruct Hc as (bs & -> & Hl & Hb). pose proof (len_nonneg bs).
      exists (struct.le_bytes 2 (len bs) ++ bs).
      apply forallb_is_byte in Hb as Hbytes.
      split; [|split].
      * change (serialize_property f (binary_property DataTypes.Binary) (VBytes bs))
          with (str_len <- len_of (VBytes bs) ;;
                hdr <- struct.pack struct.fmt_H (VInt str_len) ;;
                body <- extend_with (VBytes bs) ;;
                Ok (hdr ++ body)).
        cbn [len_of bind]. rewrite pack_H by lia.
        unfold extend_with. cbn [ints_of bind]. now rewrite Hbytes.
      * apply Forall_app. split; [apply le_bytes_are_bytes|assumption].
      * intros pre post. rewrite deserialize_binary.
        destruct (prefixed_slice pre bs post) as [-> Hs]; [lia|].
        cbn [bind]. cbv zeta. rewrite Hs.
        rewrite len_app. change (len (struct.le_bytes 2 (len bs))) with 2.
        change (snd (member_form (binary_property DataTypes.Binary, VBytes bs)))
          with (VBytes bs).
        now rewrite Z.add_assoc.
    + (* Array given with binary_property *)
      contradiction.
Qed.

(** *** Arrays and instances *)

Lemma deserialize_array data element_type offset :
  deserialize_property data (array_binary_property element_type) offset
  = (arrlen <- struct.unpack_from struct.fmt_H data offset ;;
     let arrlen := match arrlen with VInt n => n | _ => 0 end in
     let offset := offset + 2 in
     r <- read_times (_deserialize data element_type) (Z.to_nat arrlen) offset ;;
     Ok (VList (fst r), snd r)).
Proof. reflexivity. Qed.

Lemma _deserialize_unfold data type offset :
  _deserialize data type offset
  = (_ <- instantiate type ;;
     r <- read_all (read_member data) (__binary_struct__ type) offset ;;
     Ok (VObject (fst r), snd r)).
Proof. reflexivity. Qed.

Lemma decoded_form_object members :
  decoded_form (VObject members) = VObject (map member_form members).
Proof. reflexivity. Qed.

Lemma callable_instantiate type : callable type = true -> instantiate type = Ok tt.
Proof.
  unfold callable, instantiate. intros H. apply andb_true_iff in H as [H _].
  destruct (required type); [reflexivity|discriminate].
Qed.

Lemma extend_all_cons {A} (f : A -> result (list Z)) a l :
  extend_all f (a :: l) = (bs <- f a ;; rest <- extend_all f l ;; Ok (bs ++ rest)).
Proof. reflexivity. Qed.

Lemma read_all_cons {A B} (f : A -> Z -> result (B * Z)) a l offset :
  read_all f (a :: l) offset
  = (r <- f a offset ;; rs <- read_all f l (snd r) ;; Ok (fst r :: fst rs, snd rs)).
Proof. reflexivity. Qed.

Lemma read_times_S {B} (f : Z -> result (B * Z)) n offset :
  read_times f (S n) offset
  = (r <- f offset ;; rs <- read_times f n (snd r) ;; Ok (fst r :: fst rs, snd rs)).
Proof. reflexivity. Qed.

Lemma codec_mutual :
  (forall p x, conforms_prop p x ->
     float_free p = true -> default_init p = true ->
     exists bs,
       serialize_property serialize p x = Ok bs /\ bytes bs /\ reads_back p x bs) /\
  (forall element_type items, conforms_items element_type items ->
     without_floats element_type = true -> callable element_type = true ->
     exists bs,
       extend_all serialize items = Ok bs /\ bytes bs /\
       forall pre post,
         read_times (_deserialize (pre ++ bs ++ post) element_type)
                    (List.length items) (len pre)
         = Ok (map decoded_form items, len pre + len bs)) /\
  (forall type v, conforms type v ->
     without_floats type = true -> callable type = true ->
     exists bs,
       serialize v = Ok bs /\ bytes bs /\
       forall pre post,
         _deserialize (pre ++ bs ++ post) type (len pre)
         = Ok (decoded_form v, len pre + len bs)) /\
  (forall members, conforms_members members ->
     forallb float_free (map fst members) = true ->
     forallb default_init (map fst members) = true ->
     exists bs,
       extend_all (fun m => serialize_property serialize (fst m) (snd m)) members
       = Ok bs /\ bytes bs /\
       forall pre post,
         read_all (read_member (pre ++ bs ++ post)) (map fst members) (len pre)
         = Ok (map member_form members, len pre + len bs)).
Proof.
  apply conforms_mutual.
  - (* a scalar property *)
    intros type x Hc Hff _. now apply scalar_roundtrip.
  - (* an array property *)
    intros element_type items Hlen _ IH Hff Hinit.
    destruct (IH Hff Hinit) as (body & Hser & Hbytes & Hread).
    pose proof (len_nonneg items).
    exists (struct.le_bytes 2 (len items) ++ body). split; [|split].
    + change (serialize_property serialize (array_binary_property element_type)
                                 (VList items))
        with (hdr <- struct.pack struct.fmt_H (VInt (len items)) ;;
              body <- extend_all serialize items ;;
              Ok (hdr ++ body)).
      rewrite pack_H by lia. cbn [bind]. now rewrite Hser.
    + apply Forall_app. split; [apply le_bytes_are_bytes|assumption].
    + intros pre post. rewrite deserialize_array, <- app_assoc.
      rewrite unpack_H by lia. cbn [bind]. cbv zeta.
      replace (Z.to_nat (len items)) with (List.length items) by (unfold len; lia).
      rewrite (app_assoc pre).
      change (len pre + 2) with (len pre + len (struct.le_bytes 2 (len items))).
      rewrite <- len_app.
      rewrite Hread. cbn [bind fst snd].
      rewrite !len_app. now rewrite Z.add_assoc.
  - (* no item *)
    intros element_type _ _. exists []. split; [reflexivity|]. split; [constructor|].
    intros pre post. cbn [List.length read_times map].
    change (len []) with 0. now rewrite Z.add_0_r.
  - (* an item and the rest *)
    intros element_type it items _ IH1 _ IH2 Hff Hinit.
    destruct (IH1 Hff Hinit) as (b1 & Hser1 & Hbytes1 & Hread1).
    destruct (IH2 Hff Hinit) as (b2 & Hser2 & Hbytes2 & Hread2).
    exists (b1 ++ b2). split; [|split].
    + rewrite extend_all_cons, Hser1. cbn [bind]. now rewrite Hser2.
    + now apply Forall_app.
    + intros pre post. cbn [List.length map].
      rewrite read_times_S, <- app_assoc, Hread1. cbn [bind fst snd].
      rewrite (app_assoc pre), <- len_app.
      rewrite Hread2. cbn [bind fst snd].
      rewrite !len_app. now rewrite Z.add_assoc.
  - (* an instance *)
    intros required members _ IH Hff Hinit.
    pose proof (callable_instantiate _ Hinit) as Hcall.
    unfold callable in Hinit. apply andb_true_iff in Hinit as [_ Hinit].
    destruct (IH Hff Hinit) as (bs & Hser & Hbytes & Hread).
    exists bs. split; [|split; [assumption|]].
    + exact Hser.
    + intros pre post. rewrite _deserialize_unfold, Hcall. cbn [bind __binary_struct__].
      rewrite Hread. cbn [bind fst snd].
      now rewrite decoded_form_object.
  - (* no property *)
    intros _ _. exists []. split; [reflexivity|]. split; [constructor|].
    intros pre post. cbn [map read_all].
    change (len []) with 0. now rewrite Z.add_0_r.
  - (* a property and the rest *)
    intros p x members _ IH1 _ IH2 Hff Hinit.
    cbn [map fst forallb] in Hff, Hinit.
    apply andb_true_iff in Hff as [Hff1 Hff2].
    apply andb_true_iff in Hinit as [Hinit1 Hinit2].
    destruct (IH1 Hff1 Hinit1) as (b1 & Hser1 & Hbytes1 & Hread1).
    destruct (IH2 Hff2 Hinit2) as (b2 & Hser2 & Hbytes2 & Hread2).
    exists (b1 ++ b2). split; [|split].
    + rewrite extend_all_cons. cbn [fst snd]. rewrite Hser1. cbn [bind].
      now rewrite Hser2.
    + now apply Forall_app.
    + intros pre post. cbn [map fst].
      rewrite read_all_cons. unfold read_member at 1. rewrite <- app_assoc.
      rewrite (Hread1 pre (b2 ++ post)). cbn [bind fst snd].
      rewrite (app_assoc pre), <- len_app.
      rewrite Hread2. cbn [bind fst snd].
      rewrite !len_app. now rewrite Z.add_assoc.
Qed.

Lemma deserialize_whole bs type v :
  bytes bs -> _deserialize bs type 0 = Ok (v, len bs) ->
  deserialize (VBytes bs) type = Ok v.
Proof.
  intros Hb Hd. unfold deserialize, array_B. cbn [ints_of bind].
  apply forallb_is_byte in Hb. rewrite Hb. cbn [bind]. now rewrite Hd.
Qed.

End Codec.

(** C5 (fails on the code): the bytes of an instance are not always read
    back as the instance.  [_deserialize] calls the class without arguments,
    so for [Equipment], whose [__init__] needs three, it raises [TypeError]
    on the bytes [serialize] made of an [Equipment]; and it sets a String
    property to the decoded text, not to the byte string that was
    serialized: the object read from the bytes of the test object is one
    that [serialize] refuses with [TypeError]. *)
Theorem roundtrip_raises_TypeError :
  (forall builtins : Builtins,
      BinaryFormatter.serialize equipment_TCK = Ok [1; 0; 84; 1; 0; 67; 1; 0; 75] /\
      BinaryFormatter.deserialize (VBytes [1; 0; 84; 1; 0; 67; 1; 0; 75]) Equipment.cls
      = Raise TypeError) /\
  let sent := test_object (VBytes [97; 98; 99]) (VBytes (uuid.bytes test_guid)) in
  let read := test_object (VText [97; 98; 99]) (VUuid test_guid) in
  BinaryFormatter.serialize sent = Ok test_binary /\
  BinaryFormatter.deserialize (VBytes test_binary) _TestObject = Ok read /\
  BinaryFormatter.serialize read = Raise TypeError.
Proof.
  split; [intros builtins; split; reflexivity|].
  intros sent read.
  split; [vm_compute; reflexivity|]. split; vm_compute; reflexivity.
Qed.

Ltac in_bounds := split; [apply Z.leb_le | apply Z.ltb_lt]; reflexivity.

Ltac conformant :=
  repeat first
    [ apply conforms_members_nil
    | apply conforms_members_cons
    | apply conforms_items_nil
    | apply conforms_items_cons
    | apply conforms_array
    | apply conforms_binary
    | match goal with
      | |- conforms (new_class ?r _) (VObject ?ms) => refine (conforms_object r ms _)
      end
    | apply Z.leb_le; reflexivity
    | left; eexists; split; [reflexivity | in_bounds]
    | right; eexists; split; [reflexivity|]; split;
      [reflexivity | apply uuid_bytes_are_bytes]
    | eexists; split; [reflexivity | in_bounds]
    | eexists; split; [reflexivity|]; split; [apply Z.leb_le; reflexivity|]; split;
      [repeat constructor; lia | reflexivity]
    | eexists; reflexivity ].

Lemma test_object_conforms :
  @conforms test_builtins _TestObject
            (test_object (VBytes [97; 98; 99]) (VBytes (uuid.bytes test_guid))).
Proof.
  unfold test_object, sub_object, _TestObject, _SubObject.
  cbn [combine __binary_struct__].
  conformant.
Defined.

(** The round trip of the formatter, for a class without Single and Double
    properties that, like the element classes of its arrays, can be called
    without arguments: for every conformant instance [v] (numbers in the
    range of their type, Strings and Binaries of at most 65535 bytes, Guids
    as [uuid.UUID] or as sixteen bytes, arrays of at most 65535 instances of
    their element class) [serialize] succeeds, deserializing its bytes
    gives [v] with every Guid as the [uuid.UUID] of the bytes that were
    written and every String as the text of its bytes, and the inner
    [_deserialize] stops at the offset [len(serialize(v))]. *)
Theorem codec_roundtrip {builtins : Builtins} (S : class) (v : value) :
  conforms S v ->
  without_floats S = true ->
  callable S = true ->
  exists bs,
    BinaryFormatter.serialize v = Ok bs /\
    BinaryFormatter._deserialize bs S 0 = Ok (decoded_form v, len bs) /\
    BinaryFormatter.deserialize (VBytes bs) S = Ok (decoded_form v).
Proof.
  intros Hc Hff Hinit.
  destruct codec_mutual as (_ & _ & Hobj & _).
  destruct (Hobj S v Hc Hff Hinit) as (bs & Hser & Hbytes & Hread).
  specialize (Hread [] []). rewrite app_nil_r in Hread.
  cbn [app] in Hread. change (len (@nil Z)) with 0 in Hread.
  rewrite Z.add_0_l in Hread.
  exists bs. split; [assumption|]. split; [assumption|].
  now apply deserialize_whole.
Qed.

Lemma codec_roundtrip_witness :
  let v := test_object (VBytes [97; 98; 99]) (VBytes (uuid.bytes test_guid)) in
  exists bs,
    BinaryFormatter.serialize v = Ok bs /\
    BinaryFormatter._deserialize bs _TestObject 0 = Ok (decoded_form v, len bs) /\
    BinaryFormatter.deserialize (VBytes bs) _TestObject = Ok (decoded_form v).
Proof.
  exact (@codec_roundtrip test_builtins _TestObject _ test_object_conforms
                          eq_refl eq_refl).
Defined.

(** C7 (fails on the code): no [BinarySerializationError] can be built, let
    alone raised.  Its [__init__] reaches [BinaryFormatterError.__init__],
    which names the undefined [BinarySerializerError]; so an object without
    [__binary_struct__], and a Guid property holding a sequence of three
    bytes, make [serialize] raise [NameError]. *)
Theorem serialize_raises_NameError {builtins : Builtins} :
  new_BinarySerializationError = Raise (NameError "BinarySerializerError") /\
  BinaryFormatter.serialize (VInt 5) = Raise (NameError "BinarySerializerError") /\
  BinaryFormatter.serialize
    (VObject [(binary_property DataTypes.Guid, VBytes [1; 2; 3])])
  = Raise (NameError "BinarySerializerError").
Proof. repeat split; reflexivity. Qed.

(** ** Dynamic classes *)

Section Registration.

Import AutoClassFactory BinaryFactory.

(** *** AutoClassFactoryTest *)

Example test_auto_class :
  generate (Command.make 100 "CommandName"
              [ Parameters.make (Parameters.type_constant DataTypes.Word) "property1";
                Parameters.make (Parameters.type_constant DataTypes.Byte) "property2" ])
  = Ok (AutoClassFactory.make "CommandNameClass"
          [ ("__binary_struct__",
             member_list
               [ make_property (Parameters.type_constant DataTypes.Word) "_property1";
                 make_property (Parameters.type_constant DataTypes.Byte) "_property2" ]);
            ("_property1", member_None);
            ("property1",
             member_property
               (make_property (Parameters.type_constant DataTypes.Word) "_property1"));
            ("_property2", member_None);
            ("property2",
             member_property
               (make_property (Parameters.type_constant DataTypes.Byte) "_property2"))
          ]%string).
Proof. reflexivity. Qed.

Lemma contains_setitem_other name name' cls command_map :
  name <> name' ->
  contains name (setitem name' cls command_map) = contains name command_map.
Proof.
  intros Hne. unfold setitem.
  destruct (contains name' command_map).
  - unfold contains. induction command_map as [|[k v] m IH]; [reflexivity|].
    cbn [map existsb fst]. rewrite IH.
    destruct (String.eqb name' k) eqn:E; cbn [fst]; reflexivity.
  - unfold contains. rewrite existsb_app. cbn [existsb fst].
    apply String.eqb_neq in Hne. now rewrite Hne, !orb_false_r.
Qed.

End Registration.

(** C8 (fails on the code): a registration record read from the wire is
    never rejected for an Array parameter.  [generate] compares the [type]
    of a parameter with the constant [DataTypes.Array]; [deserialize] sets
    it to the integer of the byte it reads, and the integer 15 is not equal
    to the constant of value 15.  So the record below, whose command [Scan]
    declares the parameter [xs] of type tag 15, is registered: a class is
    made for [Scan] and the registration completes.  The rejection is met
    only by a record built with the constant itself, and not even then when
    a parameter before the Array is named [__binary_struct__]:
    [AttributeError] is raised instead. *)
Theorem registration_accepts_array :
  let data :=
    [ 0; 0; 0; 0; 0; 0; 0; 0; 0; 0; 0; 0; 0; 0; 0; 0;
      0; 0; 0; 0; 0; 0; 0; 0;
      0; 0; 0; 0;
      1; 0; 101; 0; 4; 0; 83; 99; 97; 110;
      1; 0; 15; 2; 0; 120; 115 ] in
  let xs := Parameters.make (Parameters.type_int 15) "xs" in
  let scan := Command.make 101 "Scan" [xs] in
  let reg := DeviceRegistration.make 0 "" "" "" "" [] [] [scan] in
  let ScanClass :=
    AutoClassFactory.make "ScanClass"
      [ ("__binary_struct__"%string,
         AutoClassFactory.member_list [property_of xs]);
        ("_xs"%string, AutoClassFactory.member_None);
        ("xs"%string, AutoClassFactory.member_property (property_of xs)) ] in
  DataTypes.value DataTypes.Array = 15 /\
  (exists obj,
      @BinaryFormatter.deserialize test_builtins (VBytes data) DeviceRegistration.cls
      = Ok obj /\
      DeviceRegistration_of obj = Some reg) /\
  AutoClassFactory.generate scan = Ok ScanClass /\
  BinaryFactory.handle_registration_request reg (BinaryFactory.make [] false)
  = Returns tt (BinaryFactory.make [("Scan"%string, ScanClass)] true) /\
  AutoClassFactory.generate
    (Command.make 101 "Scan" [Parameters.make (Parameters.type_constant DataTypes.Array) "xs"])
  = Raise NotImplementedError /\
  AutoClassFactory.generate
    (Command.make 101 "Scan"
       [ Parameters.make (Parameters.type_constant DataTypes.Word) "__binary_struct__";
         Parameters.make (Parameters.type_constant DataTypes.Array) "xs" ])
  = Raise AttributeError.
Proof.
  intros data xs scan reg ScanClass.
  split; [reflexivity|]. split.
  - eexists. split; [vm_compute; reflexivity|]. vm_compute. reflexivity.
  - repeat split; reflexivity.
Qed.

(** ** What resynchronisation keeps and drops *)

Section Resync.

Import BinaryPacketBuffer.

Lemma skip_pass_suffix data :
  exists junk, data = junk ++ match skip_pass data with Done d => d | Again d => d end.
Proof.
  assert (forall k, exists junk, data = junk ++ del_prefix k data) as Hdel.
  { intros k. exists (firstn (Z.to_nat k) data). unfold del_prefix.
    symmetry. apply firstn_skipn. }
  assert (exists junk, data = junk ++ []) as Hnil
    by (exists data; now rewrite app_nil_r).
  assert (exists junk, data = junk ++ data) as Hall by now exists [].
  unfold skip_pass.
  repeat match goal with
  | |- context [if ?b then _ else _] => destruct b
  | |- context [match ?o with Some _ => _ | None => _ end] => destruct o
  end; auto.
Qed.

Lemma skip_suffix_of data :
  exists junk, data = junk ++ _skip_to_next_packet data.
Proof.
  remember (List.length data) as n eqn:Hn.
  revert data Hn. induction n as [n IH] using lt_wf_ind. intros data ->.
  rewrite skip_unfold. destruct (skip_pass_suffix data) as [junk Hj].
  destruct (skip_pass data) as [d|d] eqn:E.
  - now exists junk.
  - apply skip_pass_shrinks in E.
    destruct (IH _ E d eq_refl) as [junk' Hj'].
    exists (junk ++ junk'). now rewrite <- app_assoc, <- Hj'.
Qed.

Lemma skip_pass_stops d :
  invariant d \/ index PACKET_SIGNATURE_HI d = Some (len d - 2) ->
  skip_pass d = Done d.
Proof.
  intros [Hinv | Hidx].
  - destruct d as [|b0 [|b1 rest]]; cbn in Hinv.
    + reflexivity.
    + subst b0. reflexivity.
    + destruct Hinv as [-> ->]. unfold skip_pass. rewrite !len_cons.
      pose proof (len_nonneg rest).
      destruct (Z.ltb_spec 1 (1 + (1 + len rest))); [|lia]. reflexivity.
  - pose proof (index_nonneg _ _ _ Hidx) as H0.
    unfold skip_pass. destruct (Z.ltb_spec 1 (len d)); [|lia].
    destruct (_ && _); [reflexivity|].
    rewrite Hidx.
    destruct (Z.eqb_spec (len d - 2) (len d - 1)); [lia|].
    destruct (Z.ltb_spec (len d - 2) (len d - 2)); [lia|]. reflexivity.
Qed.

Lemma skip_stops data :
  skip_pass (_skip_to_next_packet data) = Done (_skip_to_next_packet data).
Proof.
  remember (List.length data) as n eqn:Hn.
  revert data Hn. induction n as [n IH] using lt_wf_ind. intros data ->.
  rewrite skip_unfold.
  destruct (skip_pass data) as [d|d] eqn:E.
  - apply skip_pass_stops. now apply skip_pass_done in E.
  - apply skip_pass_shrinks in E. exact (IH _ E d eq_refl).
Qed.

Lemma item_cons x t i : 0 <= i -> item (x :: t) (i + 1) = item t i.
Proof.
  intros Hi. unfold item. replace (Z.to_nat (i + 1)) with (S (Z.to_nat i)) by lia.
  reflexivity.
Qed.

Lemma del_prefix_cons x (t : list Z) i :
  0 <= i -> del_prefix (i + 1) (x :: t) = del_prefix i t.
Proof.
  intros Hi. unfold del_prefix.
  replace (Z.to_nat (i + 1)) with (S (Z.to_nat i)) by lia. reflexivity.
Qed.

(** A byte that does not begin a signature, in front of at least three
    more bytes, is dropped. *)
Lemma index_first x p q i : index x (p ++ x :: q) = Some i -> i <= len p.
Proof.
  revert i. induction p as [|y p IH]; intros i; cbn [app index].
  - rewrite Z.eqb_refl. intros [= <-]. apply len_nonneg.
  - rewrite len_cons. pose proof (len_nonneg p).
    destruct (y =? x); [intros [= <-]; lia|].
    destruct (index x (p ++ x :: q)) as [j|]; [|discriminate].
    intros [= <-]. specialize (IH j eq_refl). lia.
Qed.

Lemma skip_cons x t :
  2 < len t ->
  (forall i, index PACKET_SIGNATURE_HI t = Some i -> i < len t - 2) ->
  ~ (x = PACKET_SIGNATURE_HI /\ item t 0 = PACKET_SIGNATURE_LO) ->
  _skip_to_next_packet (x :: t) = _skip_to_next_packet t.
Proof.
  intros Hlen Hfar Hno.
  rewrite (skip_unfold (x :: t)). unfold skip_pass at 1.
  rewrite len_cons.
  destruct (Z.ltb_spec 1 (1 + len t)); [|lia].
  change (item (x :: t) 0) with x. change (item (x :: t) 1) with (item t 0).
  destruct ((x =? PACKET_SIGNATURE_HI) && (item t 0 =? PACKET_SIGNATURE_LO)) eqn:Hsig.
  { apply andb_true_iff in Hsig as [Ha Hb]. apply Z.eqb_eq in Ha, Hb. tauto. }
  cbn [index].
  destruct (Z.eqb_spec x PACKET_SIGNATURE_HI) as [Hx|Hx].
  - destruct (Z.eqb_spec 0 (1 + len t - 1)); [lia|].
    destruct (Z.ltb_spec 0 (1 + len t - 2)); [|lia].
    change (0 + 1) with 1. change (item (x :: t) 1) with (item t 0).
    destruct (Z.eqb_spec (item t 0) PACKET_SIGNATURE_LO); [tauto|].
    reflexivity.
  - rewrite (skip_unfold t). unfold skip_pass.
    destruct (Z.ltb_spec 1 (len t)); [|lia].
    destruct (index PACKET_SIGNATURE_HI t) as [i|] eqn:Hidx.
    + pose proof (index_nonneg _ _ _ Hidx) as Hi0.
      pose proof (index_item _ _ _ Hidx) as Hitem.
      specialize (Hfar i eq_refl).
      rewrite (item_cons x t (i + 1)), !del_prefix_cons by lia.
      replace (i + 1 =? 1 + len t - 1) with (i =? len t - 1)
        by (destruct (Z.eqb_spec i (len t - 1)), (Z.eqb_spec (i + 1) (1 + len t - 1)); lia).
      replace (i + 1 <? 1 + len t - 2) with (i <? len t - 2)
        by (destruct (Z.ltb_spec i (len t - 2)), (Z.ltb_spec (i + 1) (1 + len t - 2)); lia).
      destruct ((item t 0 =? PACKET_SIGNATURE_HI) && (item t 1 =? PACKET_SIGNATURE_LO))
        eqn:Hsig'.
      * apply andb_true_iff in Hsig' as [Ha Hb]. apply Z.eqb_eq in Ha, Hb.
        assert (i = 0) as ->.
        { destruct t as [|y t']; [discriminate|]. cbn [index] in Hidx.
          change (item (y :: t') 0) with y in Ha. rewrite Ha, Z.eqb_refl in Hidx.
          now injection Hidx. }
        destruct (Z.eqb_spec 0 (len t - 1)); [lia|].
        destruct (Z.ltb_spec 0 (len t - 2)); [|lia].
        change (0 + 1) with 1. rewrite Hb, Z.eqb_refl. reflexivity.
      * destruct (Z.eqb_spec i (len t - 1)); [lia|].
        destruct (Z.ltb_spec i (len t - 2)); [|lia]. reflexivity.
    + destruct ((item t 0 =? PACKET_SIGNATURE_HI) && (item t 1 =? PACKET_SIGNATURE_LO))
        eqn:Hsig2; [|reflexivity].
      apply andb_true_iff in Hsig2 as [Ha _]. apply Z.eqb_eq in Ha.
      destruct t as [|y t']; [discriminate|]. cbn [index] in Hidx.
      change (item (y :: t') 0) with y in Ha. rewrite Ha, Z.eqb_refl in Hidx.
      discriminate.
Qed.

Lemma skip_junk junk :
  forall b rest,
    has_signature junk = false ->
    _skip_to_next_packet (junk ++ PACKET_SIGNATURE_HI :: PACKET_SIGNATURE_LO :: b :: rest)
    = PACKET_SIGNATURE_HI :: PACKET_SIGNATURE_LO :: b :: rest.
Proof.
  induction junk as [|x junk IH]; intros b rest Hno.
  - apply skip_signed.
  - cbn [app]. rewrite skip_cons.
    + apply IH. cbn [has_signature] in Hno. destruct junk as [|y junk]; [reflexivity|].
      now apply orb_false_iff in Hno as [_ Hno].
    + rewrite len_app, !len_cons. pose proof (len_nonneg junk). pose proof (len_nonneg rest). lia.
    + intros i Hi. apply index_first in Hi.
      rewrite len_app, !len_cons. pose proof (len_nonneg rest). lia.
    + intros [Hx Hy]. destruct junk as [|y junk].
      * cbn in Hy. discriminate.
      * cbn [has_signature] in Hno. apply orb_false_iff in Hno as [Hno _].
        change (item ((y :: junk) ++ _) 0) with y in Hy.
        subst x y. discriminate.
Qed.

End Resync.

(** Resynchronisation only drops a prefix: what it leaves is the end of
    the buffer, nothing added, changed or reordered. *)
Theorem skip_drops_prefix (data : list Z) :
  exists junk, data = junk ++ BinaryPacketBuffer._skip_to_next_packet data.
Proof. apply skip_suffix_of. Qed.

(** Resynchronising a resynchronised buffer changes nothing. *)
Theorem skip_idempotent (data : list Z) :
  BinaryPacketBuffer._skip_to_next_packet (BinaryPacketBuffer._skip_to_next_packet data)
  = BinaryPacketBuffer._skip_to_next_packet data.
Proof.
  rewrite (BinaryPacketBuffer.skip_unfold (BinaryPacketBuffer._skip_to_next_packet data)).
  now rewrite skip_stops.
Qed.

(** Junk in front of a signature that is followed by at least one more
    byte is dropped entirely: the buffer is left starting with the first
    signature. *)
Theorem skip_finds_signature (junk : list Z) (b : Z) (rest : list Z) :
  has_signature junk = false ->
  BinaryPacketBuffer._skip_to_next_packet
    (junk ++ PACKET_SIGNATURE_HI :: PACKET_SIGNATURE_LO :: b :: rest)
  = PACKET_SIGNATURE_HI :: PACKET_SIGNATURE_LO :: b :: rest.
Proof. apply skip_junk. Qed.

Lemma skip_finds_signature_witness :
  BinaryPacketBuffer._skip_to_next_packet
    ([99; 0xc5; 96; 0xc3; 0xc5] ++ PACKET_SIGNATURE_HI :: PACKET_SIGNATURE_LO :: 2 :: [3])
  = PACKET_SIGNATURE_HI :: PACKET_SIGNATURE_LO :: 2 :: [3].
Proof. exact (skip_finds_signature [99; 0xc5; 96; 0xc3; 0xc5] 2 [3] eq_refl). Defined.

(** ** Decoding frames *)

Section Decoding.

Import BinaryMessage.

(** What [from_binary] has checked when it returns a frame. *)
Lemma from_binary_inv bs m :
  from_binary bs = Ok m ->
  let pl := Z.lor (Z.shiftl (Z.land (item bs 5) 0xff) 8) (Z.land (item bs 4) 0xff) in
  9 + pl <= len bs /\
  Z.lor (Z.shiftl (Z.land (item bs 0) 0xff) 8) (Z.land (item bs 1) 0xff)
  = PACKET_SIGNATURE /\
  forallb is_byte (slice bs 8 (8 + pl)) = true /\
  Z.land (sum (slice bs 0 (8 + pl + 1))) 0xff = 0xff /\
  m = make PACKET_SIGNATURE (item bs 2) (item bs 3)
        (Z.lor (Z.shiftl (Z.land (item bs 7) 0xff) 8) (Z.land (item bs 6) 0xff))
        (slice bs 8 (8 + pl)).
Proof.
  unfold from_binary.
  unfold PACKET_OFFSET_SIGN_MSB, PACKET_OFFSET_SIGN_LSB, PACKET_OFFSET_VERSION,
    PACKET_OFFSET_FLAGS, PACKET_OFFSET_LEN_LSB, PACKET_OFFSET_LEN_MSB,
    PACKET_OFFSET_INTENT_LSB, PACKET_OFFSET_INTENT_MSB, PACKET_OFFSET_DATA,
    EMPTY_PACKET_LENGTH.
  intros H.
  set (pl := Z.lor (Z.shiftl (Z.land (item bs 5) 255) 8) (Z.land (item bs 4) 255)) in *.
  destruct (Z.ltb_spec (len bs) 9) as [|H9]; [discriminate|].
  destruct (Z.eqb_spec (Z.lor (Z.shiftl (Z.land (item bs 0) 255) 8) (Z.land (item bs 1) 255))
                       PACKET_SIGNATURE) as [Hs|Hs]; [|discriminate].
  cbn [negb] in H.
  destruct (Z.ltb_spec (len bs) (9 + pl)) as [|Hpl]; [discriminate|].
  unfold bytearray in H.
  destruct (forallb is_byte (slice bs 8 (8 + pl))) eqn:Hb; [|discriminate].
  cbn [bind] in H.
  destruct (Z.eqb_spec 255 (Z.land (sum (slice bs 0 (8 + pl + 1))) 255)) as [Hc|Hc];
    [|discriminate].
  cbn [negb] in H. injection H as <-.
  split; [exact Hpl|]. split; [exact Hs|]. split; [reflexivity|].
  split; [now symmetry|]. rewrite <- Hs. reflexivity.
Qed.

Lemma firstn_snoc (l : list Z) k :
  (k < List.length l)%nat -> firstn (S k) l = firstn k l ++ [nth k l 0].
Proof.
  revert k. induction l as [|x l IH]; intros k Hk; [cbn in Hk; lia|].
  destruct k; [reflexivity|]. cbn [firstn nth app]. f_equal. apply IH.
  cbn [List.length] in Hk. lia.
Qed.

Lemma split_at (l : list Z) k :
  (k < List.length l)%nat -> l = (firstn k l ++ [nth k l 0]) ++ skipn (S k) l.
Proof.
  intros Hk. rewrite <- firstn_snoc by assumption. symmetry. apply firstn_skipn.
Qed.

Lemma word_range hi lo :
  0 <= hi < 256 -> 0 <= lo < 256 ->
  Z.lor (Z.shiftl (Z.land hi 0xff) 8) (Z.land lo 0xff) = hi * 256 + lo.
Proof.
  intros Hhi Hlo. rewrite !land_255, !Z.mod_small by lia.
  now rewrite lor_shiftl by (cbn; lia).
Qed.

(** Re-encoding a decoded frame: the frame [from_binary] returns is
    well formed, and its wire form is the part of the input that was read. *)
Lemma decode_wire bs m :
  bytes bs -> from_binary bs = Ok m ->
  wellformed m /\ exists rest, bs = wire m ++ rest.
Proof.
  intros Hbytes Hdec. apply from_binary_inv in Hdec. cbv zeta in Hdec.
  destruct Hdec as (Hlen & Hsig & Hdata & Hsum & ->).
  assert (0 <= Z.lor (Z.shiftl (Z.land (item bs 5) 255) 8) (Z.land (item bs 4) 255)) as Hpl0.
  { apply Z.lor_nonneg. split; [apply Z.shiftl_nonneg|]; apply Z.land_nonneg; right; lia. }
  do 8 (destruct bs as [|? bs]; [unfold len in Hlen; cbn [List.length] in Hlen; lia|]).
  rename z into b0, z0 into b1, z1 into b2, z2 into b3, z3 into b4, z4 into b5,
    z5 into b6, z6 into b7.
  set (l := b0 :: b1 :: b2 :: b3 :: b4 :: b5 :: b6 :: b7 :: bs) in *.
  change (item l 0) with b0 in *. change (item l 1) with b1 in *.
  change (item l 2) with b2 in *. change (item l 3) with b3 in *.
  change (item l 4) with b4 in *. change (item l 5) with b5 in *.
  change (item l 6) with b6 in *. change (item l 7) with b7 in *.
  subst l.
  repeat match goal with
         | H : Forall _ (_ :: _) |- _ => inversion H; clear H; subst
         end.
  rewrite !word_range in * by assumption.
  assert (b0 = 0xc5 /\ b1 = 0xc3) as [-> ->] by (unfold PACKET_SIGNATURE in Hsig; lia).
  clear Hsig.
  set (pl := b5 * 256 + b4) in *.
  assert (0 <= pl <= 65535) as Hplr by (unfold pl; lia).
  rewrite !len_cons in Hlen.
  assert (slice (197 :: 195 :: b2 :: b3 :: b4 :: b5 :: b6 :: b7 :: bs) 8 (8 + pl)
          = firstn (Z.to_nat pl) bs) as Hslice.
  { unfold slice. change (Z.to_nat 8) with 8%nat. cbn [skipn]. f_equal. lia. }
  rewrite Hslice in *.
  assert (Z.to_nat pl < List.length bs)%nat as Hk by (unfold len in Hlen; lia).
  assert (slice (197 :: 195 :: b2 :: b3 :: b4 :: b5 :: b6 :: b7 :: bs) 0 (8 + pl + 1)
          = [197; 195; b2; b3; b4; b5; b6; b7]
            ++ firstn (Z.to_nat pl) bs ++ [nth (Z.to_nat pl) bs 0]) as Hall.
  { unfold slice. change (Z.to_nat 0) with 0%nat. cbn [skipn].
    change (197 :: 195 :: b2 :: b3 :: b4 :: b5 :: b6 :: b7 :: bs)
      with ([197; 195; b2; b3; b4; b5; b6; b7] ++ bs).
    set (hdr := [197; 195; b2; b3; b4; b5; b6; b7]).
    replace (Z.to_nat (8 + pl + 1 - 0)) with (List.length hdr + S (Z.to_nat pl))%nat
      by (subst hdr; cbn [List.length]; lia).
    now rewrite firstn_app_2, firstn_snoc. }
  rewrite Hall in Hsum. clear Hall.
  set (payload := firstn (Z.to_nat pl) bs) in *.
  assert (len payload = pl) as Hpayload.
  { unfold payload, len. rewrite firstn_length_le; lia. }
  assert (0 <= nth (Z.to_nat pl) bs 0 < 256) as Hc.
  { match goal with H : Forall _ bs |- _ => rewrite Forall_forall in H; apply H end.
    now apply nth_In. }
  set (c := nth (Z.to_nat pl) bs 0) in *.
  set (f := make PACKET_SIGNATURE b2 b3 (b7 * 256 + b6) payload).
  assert (wire f = [197; 195; b2; b3; b4; b5; b6; b7] ++ payload ++ [c]) as Hwire.
  { assert (Z.land pl 0xff = b4) as E4
      by (rewrite land_255; unfold pl; Z.div_mod_to_equations; lia).
    assert (Z.shiftr (Z.land pl 0xff00) 8 = b5) as E5
      by (rewrite high_byte; unfold pl; Z.div_mod_to_equations; lia).
    assert (Z.land (b7 * 256 + b6) 0xff = b6) as E6
      by (rewrite land_255; Z.div_mod_to_equations; lia).
    assert (Z.shiftr (Z.land (b7 * 256 + b6) 0xff00) 8 = b7) as E7
      by (rewrite high_byte; Z.div_mod_to_equations; lia).
    assert (checksum f = c) as Ec.
    { unfold checksum, f. cbn [signature version flags intent data length].
      unfold length. cbn [data]. rewrite Hpayload.
      rewrite !sum_app, !sum_cons in Hsum. change (sum []) with 0 in Hsum.
      rewrite !high_byte, !land_255 in *. unfold PACKET_SIGNATURE.
      revert Hsum. unfold pl. generalize (sum payload). intros d Hsum.
      Z.div_mod_to_equations. lia. }
    unfold wire. rewrite Ec. unfold f.
    cbn [signature version flags intent data length].
    unfold length. cbn [data]. rewrite Hpayload, E4, E5, E6, E7.
    rewrite (byte_field b2), (byte_field b3) by lia. reflexivity. }
  split.
  - unfold wellformed, f. cbn [signature version flags intent data length].
    unfold length. cbn [data]. rewrite Hpayload.
    repeat split; try lia.
    apply forallb_is_byte. exact Hdata.
  - exists (skipn (S (Z.to_nat pl)) bs). rewrite Hwire.
    cbn [app]. do 8 f_equal.
    now apply split_at.
Qed.

End Decoding.

Section Masking.

Import BinaryMessage.

Lemma land_65535 x : Z.land x 0xffff = x mod 65536.
Proof. change 0xffff with (Z.ones 16). now rewrite Z.land_ones by lia. Qed.

Lemma checksum_masked f : checksum (masked f) = checksum f.
Proof.
  unfold checksum, masked, length. cbn [signature version flags intent data].
  rewrite !high_byte, !land_255, !land_65535.
  generalize (sum (data f)) (signature f) (version f) (flags f) (len (data f)) (intent f).
  intros d sg v fl n it. Z.div_mod_to_equations. lia.
Qed.

Lemma wire_masked f : wire (masked f) = wire f.
Proof.
  unfold wire. rewrite checksum_masked.
  unfold masked, length. cbn [signature version flags intent data].
  rewrite !high_byte, !land_255, !land_65535.
  assert (forall x, (x mod 65536 / 256) mod 256 = (x / 256) mod 256) as Ehi
    by (intros; Z.div_mod_to_equations; lia).
  assert (forall x, (x mod 65536) mod 256 = x mod 256) as Elo
    by (intros; Z.div_mod_to_equations; lia).
  now rewrite !Ehi, !Elo, !Z.mod_mod by lia.
Qed.

Lemma masked_wellformed f :
  bytes (data f) -> length f <= 65535 ->
  Z.land (signature f) 0xffff = PACKET_SIGNATURE ->
  wellformed (masked f).
Proof.
  intros Hd Hl Hs. unfold wellformed, masked, length.
  cbn [signature version flags intent data]. unfold length in Hl.
  rewrite !land_255, !land_65535. rewrite land_65535 in Hs.
  pose proof (Z.mod_pos_bound (version f) 256).
  pose proof (Z.mod_pos_bound (flags f) 256).
  pose proof (Z.mod_pos_bound (intent f) 65536).
  repeat split; try assumption; lia.
Qed.

End Masking.

(** Decoding then encoding: the frame [from_binary] returns from a
    sequence of bytes is well formed, and encoding it gives back the bytes
    that were read, the rest of the input being what follows them. *)
Theorem decode_then_encode (bs : list Z) (m : BinaryMessage.t) :
  bytes bs ->
  BinaryMessage.from_binary bs = Ok m ->
  BinaryMessage.wellformed m /\
  exists enc rest, BinaryMessage.to_binary m = Ok enc /\ bs = enc ++ rest.
Proof.
  intros Hb Hdec. destruct (decode_wire bs m Hb Hdec) as (Hwf & rest & Hbs).
  split; [assumption|]. exists (wire m), rest. split; [|assumption].
  apply to_binary_ok. apply Hwf.
Qed.

Lemma pkt_bytes : bytes (pkt ++ [7; 8]).
Proof. unfold pkt. repeat constructor; lia. Defined.

Lemma decode_then_encode_witness :
  BinaryMessage.from_binary (pkt ++ [7; 8]) = Ok binmsg /\
  BinaryMessage.wellformed binmsg /\
  exists enc rest, BinaryMessage.to_binary binmsg = Ok enc /\ pkt ++ [7; 8] = enc ++ rest.
Proof.
  split; [reflexivity|].
  exact (decode_then_encode (pkt ++ [7; 8]) binmsg pkt_bytes eq_refl).
Defined.

(** Encoding truncates: [to_binary] reduces every header field to its
    width on the wire, so a frame with a payload of at most 65535 bytes
    whose signature is the constant in its low 16 bits is decoded as the
    frame with the reduced fields. *)
Theorem frame_roundtrip_masked (f : BinaryMessage.t) :
  bytes (BinaryMessage.data f) ->
  BinaryMessage.length f <= 65535 ->
  Z.land (BinaryMessage.signature f) 0xffff = PACKET_SIGNATURE ->
  exists bs,
    BinaryMessage.to_binary f = Ok bs /\
    BinaryMessage.from_binary bs = Ok (masked f).
Proof.
  intros Hd Hl Hs. exists (wire f). split; [now apply to_binary_ok|].
  rewrite <- wire_masked, <- (app_nil_r (wire (masked f))).
  apply from_binary_wire. now apply masked_wellformed.
Qed.

Lemma frame_roundtrip_masked_witness :
  let f := BinaryMessage.make 0x1c5c3 0x102 (-1) 0x10004 [1; 2] in
  exists bs,
    BinaryMessage.to_binary f = Ok bs /\
    BinaryMessage.from_binary bs = Ok (BinaryMessage.make 0xc5c3 2 255 4 [1; 2]).
Proof.
  intros f. apply (frame_roundtrip_masked f).
  - repeat constructor; lia.
  - unfold BinaryMessage.length, len. cbn. lia.
  - reflexivity.
Defined.

(** ** Complete packets and the receive loop *)

Section Extension.

Import BinaryMessage BinaryPacketBuffer.

Lemma slice_within (l more : list Z) lo hi :
  0 <= lo -> hi <= len l -> slice (l ++ more) lo hi = slice l lo hi.
Proof.
  intros Hlo Hhi. unfold slice, len in *.
  destruct (Z_le_gt_dec hi lo) as [Hle|Hgt].
  - replace (Z.to_nat (hi - lo)) with 0%nat by lia. reflexivity.
  - rewrite skipn_app, firstn_app.
    replace (Z.to_nat lo - List.length l)%nat with 0%nat by lia.
    cbn [skipn].
    replace (Z.to_nat (hi - lo) - List.length (skipn (Z.to_nat lo) l))%nat with 0%nat
      by (rewrite length_skipn; lia).
    cbn [firstn]. apply app_nil_r.
Qed.

Lemma item_within (l more : list Z) i :
  0 <= i < len l -> item (l ++ more) i = item l i.
Proof. intros Hi. symmetry. now apply (item_prefix l more). Qed.

Lemma payload_len_nonneg hi lo :
  0 <= Z.lor (Z.land (Z.shiftl hi 8) 0xff00) (Z.land lo 0xff).
Proof. apply Z.lor_nonneg; split; apply Z.land_nonneg; right; lia. Qed.

(** What [has_packet] has checked when it answers yes. *)
Lemma has_packet_inv data :
  has_packet data = true ->
  9 + Z.lor (Z.land (Z.shiftl (item data 5) 8) 0xff00) (Z.land (item data 4) 0xff)
  <= len data.
Proof.
  unfold has_packet, EMPTY_PACKET_LENGTH, PACKET_OFFSET_LEN_MSB, PACKET_OFFSET_LEN_LSB.
  destruct (Z.ltb_spec (len data) 9); [discriminate|].
  destruct (Z.ltb_spec (len data)
              (Z.lor (Z.land (Z.shiftl (item data 5) 8) 0xff00)
                     (Z.land (item data 4) 0xff) + 9)); [discriminate|].
  intros _. lia.
Qed.

Lemma has_packet_extend data more :
  has_packet data = true -> has_packet (data ++ more) = true.
Proof.
  intros Hhas. pose proof (has_packet_inv data Hhas) as Hlen.
  pose proof (payload_len_nonneg (item data 5) (item data 4)).
  unfold has_packet, EMPTY_PACKET_LENGTH, PACKET_OFFSET_LEN_MSB, PACKET_OFFSET_LEN_LSB.
  rewrite !item_within by lia. rewrite len_app. pose proof (len_nonneg more).
  destruct (Z.ltb_spec (len data + len more) 9); [lia|].
  destruct (Z.ltb_spec (len data + len more)
              (Z.lor (Z.land (Z.shiftl (item data 5) 8) 0xff00)
                     (Z.land (item data 4) 0xff) + 9)); [lia|].
  reflexivity.
Qed.

Lemma from_binary_extend data more :
  has_packet data = true -> from_binary (data ++ more) = from_binary data.
Proof.
  intros Hhas. pose proof (has_packet_inv data Hhas) as Hlen.
  pose proof (payload_len_nonneg (item data 5) (item data 4)) as Hpl.
  rewrite shiftl_land_swap in Hlen, Hpl.
  unfold from_binary.
  unfold PACKET_OFFSET_SIGN_MSB, PACKET_OFFSET_SIGN_LSB, PACKET_OFFSET_VERSION,
    PACKET_OFFSET_FLAGS, PACKET_OFFSET_LEN_LSB, PACKET_OFFSET_LEN_MSB,
    PACKET_OFFSET_INTENT_LSB, PACKET_OFFSET_INTENT_MSB, PACKET_OFFSET_DATA,
    EMPTY_PACKET_LENGTH.
  rewrite !item_within by lia.
  set (pl := Z.lor (Z.shiftl (Z.land (item data 5) 255) 8) (Z.land (item data 4) 255)) in *.
  rewrite !slice_within by lia.
  rewrite len_app. pose proof (len_nonneg more).
  destruct (Z.ltb_spec (len data + len more) 9); [lia|].
  destruct (Z.ltb_spec (len data) 9); [lia|].
  destruct (Z.ltb_spec (len data + len more) (9 + pl)); [lia|].
  destruct (Z.ltb_spec (len data) (9 + pl)); [lia|].
  reflexivity.
Qed.

End Extension.

Section Popping.

Import BinaryMessage BinaryPacketBuffer.

Lemma bytes_skipn (l : list Z) n : bytes l -> bytes (skipn n l).
Proof.
  intros H. rewrite <- (firstn_skipn n l) in H. now apply Forall_app in H.
Qed.

Lemma bytes_firstn (l : list Z) n : bytes l -> bytes (firstn n l).
Proof.
  intros H. rewrite <- (firstn_skipn n l) in H. now apply Forall_app in H.
Qed.

Lemma bytes_slice (l : list Z) lo hi : bytes l -> bytes (slice l lo hi).
Proof. intros H. unfold slice. now apply bytes_firstn, bytes_skipn. Qed.

Lemma bytes_skip data : bytes data -> bytes (_skip_to_next_packet data).
Proof.
  intros H. destruct (skip_suffix_of data) as [junk Hj].
  rewrite Hj in H. now apply Forall_app in H.
Qed.

Lemma signed_bytes (data : list Z) :
  bytes data -> 2 <= len data ->
  Z.lor (Z.shiftl (Z.land (item data 0) 0xff) 8) (Z.land (item data 1) 0xff)
  = PACKET_SIGNATURE <->
  exists rest, data = PACKET_SIGNATURE_HI :: PACKET_SIGNATURE_LO :: rest.
Proof.
  intros Hb Hlen.
  destruct data as [|b0 [|b1 rest]];
    try (rewrite ?len_cons in Hlen; change (len (@nil Z)) with 0 in Hlen; lia).
  change (item (b0 :: b1 :: rest) 0) with b0.
  change (item (b0 :: b1 :: rest) 1) with b1.
  inversion Hb as [|? ? H0 Hb']; subst. inversion Hb' as [|? ? H1 _]; subst.
  rewrite word_range by assumption.
  unfold PACKET_SIGNATURE, PACKET_SIGNATURE_HI, PACKET_SIGNATURE_LO. split.
  - intros Hs. exists rest. assert (b0 = 0xc5 /\ b1 = 0xc3) as [-> ->] by lia.
    reflexivity.
  - intros [rest' [= -> -> _]]. reflexivity.
Qed.

(** On a buffer that holds a complete packet, [from_binary] can only fail
    on the signature or on the checksum. *)
Lemma from_binary_complete data e :
  bytes data -> has_packet data = true -> from_binary data = Raise e ->
  (e = InvalidSignatureError /\
   ~ exists rest, data = PACKET_SIGNATURE_HI :: PACKET_SIGNATURE_LO :: rest) \/
  (e = InvalidCRCError /\
   exists rest, data = PACKET_SIGNATURE_HI :: PACKET_SIGNATURE_LO :: rest).
Proof.
  intros Hb Hhas. pose proof (has_packet_inv data Hhas) as Hlen.
  pose proof (payload_len_nonneg (item data 5) (item data 4)) as Hpl.
  rewrite shiftl_land_swap in Hlen, Hpl.
  pose proof (signed_bytes data Hb ltac:(lia)) as Hsigned.
  unfold from_binary.
  unfold PACKET_OFFSET_SIGN_MSB, PACKET_OFFSET_SIGN_LSB, PACKET_OFFSET_VERSION,
    PACKET_OFFSET_FLAGS, PACKET_OFFSET_LEN_LSB, PACKET_OFFSET_LEN_MSB,
    PACKET_OFFSET_INTENT_LSB, PACKET_OFFSET_INTENT_MSB, PACKET_OFFSET_DATA,
    EMPTY_PACKET_LENGTH.
  set (pl := Z.lor (Z.shiftl (Z.land (item data 5) 255) 8) (Z.land (item data 4) 255)) in *.
  destruct (Z.ltb_spec (len data) 9); [lia|].
  destruct (Z.eqb_spec (Z.lor (Z.shiftl (Z.land (item data 0) 255) 8)
                              (Z.land (item data 1) 255)) PACKET_SIGNATURE) as [Hs|Hs];
    cbn [negb].
  - destruct (Z.ltb_spec (len data) (9 + pl)); [lia|].
    unfold bytearray.
    assert (forallb is_byte (slice data 8 (8 + pl)) = true) as ->
      by now apply forallb_is_byte, bytes_slice.
    cbn [bind].
    destruct (negb _); [|discriminate].
    intros [= <-]. right. split; [reflexivity|]. now apply Hsigned.
  - intros [= <-]. left. split; [reflexivity|]. intros Hrest. apply Hs. now apply Hsigned.
Qed.

(** A successful [pop_packet]: the buffer began with the wire form of
    the frame returned, and what is left is what followed it,
    resynchronised. *)
Lemma pop_packet_returns data m data' :
  bytes data -> pop_packet data = Returns (Some m) data' ->
  wellformed m /\
  exists rest, data = wire m ++ rest /\ data' = _skip_to_next_packet rest.
Proof.
  intros Hb. unfold pop_packet.
  destruct (has_packet data) eqn:Hhas; cbn [negb]; [|discriminate].
  destruct (from_binary data) as [msg|e] eqn:Hdec; [|discriminate].
  destruct (decode_wire data msg Hb Hdec) as (Hwf & rest & Hdata).
  assert (9 <= len data) as H9.
  { rewrite Hdata, len_app, wire_length. pose proof (len_nonneg rest).
    pose proof (len_nonneg (BinaryMessage.data msg)). unfold length. lia. }
  rewrite (buffer_payload_len data [] msg rest Hwf) by (rewrite ?app_nil_r; auto).
  unfold del_prefix.
  replace (Z.to_nat (PACKET_OFFSET_DATA + 1 + length msg)) with (List.length (wire msg))
    by (pose proof (wire_length msg); unfold len, PACKET_OFFSET_DATA in *; lia).
  rewrite Hdata at 1. rewrite skipn_exact.
  intros Heq.
  assert (msg = m) as <-.
  { assert (Some msg = Some m) as Hm; [|now injection Hm].
    exact (f_equal (fun o => match o with Returns a _ => a | Raises _ _ => None end) Heq). }
  apply (f_equal state_of) in Heq. cbn [state_of] in Heq. subst data'.
  split; [assumption|]. now exists rest.
Qed.

Lemma pop_packet_raises data e data' :
  pop_packet data = Raises e data' ->
  data' = data /\ has_packet data = true /\ from_binary data = Raise e.
Proof.
  unfold pop_packet.
  destruct (has_packet data); cbn [negb]; [|discriminate].
  destruct (from_binary data) as [msg|e']; [discriminate|].
  intros Heq.
  assert (e' = e) as ->.
  { assert (Some e' = Some e) as He; [|now injection He].
    exact (f_equal (fun o => match o with Raises x _ => Some x | Returns _ _ => None end)
                   Heq). }
  apply (f_equal state_of) in Heq. cbn [state_of] in Heq. now subst data'.
Qed.

Lemma pop_packet_none data data' :
  pop_packet data = Returns None data' -> has_packet data = false.
Proof.
  unfold pop_packet.
  destruct (has_packet data); cbn [negb]; [|reflexivity].
  destruct (from_binary data) as [msg|e']; [|discriminate].
  intros Heq. exfalso.
  assert (Some msg = None) as Hm; [|discriminate].
  exact (f_equal (fun o => match o with Returns a _ => a | Raises _ _ => None end) Heq).
Qed.

Lemma skip_twice data :
  _skip_to_next_packet (_skip_to_next_packet data) = _skip_to_next_packet data.
Proof. rewrite (skip_unfold (_skip_to_next_packet data)). now rewrite skip_stops. Qed.

(** Taking frames off a buffer and off what resynchronisation leaves of it
    is the same. *)
Lemma carves_skipped data fs rest :
  carves (_skip_to_next_packet data) fs rest -> carves data fs rest.
Proof.
  inversion 1 as [d Hd Hfs Hrest | f d d' frames rest' Hwf Hskip Hc Hd Hfs Hrest]; subst.
  - rewrite skip_twice. constructor.
  - rewrite skip_twice in Hskip. now apply (carves_frame f data d').
Qed.

(** What the loop of [dataReceived] has done when it ends, on a buffer that
    [append] or [pop_packet] has left. *)
Lemma receive_loop_ends data :
  forall got, bytes data -> _skip_to_next_packet data = data ->
    match BinaryProtocol.receive_loop data got with
    | Returns _ s =>
        has_packet (BinaryProtocol.packet_buffer s) = false /\
        exists fs, BinaryProtocol.received s = got ++ fs /\
                   carves data fs (BinaryProtocol.packet_buffer s)
    | Raises e s =>
        has_packet (BinaryProtocol.packet_buffer s) = true /\
        from_binary (BinaryProtocol.packet_buffer s) = Raise e /\
        (e = InvalidSignatureError \/ e = InvalidCRCError) /\
        exists fs, BinaryProtocol.received s = got ++ fs /\
                   carves data fs (BinaryProtocol.packet_buffer s)
    end.
Proof.
  remember (List.length data) as n eqn:Hn.
  revert data Hn. induction n as [n IH] using lt_wf_ind. intros data -> got Hb Hfix.
  rewrite receive_loop_unfold.
  destruct (has_packet data) eqn:Hhas.
  - destruct (pop_packet data) as [[msg|] data'|e data'] eqn:Hpop.
    + pose proof (pop_packet_shrinks data msg data' Hhas Hpop) as Hlt.
      destruct (pop_packet_returns data msg data' Hb Hpop) as (Hwf & rest & Hd & Hd').
      assert (bytes data') as Hb'.
      { subst data'. apply bytes_skip. rewrite Hd in Hb. now apply Forall_app in Hb. }
      assert (_skip_to_next_packet data' = data') as Hfix'
        by (subst data'; apply skip_twice).
      assert (forall fs final, carves data' fs final -> carves data (msg :: fs) final)
        as Hcarve.
      { intros fs final Hc. apply (carves_frame msg data rest); [assumption| |].
        - now rewrite Hfix.
        - apply carves_skipped. now rewrite <- Hd'. }
      specialize (IH _ Hlt data' eq_refl (got ++ [msg]) Hb' Hfix').
      destruct (BinaryProtocol.receive_loop data' (got ++ [msg])) as [[] s|e s].
      * destruct IH as (Hno & fs & Hrec & Hfs). split; [assumption|].
        exists (msg :: fs). rewrite Hrec, <- app_assoc. split; [reflexivity|auto].
      * destruct IH as (Hyes & Hraise & He & fs & Hrec & Hfs).
        split; [assumption|]. split; [assumption|]. split; [assumption|].
        exists (msg :: fs). rewrite Hrec, <- app_assoc. split; [reflexivity|auto].
    + apply pop_packet_none in Hpop. congruence.
    + destruct (pop_packet_raises data e data' Hpop) as (-> & _ & Hraise).
      cbn [BinaryProtocol.packet_buffer BinaryProtocol.received].
      split; [assumption|]. split; [assumption|]. split.
      * destruct (from_binary_complete data e Hb Hhas Hraise) as [[-> _]|[-> _]]; auto.
      * exists []. rewrite app_nil_r. split; [reflexivity|].
        rewrite <- Hfix at 2. constructor.
  - cbn [BinaryProtocol.packet_buffer BinaryProtocol.received]. split; [assumption|].
    exists []. rewrite app_nil_r. split; [reflexivity|].
    rewrite <- Hfix at 2. constructor.
Qed.

(** A complete frame with a wrong checksum at the head of the buffer
    stays there whatever arrives. *)
Lemma bad_frame_stays data chunk got :
  bytes data -> has_packet data = true -> from_binary data = Raise InvalidCRCError ->
  BinaryProtocol.dataReceived chunk (BinaryProtocol.make data got)
  = Raises InvalidCRCError (BinaryProtocol.make (data ++ chunk) got).
Proof.
  intros Hb Hhas Hraise.
  destruct (from_binary_complete data _ Hb Hhas Hraise) as [[[=] _]|[_ [rest Hrest]]].
  unfold BinaryProtocol.dataReceived, append. cbn [BinaryProtocol.packet_buffer BinaryProtocol.received].
  assert (_skip_to_next_packet (data ++ chunk) = data ++ chunk) as ->.
  { rewrite Hrest. cbn [app]. apply skip_signed. }
  rewrite receive_loop_unfold, has_packet_extend by assumption.
  unfold pop_packet. rewrite has_packet_extend by assumption. cbn [negb].
  now rewrite from_binary_extend, Hraise.
Qed.

End Popping.

(** Once the buffer holds a complete packet, bytes arriving behind it
    change neither the answer of [has_packet] nor what [from_binary]
    returns or raises on the buffer. *)
Theorem complete_packet_extend (data more : list Z) :
  BinaryPacketBuffer.has_packet data = true ->
  BinaryPacketBuffer.has_packet (data ++ more) = true /\
  BinaryMessage.from_binary (data ++ more) = BinaryMessage.from_binary data.
Proof.
  intros Hhas. split; [now apply has_packet_extend|now apply from_binary_extend].
Qed.

Lemma complete_packet_extend_witness :
  BinaryPacketBuffer.has_packet (pkt ++ [1; 2; 3]) = true /\
  BinaryMessage.from_binary (pkt ++ [1; 2; 3]) = BinaryMessage.from_binary pkt.
Proof. exact (complete_packet_extend pkt [1; 2; 3] eq_refl). Defined.

(** A successful [pop_packet] on a buffer of bytes removes exactly the
    encoding of the frame it returns: the buffer began with these bytes,
    and what is left is what followed them, resynchronised. *)
Theorem pop_packet_exact (data data' : list Z) (m : BinaryMessage.t) :
  bytes data ->
  BinaryPacketBuffer.pop_packet data = Returns (Some m) data' ->
  BinaryMessage.wellformed m /\
  exists enc rest,
    BinaryMessage.to_binary m = Ok enc /\ data = enc ++ rest /\
    data' = BinaryPacketBuffer._skip_to_next_packet rest.
Proof.
  intros Hb Hpop.
  destruct (pop_packet_returns data m data' Hb Hpop) as (Hwf & rest & Hd & Hd').
  split; [assumption|]. exists (wire m), rest. split; [|now split].
  apply to_binary_ok. apply Hwf.
Qed.

Lemma pkt_tail_bytes : bytes (pkt ++ [0; 0xc5]).
Proof. unfold pkt. repeat constructor; lia. Defined.

Lemma pop_packet_exact_witness :
  BinaryPacketBuffer.pop_packet (pkt ++ [0; 0xc5]) = Returns (Some binmsg) [0xc5] /\
  BinaryMessage.wellformed binmsg /\
  exists enc rest,
    BinaryMessage.to_binary binmsg = Ok enc /\ pkt ++ [0; 0xc5] = enc ++ rest /\
    [0xc5] = BinaryPacketBuffer._skip_to_next_packet rest.
Proof.
  split; [reflexivity|].
  exact (pop_packet_exact (pkt ++ [0; 0xc5]) [0xc5] binmsg pkt_tail_bytes eq_refl).
Defined.

(** [pop_packet] on a buffer of bytes raises nothing but
    [InvalidSignatureError], when the buffer does not start with the
    signature, and [InvalidCRCError], when it does: [has_packet] has ruled
    out the two length errors of [from_binary]. *)
Theorem pop_packet_errors (data data' : list Z) (e : exn) :
  bytes data ->
  BinaryPacketBuffer.pop_packet data = Raises e data' ->
  (e = InvalidSignatureError /\
   ~ exists rest, data = PACKET_SIGNATURE_HI :: PACKET_SIGNATURE_LO :: rest) \/
  (e = InvalidCRCError /\
   exists rest, data = PACKET_SIGNATURE_HI :: PACKET_SIGNATURE_LO :: rest).
Proof.
  intros Hb Hpop. destruct (pop_packet_raises data e data' Hpop) as (_ & Hhas & Hraise).
  now apply from_binary_complete.
Qed.

Lemma unsigned_bytes : bytes [0; 0; 0; 0; 0; 0; 0; 0xc5; 0].
Proof. repeat constructor; lia. Defined.

Lemma pop_packet_errors_witness :
  let data := [0; 0; 0; 0; 0; 0; 0; 0xc5; 0] in
  BinaryPacketBuffer.append data [] = Returns tt data /\
  BinaryPacketBuffer.pop_packet data = Raises InvalidSignatureError data /\
  ((InvalidSignatureError = InvalidSignatureError /\
    ~ exists rest, data = PACKET_SIGNATURE_HI :: PACKET_SIGNATURE_LO :: rest) \/
   (InvalidSignatureError = InvalidCRCError /\
    exists rest, data = PACKET_SIGNATURE_HI :: PACKET_SIGNATURE_LO :: rest)).
Proof.
  intros data. split; [reflexivity|]. split; [reflexivity|].
  exact (pop_packet_errors data data InvalidSignatureError unsigned_bytes eq_refl).
Defined.

(** How [dataReceived] ends on bytes.  When it returns, the buffer holds no
    complete packet; when it raises, the exception is the
    [InvalidSignatureError] or [InvalidCRCError] that [from_binary] raises
    on the buffer it leaves, never the [AttributeError] of a [None] packet.
    Either way the packets handed over are well-formed frames taken, in this
    order, off the old buffer followed by the chunk, each from the head of
    what resynchronisation leaves of the bytes still there; and the buffer
    left is what resynchronisation leaves of the bytes behind the last of
    them.  No other byte is dropped, and no frame is skipped. *)
Theorem dataReceived_ends (chunk : list Z) (self : BinaryProtocol.factory) :
  bytes (BinaryProtocol.packet_buffer self) ->
  bytes chunk ->
  match BinaryProtocol.dataReceived chunk self with
  | Returns _ self' =>
      BinaryPacketBuffer.has_packet (BinaryProtocol.packet_buffer self') = false /\
      exists frames,
        BinaryProtocol.received self' = BinaryProtocol.received self ++ frames /\
        carves (BinaryProtocol.packet_buffer self ++ chunk) frames
               (BinaryProtocol.packet_buffer self')
  | Raises e self' =>
      BinaryPacketBuffer.has_packet (BinaryProtocol.packet_buffer self') = true /\
      BinaryMessage.from_binary (BinaryProtocol.packet_buffer self') = Raise e /\
      (e = InvalidSignatureError \/ e = InvalidCRCError) /\
      exists frames,
        BinaryProtocol.received self' = BinaryProtocol.received self ++ frames /\
        carves (BinaryProtocol.packet_buffer self ++ chunk) frames
               (BinaryProtocol.packet_buffer self')
  end.
Proof.
  intros Hb Hc. unfold BinaryProtocol.dataReceived, BinaryPacketBuffer.append.
  set (data := BinaryProtocol.packet_buffer self ++ chunk).
  assert (bytes (BinaryPacketBuffer._skip_to_next_packet data)) as Hskip
    by (apply bytes_skip, Forall_app; now split).
  pose proof (receive_loop_ends _ (BinaryProtocol.received self) Hskip (skip_twice data))
    as Hends.
  destruct (BinaryProtocol.receive_loop (BinaryPacketBuffer._skip_to_next_packet data)
                                        (BinaryProtocol.received self)) as [[] s|e s].
  - destruct Hends as (Hno & fs & Hrec & Hfs). split; [assumption|].
    exists fs. split; [assumption|]. now apply carves_skipped.
  - destruct Hends as (Hyes & Hraise & He & fs & Hrec & Hfs).
    split; [assumption|]. split; [assumption|]. split; [assumption|].
    exists fs. split; [assumption|]. now apply carves_skipped.
Qed.

Lemma dataReceived_ends_witness :
  match BinaryProtocol.dataReceived (pkt ++ [7; 8]) (BinaryProtocol.make [] []) with
  | Returns _ self' =>
      BinaryPacketBuffer.has_packet (BinaryProtocol.packet_buffer self') = false /\
      exists frames,
        BinaryProtocol.received self' = [] ++ frames /\
        carves ([] ++ pkt ++ [7; 8]) frames (BinaryProtocol.packet_buffer self')
  | Raises e self' =>
      BinaryPacketBuffer.has_packet (BinaryProtocol.packet_buffer self') = true /\
      BinaryMessage.from_binary (BinaryProtocol.packet_buffer self') = Raise e /\
      (e = InvalidSignatureError \/ e = InvalidCRCError) /\
      exists frames,
        BinaryProtocol.received self' = [] ++ frames /\
        carves ([] ++ pkt ++ [7; 8]) frames (BinaryProtocol.packet_buffer self')
  end.
Proof.
  exact (dataReceived_ends (pkt ++ [7; 8]) (BinaryProtocol.make [] [])
                           (Forall_nil _) pkt_bytes).
Defined.

(** A complete frame with a wrong checksum at the head of the buffer is
    never got past: every later [dataReceived] raises [InvalidCRCError],
    hands over nothing, and leaves the frame at the head with the new bytes
    behind it. *)
Theorem bad_frame_blocks (data chunk : list Z) (got : list BinaryMessage.t) :
  bytes data ->
  BinaryPacketBuffer.has_packet data = true ->
  BinaryMessage.from_binary data = Raise InvalidCRCError ->
  BinaryProtocol.dataReceived chunk (BinaryProtocol.make data got)
  = Raises InvalidCRCError (BinaryProtocol.make (data ++ chunk) got) /\
  BinaryPacketBuffer.has_packet (data ++ chunk) = true /\
  BinaryMessage.from_binary (data ++ chunk) = Raise InvalidCRCError.
Proof.
  intros Hb Hhas Hraise. split; [now apply bad_frame_stays|].
  split; [now apply has_packet_extend|]. now rewrite from_binary_extend.
Qed.

Lemma bad_frame_blocks_witness :
  let bad := [0xc5; 0xc3; 0x02; 0x03; 0x03; 0x00; 0x04; 0x00; 0x31; 0x32; 0x33; 0xba] in
  BinaryProtocol.dataReceived pkt (BinaryProtocol.make bad [])
  = Raises InvalidCRCError (BinaryProtocol.make (bad ++ pkt) []) /\
  BinaryPacketBuffer.has_packet (bad ++ pkt) = true /\
  BinaryMessage.from_binary (bad ++ pkt) = Raise InvalidCRCError.
Proof.
  intros bad. apply (bad_frame_blocks bad pkt []).
  - repeat constructor; lia.
  - reflexivity.
  - reflexivity.
Defined.

(** Junk without a signature in front of the stream of a non-empty
    sequence of well-formed frames, arriving in one chunk on an empty
    buffer, is dropped and every frame is handed over. *)
Theorem junk_before_stream
    (junk stream : list Z) (frames got : list BinaryMessage.t) :
  has_signature junk = false ->
  Forall BinaryMessage.wellformed frames ->
  frames <> [] ->
  BinaryProtocol.to_binary_all frames = Ok stream ->
  BinaryProtocol.dataReceived (junk ++ stream) (BinaryProtocol.make [] got)
  = Returns tt (BinaryProtocol.make [] (got ++ frames)).
Proof.
  intros Hjunk Hfs Hne Henc.
  rewrite to_binary_all_wires in Henc by assumption. injection Henc as <-.
  unfold BinaryProtocol.dataReceived, BinaryPacketBuffer.append.
  cbn [BinaryProtocol.packet_buffer BinaryProtocol.received app].
  assert (exists b rest,
             wires frames = PACKET_SIGNATURE_HI :: PACKET_SIGNATURE_LO :: b :: rest)
    as (b & rest & Hw).
  { destruct frames as [|f fs]; [contradiction|].
    inversion Hfs as [|? ? Hf _]; subst. destruct Hf as (Hs & _).
    unfold wires. cbn [map List.concat]. unfold wire at 1. rewrite Hs.
    cbn [app]. eexists. eexists. reflexivity. }
  rewrite Hw, skip_junk by assumption. rewrite <- Hw.
  rewrite <- (app_nil_r (wires frames)).
  now apply (receive_loop_frames frames [] [] []).
Qed.

Lemma junk_before_stream_witness :
  BinaryProtocol.dataReceived ([99; 0xc5; 96; 0xc3] ++ pkt ++ pkt)
                              (BinaryProtocol.make [] [])
  = Returns tt (BinaryProtocol.make [] ([] ++ [binmsg; binmsg])).
Proof.
  apply (junk_before_stream [99; 0xc5; 96; 0xc3] (pkt ++ pkt) [binmsg; binmsg] []).
  - reflexivity.
  - repeat constructor; apply binmsg_wellformed.
  - discriminate.
  - reflexivity.
Defined.

(** ** Error detection *)

Section Corruption.

Import BinaryMessage BinaryPacketBuffer.

(** [has_packet] looks at the length of the buffer and at its two length
    bytes only. *)
Lemma has_packet_same data data' :
  len data' = len data ->
  item data' 4 = item data 4 -> item data' 5 = item data 5 ->
  has_packet data' = has_packet data.
Proof.
  intros Hl H4 H5. unfold has_packet, PACKET_OFFSET_LEN_MSB, PACKET_OFFSET_LEN_LSB.
  now rewrite Hl, H4, H5.
Qed.

Lemma item_app_left (pre post : list Z) i :
  0 <= i < len pre -> item (pre ++ post) i = item pre i.
Proof. intros Hi. symmetry. now apply (item_prefix pre post). Qed.

Lemma item_app_right (pre post : list Z) i :
  len pre <= i -> item (pre ++ post) i = item post (i - len pre).
Proof.
  intros Hi. unfold item, len in *. rewrite app_nth2 by lia. f_equal. lia.
Qed.

(** Replacing one element leaves the others. *)
Lemma item_replaced (pre post : list Z) b b' i :
  0 <= i -> i <> len pre -> item (pre ++ b' :: post) i = item (pre ++ b :: post) i.
Proof.
  intros Hi Hne. pose proof (len_nonneg pre).
  destruct (Z_lt_le_dec i (len pre)).
  - now rewrite !item_app_left by lia.
  - rewrite !item_app_right by lia. unfold item.
    replace (Z.to_nat (i - len pre)) with (S (Z.to_nat (i - len pre - 1))) by lia.
    reflexivity.
Qed.

Lemma len_replaced (pre post : list Z) b b' :
  len (pre ++ b' :: post) = len (pre ++ b :: post).
Proof. now rewrite !len_app, !len_cons. Qed.

Lemma sum_replaced (pre post : list Z) b b' :
  sum (pre ++ b' :: post) = sum (pre ++ b :: post) + (b' - b).
Proof. rewrite !sum_app, !sum_cons. lia. Qed.

(** A single wrong byte outside the length field never goes unnoticed. *)
Lemma corrupted_frame f pre b post b' :
  wellformed f -> wire f = pre ++ b :: post ->
  len pre <> 4 -> len pre <> 5 ->
  0 <= b' < 256 -> b' <> b ->
  from_binary (pre ++ b' :: post)
  = Raise (if len pre <? 2 then InvalidSignatureError else InvalidCRCError).
Proof.
  intros Hwf Hw H4 H5 Hb' Hne.
  pose proof (len_nonneg pre) as Hpre.
  assert (bytes (wire f)) as Hbytes.
  { apply forallb_is_byte, wire_bytes. apply Hwf. }
  assert (0 <= b < 256) as Hb.
  { rewrite Hw in Hbytes. apply Forall_app in Hbytes as [_ Hbytes].
    now inversion Hbytes. }
  assert (bytes (pre ++ b' :: post)) as Hbytes'.
  { rewrite Hw in Hbytes. apply Forall_app in Hbytes as [Hp Hq].
    apply Forall_app. split; [assumption|]. inversion Hq; subst. now constructor. }
  assert (has_packet (pre ++ b' :: post) = true) as Hhas.
  { rewrite (has_packet_same (wire f)).
    - rewrite <- (app_nil_r (wire f)). now apply has_packet_frame.
    - rewrite Hw. apply len_replaced.
    - rewrite Hw. apply item_replaced; lia.
    - rewrite Hw. apply item_replaced; lia. }
  destruct (from_binary (pre ++ b' :: post)) as [m|e] eqn:Hdec.
  - (* a frame would have the same length and a checksum that fits *)
    exfalso.
    destruct (decode_wire _ m Hbytes' Hdec) as (Hm & rest & Hrest).
    assert (9 <= len (wire f)) as H9.
    { rewrite wire_length. pose proof (len_nonneg (data f)). unfold length. lia. }
    assert (length m = length f) as Hlen.
    { rewrite <- (buffer_payload_len (pre ++ b' :: post) [] m rest Hm);
        [|now rewrite app_nil_r|now rewrite (len_replaced pre post b b'), <- Hw].
      rewrite <- (buffer_payload_len (wire f) [] f [] Hwf); [|reflexivity|assumption].
      unfold PACKET_OFFSET_LEN_MSB, PACKET_OFFSET_LEN_LSB.
      rewrite Hw. now rewrite !(item_replaced pre post b b') by lia. }
    assert (rest = []) as ->.
    { apply (f_equal (@len Z)) in Hrest.
      rewrite (len_replaced pre post b b'), <- Hw, len_app, !wire_length, Hlen in Hrest.
      destruct rest; [reflexivity|]. rewrite len_cons in Hrest.
      pose proof (len_nonneg rest). lia. }
    rewrite app_nil_r in Hrest.
    pose proof (wire_sum m) as Hsm. pose proof (wire_sum f) as Hsf.
    rewrite <- Hrest, (sum_replaced pre post b b'), <- Hw in Hsm.
    rewrite land_255 in Hsm, Hsf. revert Hsm Hsf. generalize (sum (wire f)). intros s.
    Z.div_mod_to_equations. lia.
  - destruct (wire_signed f Hwf) as [body Hsigned].
    destruct (from_binary_complete _ e Hbytes' Hhas Hdec) as [[-> Hno]|[-> [rest Hyes]]].
    + destruct (Z.ltb_spec (len pre) 2) as [|Hge]; [reflexivity|].
      exfalso. apply Hno. rewrite Hsigned in Hw.
      destruct pre as [|p0 [|p1 pre]];
        try (rewrite ?len_cons in Hge; change (len (@nil Z)) with 0 in Hge; lia).
      cbn [app] in Hw. injection Hw as <- <- _. cbn [app]. eauto.
    + destruct (Z.ltb_spec (len pre) 2) as [Hlt|]; [|reflexivity].
      exfalso. rewrite Hsigned in Hw.
      destruct pre as [|p0 [|p1 pre]].
      * cbn [app] in Hw, Hyes. injection Hw as <- _. injection Hyes as -> _.
        now apply Hne.
      * cbn [app] in Hw, Hyes. injection Hw as _ <- _. injection Hyes as _ -> _.
        now apply Hne.
      * rewrite !len_cons in Hlt. pose proof (len_nonneg pre). lia.
Qed.

End Corruption.

(** Error detection: when one byte of the encoding of a well-formed frame,
    outside its two length bytes, is replaced by a different byte,
    [from_binary] returns no frame: it raises [InvalidSignatureError] when
    the byte is one of the signature, [InvalidCRCError] otherwise. *)
Theorem single_byte_error_detected
    (f : BinaryMessage.t) (pre post : list Z) (b b' : Z) :
  BinaryMessage.wellformed f ->
  BinaryMessage.to_binary f = Ok (pre ++ b :: post) ->
  len pre <> 4 -> len pre <> 5 ->
  0 <= b' < 256 -> b' <> b ->
  BinaryMessage.from_binary (pre ++ b' :: post)
  = Raise (if len pre <? 2 then InvalidSignatureError else InvalidCRCError).
Proof.
  intros Hwf Henc. rewrite to_binary_ok in Henc by apply Hwf. injection Henc as Hw.
  intros H4 H5 Hb' Hne. now apply (corrupted_frame f pre b post b').
Qed.

Lemma single_byte_error_detected_witness :
  BinaryMessage.from_binary
    ([0xc5; 0xc3; 0x02; 0x03; 0x03; 0x00; 0x04; 0x00; 0x31] ++ 0x39 :: [0x33; 0xd5])
  = Raise InvalidCRCError.
Proof.
  apply (single_byte_error_detected binmsg
           [0xc5; 0xc3; 0x02; 0x03; 0x03; 0x00; 0x04; 0x00; 0x31] [0x33; 0xd5] 0x32 0x39).
  - apply binmsg_wellformed.
  - reflexivity.
  - discriminate.
  - discriminate.
  - lia.
  - discriminate.
Defined.

(** ** Decoded instances *)

Section Decoded.

Context {builtins : Builtins}.

Import BinaryFormatter.

Lemma raise_BinarySerializerError {A} :
  @raise_new A new_BinarySerializerError = Raise (NameError "BinarySerializerError"%string).
Proof. reflexivity. Qed.

Lemma len_slice (l : list Z) lo n :
  0 <= lo -> 0 <= n -> lo + n <= len l -> len (slice l lo (lo + n)) = n.
Proof.
  intros Hlo Hn Hl. unfold slice, len in *.
  rewrite length_firstn, length_skipn. lia.
Qed.

Lemma len_slice_le (l : list Z) lo n :
  0 <= n -> len (slice l lo (lo + n)) <= n.
Proof.
  intros Hn. unfold slice, len. rewrite length_firstn. lia.
Qed.

Lemma le_value_range bs :
  bytes bs -> 0 <= struct.le_value bs < 256 ^ len bs.
Proof.
  induction 1 as [|b bs Hb _ IH].
  - cbn. lia.
  - cbn [struct.le_value]. rewrite len_cons.
    pose proof (len_nonneg bs).
    replace (1 + len bs) with (Z.succ (len bs)) by lia.
    rewrite Z.pow_succ_r by lia. lia.
Qed.

Lemma unpack_int_range signed size bs :
  0 < size -> bytes bs -> len bs = size ->
  exists n, struct.unpack_int signed size bs = VInt n /\ int_in signed size n.
Proof.
  intros Hsize Hb Hl. pose proof (le_value_range bs Hb) as Hr.
  rewrite Hl, pow_256 in Hr by lia.
  assert (2 ^ (8 * size) = 2 * 2 ^ (8 * size - 1)) as Hpow.
  { rewrite <- Z.pow_succ_r by lia. f_equal. lia. }
  unfold struct.unpack_int, int_in. destruct signed; cbn [andb].
  - destruct (Z.leb_spec (2 ^ (8 * size - 1)) (struct.le_value bs));
      eexists; (split; [reflexivity|lia]).
  - eexists. split; [reflexivity|lia].
Qed.

Lemma unpack_from_inv fmt data offset x :
  struct.unpack_from fmt data offset = Ok x ->
  struct.calcsize fmt <= len data - offset.
Proof.
  unfold struct.unpack_from.
  destruct (Z.ltb_spec (len data - offset) (struct.calcsize fmt)); [discriminate|].
  intros _. assumption.
Qed.

(** What [struct.unpack_from('<H', ...)] returns is a 16-bit number. *)
Lemma unpack_H_range data offset x :
  bytes data -> 0 <= offset ->
  struct.unpack_from struct.fmt_H data offset = Ok x ->
  exists n, x = VInt n /\ 0 <= n <= 65535 /\ offset + 2 <= len data.
Proof.
  intros Hb Ho Hu. pose proof (unpack_from_inv _ _ _ _ Hu) as Hl.
  cbn [struct.calcsize] in Hl.
  unfold struct.unpack_from in Hu. cbn [struct.calcsize] in Hu.
  destruct (Z.ltb_spec (len data - offset) 2); [discriminate|].
  injection Hu as <-.
  destruct (unpack_int_range false 2 (slice data offset (offset + 2)))
    as (n & Hn & Hr); [lia|now apply bytes_slice|apply len_slice; lia|].
  exists n. split; [assumption|]. unfold int_in in Hr. cbn in Hr. lia.
Qed.

Lemma UUID_bytes_range bs :
  len bs = 16 -> bytes bs -> 0 <= uuid.UUID_bytes bs < 2 ^ 128.
Proof.
  intros Hl Hb.
  destruct (sixteen bs Hl)
    as (b0 & b1 & b2 & b3 & b4 & b5 & b6 & b7 & b8 & b9 & b10 & b11 & b12 & b13 & b14
        & b15 & ->).
  repeat match goal with
         | H : Forall _ (_ :: _) |- _ => inversion H; clear H; subst
         | H : Forall _ [] |- _ => clear H
         end.
  unfold uuid.UUID_bytes. cbn [fold_left]. lia.
Qed.

(** A scalar property read from the data holds the decoded form of a
    value of its type. *)
Lemma decoded_scalar type data offset x offset' :
  bytes data -> 0 <= offset ->
  deserialize_property data (binary_property type) offset = Ok (x, offset') ->
  (exists w, conforms_scalar type w /\ snd (member_form (binary_property type, w)) = x)
  /\ offset <= offset'.
Proof.
  intros Hb Ho.
  destruct (__basic_type_map__ type) as [[fmt size]|] eqn:Hmap.
  - rewrite (deserialize_basic data type fmt size offset Hmap).
    destruct (struct.unpack_from fmt data offset) as [v|e] eqn:Hu; [|discriminate].
    cbn [bind]. intros [= <- <-].
    pose proof (unpack_from_inv _ _ _ _ Hu) as Hl.
    unfold struct.unpack_from in Hu.
    destruct (Z.ltb_spec (len data - offset) (struct.calcsize fmt)); [lia|].
    injection Hu as <-.
    assert (bytes (slice data offset (offset + struct.calcsize fmt))) as Hbs
      by now apply bytes_slice.
    destruct type; cbn [__basic_type_map__] in Hmap; try discriminate;
      injection Hmap as <- <-; cbn [struct.calcsize] in *; cbn [conforms_scalar];
      (split; [|lia]);
      try match goal with
          | |- context [struct.unpack_int ?sg ?k ?bs] =>
              destruct (unpack_int_range sg k bs) as (n & Hn & Hr);
              [lia | assumption | apply len_slice; lia |];
              exists (VInt n); split;
              [exists n; split; [reflexivity|exact Hr] | rewrite Hn; reflexivity]
          end;
      (eexists; split; [eexists; reflexivity|reflexivity]).
  - destruct type; try discriminate Hmap.
    + (* Null *)
      intros [= <- <-]. split; [|lia]. exists VNone. split; reflexivity.
    + (* Guid *)
      change (deserialize_property data (binary_property DataTypes.Guid) offset)
        with (value <- struct.unpack_bytes_from 16 data offset ;;
              let v := item value in
              int <- uuid.UUID_fields
                       (Z.lor (Z.lor (Z.lor (Z.shiftl (v 0) 24) (Z.shiftl (v 1) 16))
                                     (Z.shiftl (v 2) 8)) (v 3))
                       (Z.lor (Z.shiftl (v 4) 8) (v 5))
                       (Z.lor (Z.shiftl (v 6) 8) (v 7))
                       (v 8) (v 9)
                       (Z.lor (Z.lor (Z.lor (Z.lor (Z.lor (Z.shiftl (v 10) 40)
                                                          (Z.shiftl (v 11) 32))
                                                   (Z.shiftl (v 12) 24))
                                            (Z.shiftl (v 13) 16))
                                     (Z.shiftl (v 14) 8)) (v 15)) ;;
              Ok (VUuid int, offset + 16)).
      unfold struct.unpack_bytes_from.
      destruct (Z.ltb_spec (len data - offset) 16) as [|Hl]; [discriminate|].
      cbn [bind].
      assert (len (slice data offset (offset + 16)) = 16) as Hl16
        by (apply len_slice; lia).
      assert (bytes (slice data offset (offset + 16))) as Hbs by now apply bytes_slice.
      destruct (sixteen _ Hl16)
        as (b0 & b1 & b2 & b3 & b4 & b5 & b6 & b7 & b8 & b9 & b10 & b11 & b12 & b13 & b14
            & b15 & Hs).
      rewrite Hs in *. cbv zeta. unfold item.
      cbn [Z.to_nat Pos.to_nat Pos.iter_op Init.Nat.add nth].
      rewrite UUID_fields_of_bytes by assumption. cbn [bind].
      intros [= <- <-]. split; [|lia].
      match goal with |- context [VUuid ?u] => exists (VUuid u) end.
      split; [|reflexivity]. left. eexists. split; [reflexivity|].
      now apply UUID_bytes_range.
    + (* String *)
      rewrite deserialize_string.
      destruct (struct.unpack_from struct.fmt_H data offset) as [v|e] eqn:Hu; [|discriminate].
      destruct (unpack_H_range data offset v Hb Ho Hu) as (n & -> & Hn & Hl).
      cbn [bind]. cbv zeta.
      destruct (utf8_valid (slice data (offset + 2) (offset + 2 + n))) eqn:Hutf;
        [|discriminate].
      intros [= <- <-]. split; [|lia].
      exists (VBytes (slice data (offset + 2) (offset + 2 + n))). split; [|reflexivity].
      eexists. split; [reflexivity|]. split; [|split; [now apply bytes_slice|assumption]].
      pose proof (len_slice_le data (offset + 2) n). lia.
    + (* Binary *)
      rewrite deserialize_binary.
      destruct (struct.unpack_from struct.fmt_H data offset) as [v|e] eqn:Hu; [|discriminate].
      destruct (unpack_H_range data offset v Hb Ho Hu) as (n & -> & Hn & Hl).
      cbn [bind]. cbv zeta.
      intros [= <- <-]. split; [|lia].
      exists (VBytes (slice data (offset + 2) (offset + 2 + n))). split; [|reflexivity].
      eexists. split; [reflexivity|]. split; [|now apply bytes_slice].
      pose proof (len_slice_le data (offset + 2) n). lia.
    + (* Array given with binary_property *)
      change (deserialize_property data (binary_property DataTypes.Array) offset)
        with (@raise_new (value * Z) new_BinarySerializerError).
      rewrite raise_BinarySerializerError. discriminate.
Qed.

End Decoded.

Section DecodedObjects.

Context {builtins : Builtins}.

Import BinaryFormatter.

Lemma decoded_members type :
  Forall decodes_well type ->
  forall data offset members offset',
    bytes data -> 0 <= offset ->
    read_all (read_member data) type offset = Ok (members, offset') ->
    exists ws,
      map fst ws = type /\ conforms_members ws /\ map member_form ws = members /\
      offset <= offset'.
Proof.
  induction 1 as [|p type Hp _ IH]; intros data offset members offset' Hb Ho.
  - cbn [read_all]. intros [= <- <-]. exists [].
    split; [reflexivity|]. split; [constructor|]. split; [reflexivity|lia].
  - rewrite read_all_cons. unfold read_member at 1.
    destruct (deserialize_property data p offset) as [[x o1]|e] eqn:Hd; [|discriminate].
    cbn [bind fst snd].
    destruct (Hp data offset x o1 Hb Ho Hd) as [(w & Hw & Hx) Ho1].
    destruct (read_all (read_member data) type o1) as [[ms o2]|e] eqn:Hr; [|discriminate].
    cbn [bind fst snd]. intros [= <- <-].
    destruct (IH data o1 ms o2 Hb ltac:(lia) Hr) as (ws & Hfst & Hws & Hms & Ho2).
    exists ((p, w) :: ws). cbn [map fst]. rewrite Hfst, Hms.
    split; [reflexivity|]. split; [now constructor|]. split; [|lia].
    f_equal. unfold member_form in *. cbn [fst snd] in *. now rewrite Hx.
Qed.

Lemma decoded_object type :
  Forall decodes_well (__binary_struct__ type) ->
  forall data offset v offset',
    bytes data -> 0 <= offset ->
    _deserialize data type offset = Ok (v, offset') ->
    exists w, conforms type w /\ decoded_form w = v /\ offset <= offset'.
Proof.
  intros Htype data offset v offset' Hb Ho. rewrite _deserialize_unfold.
  destruct (instantiate type); [|discriminate]. cbn [bind].
  destruct (read_all (read_member data) (__binary_struct__ type) offset)
    as [[ms o]|e] eqn:Hr; [|discriminate].
  cbn [bind fst snd]. intros [= <- <-].
  destruct (decoded_members _ Htype data offset ms o Hb Ho Hr)
    as (ws & Hfst & Hws & Hms & Hle).
  exists (VObject ws). split; [|split; [|assumption]].
  - destruct type as [required binary_struct]. cbn [__binary_struct__] in Hfst.
    rewrite <- Hfst. now constructor.
  - now rewrite decoded_form_object, Hms.
Qed.

Lemma decoded_items element_type data :
  Forall decodes_well (__binary_struct__ element_type) -> bytes data ->
  forall n offset items offset',
    0 <= offset ->
    read_times (_deserialize data element_type) n offset = Ok (items, offset') ->
    exists ws,
      conforms_items element_type ws /\ map decoded_form ws = items /\
      List.length ws = n /\ offset <= offset'.
Proof.
  intros Het Hb. induction n as [|n IH]; intros offset items offset' Ho.
  - cbn [read_times]. intros [= <- <-]. exists [].
    split; [constructor|]. split; [reflexivity|]. split; [reflexivity|lia].
  - rewrite read_times_S.
    destruct (_deserialize data element_type offset) as [[v o1]|e] eqn:Hd; [|discriminate].
    cbn [bind fst snd].
    destruct (decoded_object element_type Het data offset v o1 Hb Ho Hd)
      as (w & Hw & Hv & Ho1).
    destruct (read_times (_deserialize data element_type) n o1) as [[vs o2]|e] eqn:Hr;
      [|discriminate].
    cbn [bind fst snd]. intros [= <- <-].
    destruct (IH o1 vs o2 ltac:(lia) Hr) as (ws & Hws & Hvs & Hn & Ho2).
    exists (w :: ws). split; [now constructor|]. cbn [map List.length].
    rewrite Hv, Hvs, Hn. split; [reflexivity|]. split; [reflexivity|lia].
Qed.

Lemma decoded_prop p : decodes_well p.
Proof.
  induction p as [type|element_type IH] using prop_nested_ind;
    intros data offset x offset' Hb Ho.
  - intros Hd. destruct (decoded_scalar type data offset x offset' Hb Ho Hd)
      as [(w & Hw & Hx) Hle].
    split; [|assumption]. exists w. split; [now constructor|assumption].
  - rewrite deserialize_array.
    destruct (struct.unpack_from struct.fmt_H data offset) as [v|e] eqn:Hu; [|discriminate].
    destruct (unpack_H_range data offset v Hb Ho Hu) as (n & -> & Hn & Hl).
    cbn [bind]. cbv zeta.
    destruct (read_times (_deserialize data element_type) (Z.to_nat n) (offset + 2))
      as [[items o]|e] eqn:Hr; [|discriminate].
    cbn [bind fst snd]. intros [= <- <-].
    destruct (decoded_items element_type data IH Hb (Z.to_nat n) (offset + 2) items o
                            ltac:(lia) Hr) as (ws & Hws & Hitems & Hlen & Hle).
    split; [|lia]. exists (VList ws). split.
    + constructor; [|assumption]. unfold len. lia.
    + unfold member_form. cbn [fst snd prop_type].
      change (DataTypes.eqb DataTypes.Array DataTypes.Guid) with false.
      change (DataTypes.eqb DataTypes.Array DataTypes.String) with false.
      cbn [decoded_form]. now rewrite Hitems.
Qed.

Lemma decoded_conforms type data offset v offset' :
  bytes data -> 0 <= offset ->
  _deserialize data type offset = Ok (v, offset') ->
  exists w, conforms type w /\ decoded_form w = v /\ offset <= offset'.
Proof.
  apply decoded_object. apply Forall_forall. intros p _. apply decoded_prop.
Qed.

(** What [deserialize] reads, it reads from a sequence of bytes. *)
Lemma deserialize_inv data type v :
  deserialize data type = Ok v ->
  exists bs offset, array_B data = Ok bs /\ bytes bs /\ _deserialize bs type 0 = Ok (v, offset).
Proof.
  unfold deserialize.
  destruct (array_B data) as [bs|e] eqn:Ha; [|discriminate]. cbn [bind].
  destruct (_deserialize bs type 0) as [[v' o]|e] eqn:Hd; [|discriminate].
  cbn [bind fst]. intros [= <-]. exists bs, o. split; [reflexivity|]. split; [|assumption].
  unfold array_B in Ha. destruct (ints_of data) as [ns|e]; [|discriminate].
  cbn [bind] in Ha. destruct (forallb is_byte ns) eqn:Hb; [|discriminate].
  injection Ha as <-. now apply forallb_is_byte.
Qed.

(** Short payloads: a length prefix that promises more bytes than follow
    is accepted and the bytes there are returned. *)
Lemma slice_clipped (pre body : list Z) n :
  len body <= n -> slice (pre ++ body) (len pre) (len pre + n) = body.
Proof.
  intros Hn. unfold slice, len in *. rewrite Nat2Z.id, skipn_exact.
  apply firstn_all2. lia.
Qed.

End DecodedObjects.

Section Oversize.

Context {builtins : Builtins}.

Lemma pack_H_overflow n :
  65535 < n -> struct.pack struct.fmt_H (VInt n) = Raise struct_error.
Proof.
  intros Hn. unfold struct.pack, struct.pack_int. cbn [struct.calcsize int_of].
  destruct (Z.leb_spec 0 n); [|lia].
  destruct (Z.ltb_spec n (2 ^ (8 * 2))) as [Hlt|]; [|reflexivity].
  change (2 ^ (8 * 2)) with 65536 in Hlt. lia.
Qed.

End Oversize.

(** The encoding of a conformant instance, of a class as in the round
    trip, is read back wherever it lies in the data: behind any bytes, at
    the offset where it starts, and whatever follows it.  So bytes behind an
    instance are ignored, and instances serialized one after the other are
    read one after the other. *)
Theorem codec_anywhere {builtins : Builtins} (S : class) (v : value) :
  conforms S v ->
  without_floats S = true ->
  callable S = true ->
  exists bs,
    BinaryFormatter.serialize v = Ok bs /\
    (forall pre post,
        BinaryFormatter._deserialize (pre ++ bs ++ post) S (len pre)
        = Ok (decoded_form v, len pre + len bs)) /\
    (forall post, bytes post ->
                  BinaryFormatter.deserialize (VBytes (bs ++ post)) S = Ok (decoded_form v)).
Proof.
  intros Hc Hff Hinit.
  destruct codec_mutual as (_ & _ & Hobj & _).
  destruct (Hobj S v Hc Hff Hinit) as (bs & Hser & Hbytes & Hread).
  exists bs. split; [assumption|]. split; [assumption|].
  intros post Hpost. unfold BinaryFormatter.deserialize, array_B. cbn [ints_of bind].
  assert (forallb is_byte (bs ++ post) = true) as ->
    by (apply forallb_is_byte, Forall_app; now split).
  cbn [bind]. specialize (Hread [] post). cbn [app] in Hread.
  change (len (@nil Z)) with 0 in Hread. now rewrite Hread.
Qed.

Lemma codec_anywhere_witness :
  let v := test_object (VBytes [97; 98; 99]) (VBytes (uuid.bytes test_guid)) in
  exists bs,
    BinaryFormatter.serialize v = Ok bs /\
    (forall pre post,
        BinaryFormatter._deserialize (pre ++ bs ++ post) _TestObject (len pre)
        = Ok (decoded_form v, len pre + len bs)) /\
    (forall post, bytes post ->
                  BinaryFormatter.deserialize (VBytes (bs ++ post)) _TestObject
                  = Ok (decoded_form v)).
Proof.
  exact (@codec_anywhere test_builtins _TestObject _ test_object_conforms
                         eq_refl eq_refl).
Defined.

(** Short payloads are clipped, not rejected: when the length prefix of a
    Binary or String property promises [n] bytes and the data ends after
    fewer, the deserializer returns the bytes that are there (for a String,
    the text they encode) and an offset [n] bytes behind the prefix, beyond
    the end of the data. *)
Theorem short_payload_clipped {builtins : Builtins} (pre body : list Z) (n : Z) :
  len body <= n <= 65535 ->
  BinaryFormatter.deserialize_property
    (pre ++ struct.le_bytes 2 n ++ body) (binary_property DataTypes.Binary) (len pre)
  = Ok (VBytes body, len pre + 2 + n) /\
  (utf8_valid body = true ->
   BinaryFormatter.deserialize_property
     (pre ++ struct.le_bytes 2 n ++ body) (binary_property DataTypes.String) (len pre)
   = Ok (VText body, len pre + 2 + n)).
Proof.
  intros Hn. pose proof (len_nonneg body).
  assert (slice (pre ++ struct.le_bytes 2 n ++ body) (len pre + 2) (len pre + 2 + n)
          = body) as Hs.
  { rewrite app_assoc.
    change (len pre + 2) with (len pre + len (struct.le_bytes 2 n)).
    rewrite <- len_app. apply slice_clipped. lia. }
  split.
  - rewrite deserialize_binary, unpack_H by lia. cbn [bind]. cbv zeta. now rewrite Hs.
  - intros Hutf. rewrite deserialize_string, unpack_H by lia. cbn [bind]. cbv zeta.
    now rewrite Hs, Hutf.
Qed.

Lemma short_payload_clipped_witness :
  @BinaryFormatter.deserialize_property test_builtins
    ([7] ++ struct.le_bytes 2 500 ++ [97; 98]) (binary_property DataTypes.Binary) (len [7])
  = Ok (VBytes [97; 98], len [7] + 2 + 500) /\
  (@utf8_valid test_builtins [97; 98] = true ->
   @BinaryFormatter.deserialize_property test_builtins
     ([7] ++ struct.le_bytes 2 500 ++ [97; 98]) (binary_property DataTypes.String) (len [7])
   = Ok (VText [97; 98], len [7] + 2 + 500)).
Proof.
  apply (@short_payload_clipped test_builtins [7] [97; 98] 500).
  unfold len. cbn. lia.
Defined.

(** What [deserialize] returns is the decoded form of a conformant
    instance of the class: every number in the range of its type, every Guid
    a [uuid.UUID] below [2 ** 128], every String the text of at most 65535
    bytes of valid UTF-8, every Binary at most 65535 bytes, every array at
    most 65535 instances of its element class.  When the class has no
    Single and Double properties and can, like the element classes of its
    arrays, be called without arguments, serializing that instance and
    deserializing the bytes gives the same object again. *)
Theorem deserialize_conforms {builtins : Builtins} (S : class) (data v : value) :
  BinaryFormatter.deserialize data S = Ok v ->
  exists w,
    conforms S w /\ decoded_form w = v /\
    (without_floats S = true -> callable S = true ->
     exists bs,
       BinaryFormatter.serialize w = Ok bs /\
       BinaryFormatter.deserialize (VBytes bs) S = Ok v).
Proof.
  intros Hd.
  destruct (deserialize_inv data S v Hd) as (bs0 & offset & _ & Hb0 & Hd0).
  destruct (decoded_conforms S bs0 0 v offset Hb0 ltac:(lia) Hd0) as (w & Hc & Hw & _).
  exists w. split; [assumption|]. split; [assumption|].
  intros Hff Hinit.
  destruct codec_mutual as (_ & _ & Hobj & _).
  destruct (Hobj S w Hc Hff Hinit) as (bs & Hser & Hbytes & Hread).
  specialize (Hread [] []). rewrite app_nil_r, Hw in Hread.
  cbn [app] in Hread. change (len (@nil Z)) with 0 in Hread. rewrite Z.add_0_l in Hread.
  exists bs. split; [assumption|]. now apply deserialize_whole.
Qed.

Lemma deserialize_conforms_witness :
  let v := test_object (VText [97; 98; 99]) (VUuid test_guid) in
  exists w,
    @conforms test_builtins _TestObject w /\ decoded_form w = v /\
    exists bs,
      BinaryFormatter.serialize w = Ok bs /\
      BinaryFormatter.deserialize (VBytes bs) _TestObject = Ok v.
Proof.
  intros v.
  assert (@BinaryFormatter.deserialize test_builtins (VBytes test_binary) _TestObject = Ok v)
    as Hd by (vm_compute; reflexivity).
  destruct (@deserialize_conforms test_builtins _TestObject (VBytes test_binary) v Hd)
    as (w & Hc & Hw & Hagain).
  exists w. split; [exact Hc|]. split; [exact Hw|].
  exact (Hagain eq_refl eq_refl).
Defined.

(** The 16-bit counts are limits of [serialize]: an array of more than
    65535 elements, and a Binary or String value of more than 65535 bytes,
    make it raise [struct.error]. *)
Theorem oversize_raises {builtins : Builtins} (items : list value) (bs : list Z) :
  65535 < len items ->
  65535 < len bs ->
  bytes bs ->
  BinaryFormatter.serialize (VList items) = Raise struct_error /\
  BinaryFormatter.serialize (VObject [(binary_property DataTypes.Binary, VBytes bs)])
  = Raise struct_error /\
  BinaryFormatter.serialize (VObject [(binary_property DataTypes.String, VBytes bs)])
  = Raise struct_error.
Proof.
  intros Hitems Hbs Hbytes. apply forallb_is_byte in Hbytes.
  split; [|split].
  - cbn [BinaryFormatter.serialize]. now rewrite pack_H_overflow.
  - cbn [BinaryFormatter.serialize BinaryFormatter.extend_all fst snd].
    change (BinaryFormatter.serialize_property BinaryFormatter.serialize
              (binary_property DataTypes.Binary) (VBytes bs))
      with (str_len <- len_of (VBytes bs) ;;
            hdr <- struct.pack struct.fmt_H (VInt str_len) ;;
            body <- extend_with (VBytes bs) ;;
            Ok (hdr ++ body)).
    cbn [len_of bind]. now rewrite pack_H_overflow.
  - cbn [BinaryFormatter.serialize BinaryFormatter.extend_all fst snd].
    change (BinaryFormatter.serialize_property BinaryFormatter.serialize
              (binary_property DataTypes.String) (VBytes bs))
      with (bstr <- array_B (VBytes bs) ;;
            hdr <- struct.pack struct.fmt_H (VInt (len bstr)) ;;
            Ok (hdr ++ bstr)).
    unfold array_B. cbn [ints_of bind]. rewrite Hbytes. cbn [bind].
    now rewrite pack_H_overflow.
Qed.

Lemma bytes_repeat n : bytes (repeat 0 n).
Proof. induction n; cbn [repeat]; constructor; [lia|assumption]. Defined.

Lemma len_repeat {A} (x : A) n : len (repeat x n) = Z.of_nat n.
Proof. unfold len. now rewrite repeat_length. Defined.

Lemma oversize_raises_witness :
  let n := Z.to_nat 65536 in
  @BinaryFormatter.serialize test_builtins (VList (repeat VNone n)) = Raise struct_error /\
  @BinaryFormatter.serialize test_builtins
    (VObject [(binary_property DataTypes.Binary, VBytes (repeat 0 n))])
  = Raise struct_error /\
  @BinaryFormatter.serialize test_builtins
    (VObject [(binary_property DataTypes.String, VBytes (repeat 0 n))])
  = Raise struct_error.
Proof.
  intros n.
  apply (@oversize_raises test_builtins (repeat VNone n) (repeat 0 n)).
  - rewrite len_repeat. unfold n. lia.
  - rewrite len_repeat. unfold n. lia.
  - apply bytes_repeat.
Defined.

(** ** The command map *)

Section Mapping.

Import AutoClassFactory BinaryFactory.

Lemma getitem_setitem_same name x members :
  AutoClassFactory.getitem name (AutoClassFactory.setitem name x members) = Some x.
Proof.
  unfold AutoClassFactory.setitem, getitem.
  destruct (existsb _ members) eqn:Hc.
  - induction members as [|[k v] m IH]; [discriminate|].
    cbn [existsb map find fst] in *.
    destruct (String.eqb name k) eqn:E; cbn [fst snd].
    + now rewrite E.
    + rewrite E. apply IH. exact Hc.
  - induction members as [|[k v] m IH].
    + cbn [app find fst]. now rewrite String.eqb_refl.
    + cbn [existsb app find fst] in *.
      destruct (String.eqb name k); [discriminate|]. apply IH. exact Hc.
Qed.

Lemma getitem_setitem_other name name' x members :
  name <> name' ->
  getitem name (AutoClassFactory.setitem name' x members) = getitem name members.
Proof.
  intros Hne. apply String.eqb_neq in Hne. unfold AutoClassFactory.setitem, getitem.
  destruct (existsb _ members).
  - induction members as [|[k v] m IH]; [reflexivity|].
    cbn [map find fst].
    destruct (String.eqb name' k) eqn:E; cbn [fst].
    + apply String.eqb_eq in E. subst k. rewrite Hne. exact IH.
    + destruct (String.eqb name k); [reflexivity|exact IH].
  - induction members as [|[k v] m IH].
    + cbn [app find fst]. now rewrite Hne.
    + cbn [app find fst]. destruct (String.eqb name k); [reflexivity|exact IH].
Qed.

Lemma type_eq_Array x :
  x <> Parameters.type_constant DataTypes.Array ->
  Parameters.type_eq x DataTypes.Array = false.
Proof.
  destruct x as [c|n]; [|reflexivity]. intros H.
  destruct c; try reflexivity. now contradiction H.
Qed.

(** The loop of [generate] on parameters whose names leave the list
    [members['__binary_struct__']] in place and bind no [__slots__]. *)
Lemma generate_members_layout parameters :
  forall members props,
    Forall (fun param =>
              Parameters.type param <> Parameters.type_constant DataTypes.Array /\
              ~ In (Parameters.name param) reserved_names) parameters ->
    getitem "__binary_struct__" members = Some (member_list props) ->
    getitem "__slots__" members = None ->
    exists members',
      generate_members parameters members = Ok members' /\
      getitem "__binary_struct__" members'
      = Some (member_list (props ++ map property_of parameters)) /\
      getitem "__slots__" members' = None.
Proof.
  induction parameters as [|param ps IH]; intros ms props H Hstruct Hslots.
  - exists ms. cbn [generate_members map]. rewrite app_nil_r. auto.
  - inversion H as [|? ? [Htype Hname] Hps]; subst. cbn [generate_members].
    rewrite type_eq_Array by assumption.
    assert (Parameters.name param <> "__binary_struct__"
            /\ Parameters.name param <> "_binary_struct__"
            /\ Parameters.name param <> "__slots__"
            /\ Parameters.name param <> "_slots__")%string as (N1 & N2 & N3 & N4).
    { unfold reserved_names in Hname. cbn [In] in Hname.
      repeat split; intros E; apply Hname; rewrite E; auto. }
    set (fieldname := String.append "_" (Parameters.name param)).
    assert (fieldname <> "__binary_struct__" /\ fieldname <> "__slots__")%string
      as [F1 F2].
    { unfold fieldname. cbn [String.append].
      split; intros [= E]; [now apply N2|now apply N4]. }
    set (prop := _generate_binary_property (Parameters.type param) fieldname).
    rewrite !getitem_setitem_other by congruence. rewrite Hstruct.
    destruct (IH (AutoClassFactory.setitem "__binary_struct__" (member_list (props ++ [prop]))
                    (AutoClassFactory.setitem (Parameters.name param) (member_property prop)
                       (AutoClassFactory.setitem fieldname member_None ms)))
                 (props ++ [prop]) Hps)
      as (ms' & Hrun & Hstruct' & Hslots').
    + apply getitem_setitem_same.
    + rewrite !getitem_setitem_other by congruence. exact Hslots.
    + exists ms'. split; [exact Hrun|]. split; [|exact Hslots'].
      rewrite Hstruct'. cbn [map]. now rewrite <- app_assoc.
Qed.

Lemma mapped_class_contains name command_map :
  contains name command_map = true <-> exists cls, mapped_class name command_map = Some cls.
Proof.
  unfold contains, mapped_class. induction command_map as [|[k v] m IH]; cbn [existsb find fst].
  - split; [discriminate|intros [? [=]]].
  - destruct (String.eqb name k); cbn [orb snd].
    + split; [eauto|reflexivity].
    + exact IH.
Qed.

Lemma mapped_class_setitem_same name cls command_map :
  mapped_class name (setitem name cls command_map) = Some cls.
Proof.
  unfold setitem. destruct (contains name command_map) eqn:Hc.
  - unfold contains, mapped_class in *. induction command_map as [|[k v] m IH]; [discriminate|].
    cbn [existsb map find fst] in *.
    destruct (String.eqb name k) eqn:E; cbn [fst snd].
    + now rewrite E.
    + rewrite E. apply IH. exact Hc.
  - unfold contains, mapped_class in *. induction command_map as [|[k v] m IH].
    + cbn [app find fst]. now rewrite String.eqb_refl.
    + cbn [existsb app find fst] in *.
      destruct (String.eqb name k); [discriminate|]. apply IH. exact Hc.
Qed.

Lemma mapped_class_setitem_other name name' cls command_map :
  name <> name' ->
  mapped_class name (setitem name' cls command_map) = mapped_class name command_map.
Proof.
  intros Hne. apply String.eqb_neq in Hne. unfold setitem.
  destruct (contains name' command_map).
  - unfold mapped_class. induction command_map as [|[k v] m IH]; [reflexivity|].
    cbn [map find fst].
    destruct (String.eqb name' k) eqn:E; cbn [fst].
    + apply String.eqb_eq in E. subst k. rewrite Hne. exact IH.
    + destruct (String.eqb name k); [reflexivity|exact IH].
  - unfold mapped_class. induction command_map as [|[k v] m IH].
    + cbn [app find fst]. now rewrite Hne.
    + cbn [app find fst]. destruct (String.eqb name k); [reflexivity|exact IH].
Qed.

(** The loop of [handle_registration_request] never replaces a class. *)
Lemma register_commands_keeps commands :
  forall self name cls,
    mapped_class name (command_map self) = Some cls ->
    mapped_class name (command_map (state_of (register_commands commands self))) = Some cls.
Proof.
  induction commands as [|c cs IH]; intros self name cls Hmapped; [exact Hmapped|].
  cbn [register_commands].
  destruct (contains (Command.name c) (command_map self)) eqn:Hc; cbn [negb].
  - now apply IH.
  - destruct (generate c) as [cls'|e]; [|exact Hmapped].
    apply IH. cbn [command_map]. rewrite mapped_class_setitem_other; [exact Hmapped|].
    intros Heq. rewrite <- Heq in Hc.
    assert (contains name (command_map self) = true) as Hin
      by (apply mapped_class_contains; eauto).
    congruence.
Qed.

Lemma contains_setitem_same name cls command_map :
  contains name (setitem name cls command_map) = true.
Proof. apply mapped_class_contains. exists cls. apply mapped_class_setitem_same. Qed.

Lemma contains_setitem_mono name name' cls command_map :
  contains name command_map = true ->
  contains name (setitem name' cls command_map) = true.
Proof.
  intros H. destruct (String.eqb_spec name name') as [->|Hne].
  - apply contains_setitem_same.
  - now rewrite contains_setitem_other.
Qed.

(** When the loop ends normally, every command of the record is mapped. *)
Lemma register_commands_maps commands :
  forall self self',
    register_commands commands self = Returns tt self' ->
    (forall name, contains name (command_map self) = true ->
                  contains name (command_map self') = true) /\
    Forall (fun c => contains (Command.name c) (command_map self') = true) commands /\
    registration_called self' = registration_called self.
Proof.
  induction commands as [|c cs IH]; intros self self'.
  - cbn [register_commands]. intros Heq.
    apply (f_equal state_of) in Heq. cbn [state_of] in Heq. subst self'. auto.
  - cbn [register_commands].
    destruct (contains (Command.name c) (command_map self)) eqn:Hc; cbn [negb].
    + intros Hrun. destruct (IH _ _ Hrun) as (Hmono & Hall & Hcalled).
      split; [assumption|]. split; [|assumption]. constructor; [|assumption]. now apply Hmono.
    + destruct (generate c) as [cls|e]; [|discriminate].
      intros Hrun. destruct (IH _ _ Hrun) as (Hmono & Hall & Hcalled).
      cbn [command_map registration_called] in *.
      split; [|split; [|assumption]].
      * intros name Hin. apply Hmono. now apply contains_setitem_mono.
      * constructor; [|assumption]. apply Hmono. apply contains_setitem_same.
Qed.

Lemma register_commands_mapped commands self :
  Forall (fun c => contains (Command.name c) (command_map self) = true) commands ->
  register_commands commands self = Returns tt self.
Proof.
  induction 1 as [|c cs Hc _ IH]; [reflexivity|].
  cbn [register_commands]. now rewrite Hc.
Qed.

End Mapping.

Section Adding.

Import AutoClassFactory BinaryFactory.

Lemma contains_app name command_map more :
  contains name (command_map ++ more) = contains name command_map || contains name more.
Proof. unfold contains. apply existsb_app. Qed.

(** The loop on commands with new, distinct names: one class is added
    behind the map for each command, in order. *)
Lemma register_commands_adds commands :
  forall self self',
    NoDup (map Command.name commands) ->
    Forall (fun c => contains (Command.name c) (command_map self) = false) commands ->
    register_commands commands self = Returns tt self' ->
    exists added,
      command_map self' = command_map self ++ added /\
      Forall2 (fun c kv => fst kv = Command.name c /\ generate c = Ok (snd kv))
              commands added.
Proof.
  induction commands as [|c cs IH]; intros self self' Hnd Hnew.
  - cbn [register_commands]. intros Heq.
    apply (f_equal state_of) in Heq. cbn [state_of] in Heq. subst self'.
    exists []. rewrite app_nil_r. split; [reflexivity|constructor].
  - cbn [map] in Hnd. inversion Hnd as [|? ? Hnotin Hnd']; subst.
    inversion Hnew as [|? ? Hc Hnew']; subst.
    cbn [register_commands]. rewrite Hc. cbn [negb].
    destruct (generate c) as [cls|e] eqn:Hgen; [|discriminate].
    intros Hrun.
    assert (Forall (fun c' => contains (Command.name c')
                                (setitem (Command.name c) cls (command_map self)) = false)
                   cs) as Hnew1.
    { unfold setitem. rewrite Hc.
      rewrite Forall_forall in Hnew'. apply Forall_forall. intros c' Hin.
      rewrite contains_app, (Hnew' c' Hin). cbn [orb contains existsb fst].
      rewrite orb_false_r. apply String.eqb_neq. intros Heq. apply Hnotin.
      rewrite <- Heq. now apply in_map. }
    destruct (IH (BinaryFactory.make (setitem (Command.name c) cls (command_map self))
                                     (registration_called self))
                 self' Hnd' Hnew1 Hrun) as (added & Hmap & Hadded).
    cbn [command_map] in Hmap. unfold setitem in Hmap. rewrite Hc in Hmap.
    exists ((Command.name c, cls) :: added). split.
    + now rewrite Hmap, <- app_assoc.
    + constructor; [now split|assumption].
Qed.

End Adding.

(** The class generated for a command is named after the command and
    lays out its parameters in the order they are declared, each as a
    property of the declared type that reads and writes the attribute named
    by the parameter behind an underscore.  This holds when no parameter
    holds the constant [DataTypes.Array] as its type and none is named
    [__binary_struct__], [_binary_struct__], [__slots__] or [_slots__]. *)
Theorem generate_layout (command : Command.t) :
  Forall (fun param =>
            Parameters.type param <> Parameters.type_constant DataTypes.Array /\
            ~ In (Parameters.name param) reserved_names)
         (Command.parameters command) ->
  exists cls,
    AutoClassFactory.generate command = Ok cls /\
    AutoClassFactory.__name__ cls = String.append (Command.name command) "Class" /\
    AutoClassFactory.__binary_struct__ cls
    = Some (AutoClassFactory.member_list (map property_of (Command.parameters command))).
Proof.
  intros H. unfold AutoClassFactory.generate.
  destruct (generate_members_layout (Command.parameters command)
              [("__binary_struct__"%string, AutoClassFactory.member_list [])] [] H
              eq_refl eq_refl) as (ms & Hrun & Hstruct & Hslots).
  rewrite Hrun. cbn [bind]. unfold AutoClassFactory.type_call. rewrite Hslots.
  eexists. split; [reflexivity|]. split; [reflexivity|].
  unfold AutoClassFactory.__binary_struct__. cbn [AutoClassFactory.__dict__].
  exact Hstruct.
Qed.

Lemma generate_layout_witness :
  let command := Command.make 100 "CommandName"
                   [ Parameters.make (Parameters.type_constant DataTypes.Word) "property1";
                     Parameters.make (Parameters.type_int 15) "property2" ] in
  exists cls,
    AutoClassFactory.generate command = Ok cls /\
    AutoClassFactory.__name__ cls = "CommandNameClass"%string /\
    AutoClassFactory.__binary_struct__ cls
    = Some (AutoClassFactory.member_list
              [ AutoClassFactory.make_property
                  (Parameters.type_constant DataTypes.Word) "_property1";
                AutoClassFactory.make_property (Parameters.type_int 15) "_property2" ]).
Proof.
  intros command. apply (generate_layout command).
  repeat constructor; try discriminate;
    unfold reserved_names; cbn [In Parameters.name]; intuition discriminate.
Defined.

(** Handling a registration record never replaces a class of the command
    map: a name that is mapped keeps its class, whether the handling
    returns or raises. *)
Theorem registration_keeps_mappings
    (reg : DeviceRegistration.t) (self : BinaryFactory.t)
    (name : String.string) (cls : AutoClassFactory.autoclass) :
  mapped_class name (BinaryFactory.command_map self) = Some cls ->
  mapped_class name
    (BinaryFactory.command_map
       (state_of (BinaryFactory.handle_registration_request reg self)))
  = Some cls.
Proof.
  intros Hmapped. unfold BinaryFactory.handle_registration_request.
  pose proof (register_commands_keeps (DeviceRegistration.commands reg) self name cls Hmapped)
    as Hkeep.
  destruct (BinaryFactory.register_commands (DeviceRegistration.commands reg) self)
    as [[] self'|e self']; cbn [state_of] in *.
  - now destruct (BinaryFactory.registration_called self').
  - assumption.
Qed.

Lemma registration_keeps_mappings_witness :
  let mine := AutoClassFactory.make "Mine" [] in
  let ping := Command.make 100 "Ping"
                [Parameters.make (Parameters.type_constant DataTypes.Word) "p1"] in
  let reg := DeviceRegistration.make 0 "" "" "" "" [] [] [ping] in
  let self := state_of (BinaryFactory.register_command_map "Ping" mine
                          (BinaryFactory.make [] false)) in
  mapped_class "Ping"
    (BinaryFactory.command_map
       (state_of (BinaryFactory.handle_registration_request reg self)))
  = Some mine.
Proof.
  intros mine ping reg self.
  exact (registration_keeps_mappings reg self "Ping" mine eq_refl).
Defined.

(** What a registration adds: when the commands of the record have
    distinct names, none of them in the command map, and the handling
    returns, the command map is the old one followed by one entry per
    command, in order: the command's name with the class [generate] makes
    for it. *)
Theorem registration_adds_classes
    (reg : DeviceRegistration.t) (self self' : BinaryFactory.t) :
  NoDup (map Command.name (DeviceRegistration.commands reg)) ->
  Forall (fun command =>
            BinaryFactory.contains (Command.name command)
                                   (BinaryFactory.command_map self) = false)
         (DeviceRegistration.commands reg) ->
  BinaryFactory.handle_registration_request reg self = Returns tt self' ->
  exists added,
    BinaryFactory.command_map self' = BinaryFactory.command_map self ++ added /\
    Forall2 (fun command entry =>
               fst entry = Command.name command /\
               AutoClassFactory.generate command = Ok (snd entry))
            (DeviceRegistration.commands reg) added.
Proof.
  intros Hnd Hnew. unfold BinaryFactory.handle_registration_request.
  destruct (BinaryFactory.register_commands (DeviceRegistration.commands reg) self)
    as [[] self1|e self1] eqn:Hrun; [|discriminate].
  destruct (register_commands_adds _ _ _ Hnd Hnew Hrun) as (added & Hmap & Hadded).
  destruct (BinaryFactory.registration_called self1); [discriminate|].
  intros Heq. apply (f_equal state_of) in Heq. cbn [state_of] in Heq. subst self'.
  cbn [BinaryFactory.command_map]. now exists added.
Qed.

Lemma registration_adds_classes_witness :
  let ping := Command.make 100 "Ping"
                [Parameters.make (Parameters.type_constant DataTypes.Word) "p1"] in
  let stop := Command.make 101 "Stop" [] in
  let reg := DeviceRegistration.make 0 "" "" "" "" [] [] [ping; stop] in
  exists self' added,
    BinaryFactory.handle_registration_request reg (BinaryFactory.make [] false)
    = Returns tt self' /\
    BinaryFactory.command_map self' = [] ++ added /\
    Forall2 (fun command entry =>
               fst entry = Command.name command /\
               AutoClassFactory.generate command = Ok (snd entry))
            [ping; stop] added.
Proof.
  intros ping stop reg. eexists.
  assert (NoDup (map Command.name (DeviceRegistration.commands reg))) as Hnd.
  { repeat constructor; cbn; intuition discriminate. }
  destruct (registration_adds_classes reg (BinaryFactory.make [] false) _ Hnd
              ltac:(repeat constructor) eq_refl) as (added & Hmap & Hadded).
  exists added. split; [reflexivity|]. now split.
Defined.

(** When handling a registration record returns, the deferred had not
    been called before and is called now, every command of the record has
    a class in the command map, and handling the same record again raises
    [AlreadyCalledError] and changes nothing. *)
Theorem registration_completes_once
    (reg : DeviceRegistration.t) (self self' : BinaryFactory.t) :
  BinaryFactory.handle_registration_request reg self = Returns tt self' ->
  BinaryFactory.registration_called self = false /\
  BinaryFactory.registration_called self' = true /\
  Forall (fun command =>
            BinaryFactory.contains (Command.name command)
                                   (BinaryFactory.command_map self') = true)
         (DeviceRegistration.commands reg) /\
  BinaryFactory.handle_registration_request reg self' = Raises AlreadyCalledError self'.
Proof.
  unfold BinaryFactory.handle_registration_request.
  destruct (BinaryFactory.register_commands (DeviceRegistration.commands reg) self)
    as [[] self1|e self1] eqn:Hrun; [|discriminate].
  destruct (register_commands_maps _ _ _ Hrun) as (_ & Hall & Hcalled).
  destruct (BinaryFactory.registration_called self1) eqn:Hc1; [discriminate|].
  intros Heq. apply (f_equal state_of) in Heq. cbn [state_of] in Heq. subst self'.
  cbn [BinaryFactory.command_map BinaryFactory.registration_called].
  split; [congruence|]. split; [reflexivity|]. split; [assumption|].
  rewrite register_commands_mapped by assumption. reflexivity.
Qed.

Lemma registration_completes_once_witness :
  let ping := Command.make 100 "Ping"
                [Parameters.make (Parameters.type_constant DataTypes.Word) "p1"] in
  let reg := DeviceRegistration.make 0 "" "" "" "" [] [] [ping] in
  exists self',
    BinaryFactory.handle_registration_request reg (BinaryFactory.make [] false)
    = Returns tt self' /\
    BinaryFactory.registration_called self' = true /\
    BinaryFactory.handle_registration_request reg self' = Raises AlreadyCalledError self'.
Proof.
  intros ping reg. eexists. split; [reflexivity|].
  pose proof (registration_completes_once reg (BinaryFactory.make [] false) _ eq_refl)
    as (_ & Hcalled & _ & Hagain).
  exact (conj Hcalled Hagain).
Defined.

(** ** Greeting a device, building a factory *)

(** [to_binary] of the base class, on an instance of [BinaryMessage], is
    the method of the [BinaryMessage] model. *)
Lemma to_binary_of_BinaryMessage m :
  AbstractBinaryMessage.to_binary (AbstractBinaryMessage.of_BinaryMessage m)
  = BinaryMessage.to_binary m.
Proof. reflexivity. Qed.

(** [connectionMade] never greets the device: the [intent] of a
    [RegistrationRequest] names [SystemIntents.RegistrationRequest], the
    container's constant being [RequestRegistration]; so [to_binary] raises
    [AttributeError] and nothing is written to the transport. *)
Theorem connectionMade_raises (transport : list (list Z)) :
  SystemIntents.getattr "RequestRegistration" = Ok (SystemIntents.make "RequestRegistration" 0) /\
  SystemIntents.getattr "RegistrationRequest" = Raise AttributeError /\
  AbstractBinaryMessage.to_binary RegistrationRequest.getters = Raise AttributeError /\
  BinaryProtocol.connectionMade transport = Raises AttributeError transport.
Proof. repeat split; reflexivity. Qed.

(** [BinaryFactory()] cannot be built: [__init__] names [Deferred], which
    the module does not bind (it imports [defer]). *)
Theorem BinaryFactory_init_raises :
  BinaryFactory.__init__ = Raise (NameError "Deferred").
Proof. reflexivity. Qed.
